(** * edx-enterprise, API v1 views: a shallow embedding

    The definitions below follow [enterprise/api/v1/views.py]:

    - [ReportTypes]: [EnterpriseCustomerReportTypesView], its helper that
      keeps the most recent progress report type, its filter for
      customers other than Pearson and its [get];
    - [BulkEnroll]: [EnterpriseCustomerViewSet.enroll_learners_in_courses];
    - [SubsidyViews]: [EnterpriseSubsidyFulfillmentViewSet] (queryset,
      retrieve, cancel_enrollment) and
      [LicensedEnterpriseCourseEnrollmentViewSet] (enrollment termination,
      license_revoke, bulk_licensed_enrollments_expiration);
    - [CatalogContentItems], [CustomerContentItems]: the two
      [contains_content_items] views;
    - [UnlinkUsers]: [EnterpriseCustomerViewSet.unlink_users].

    Python dictionaries and sets become association lists, [gmap] and
    [gset]; exceptions become the left summand of a result type; the calls
    a view makes to the platform (enrollment API, linking, tracking,
    revocation) are recorded in a trace, so that "which call was issued"
    is a statement about the trace.  Collaborators whose code lives
    outside the views module (the enrollment API, the user lookup, email
    validation, the subsidized-enrollment helper, course overviews,
    certificates, progress status, the history table) are section
    variables: every theorem holds for all of them.

    A view is modelled from the point where its permission decorator and
    its request serializer have let the request through, in an Open edX
    environment (the dependency checks of the licensed views pass).
    Logging is left out, except for the warnings of [unlink_users].

    Timestamps are integers; the cutoff of a request is a datetime with
    or without a UTC offset, as [parse_datetime] reads it.  A uuid column
    holds the canonical text of a UUID, and a string of a request that is
    looked up in such a column is first read as a UUID ([to_uuid]).  A
    Python set is walked in an order that is left open
    ([set_iteration]). *)

From Stdlib Require Import ZArith List String Ascii Lia Bool Sorted.
From stdpp Require Import base list strings gmap pretty.

Open Scope string_scope.
Open Scope list_scope.
Open Scope Z_scope.

(** ** HTTP status codes (rest_framework.status) *)

Module Http.

Definition HTTP_200_OK : Z := 200.
Definition HTTP_201_CREATED : Z := 201.
Definition HTTP_202_ACCEPTED : Z := 202.
Definition HTTP_400_BAD_REQUEST : Z := 400.
Definition HTTP_404_NOT_FOUND : Z := 404.
Definition HTTP_409_CONFLICT : Z := 409.
Definition HTTP_422_UNPROCESSABLE_ENTITY : Z := 422.
Definition HTTP_500_INTERNAL_SERVER_ERROR : Z := 500.

End Http.

(** ** Lexicographic order on strings

    Python compares [str] values code point by code point; on byte
    strings this is [String.compare].  The standard library proves
    totality and antisymmetry of [String.leb]; transitivity is added
    here. *)

Module StrOrder.

Lemma ascii_compare_refl (a : ascii) : Ascii.compare a a = Eq.
Proof. unfold Ascii.compare. apply N.compare_refl. Qed.

Lemma ascii_compare_eq (a b : ascii) : Ascii.compare a b = Eq -> a = b.
Proof. apply Ascii.compare_eq_iff. Qed.

Lemma ascii_compare_lt_trans (a b c : ascii) :
  Ascii.compare a b = Lt -> Ascii.compare b c = Lt -> Ascii.compare a c = Lt.
Proof.
  unfold Ascii.compare. rewrite !N.compare_lt_iff. apply N.lt_trans.
Qed.

Lemma compare_refl (s : string) : String.compare s s = Eq.
Proof.
  induction s as [|a s IH]; simpl; [reflexivity|].
  now rewrite ascii_compare_refl.
Qed.

Lemma compare_lt_trans (s1 : string) :
  forall s2 s3,
    String.compare s1 s2 = Lt -> String.compare s2 s3 = Lt ->
    String.compare s1 s3 = Lt.
Proof.
  induction s1 as [|a s1 IH]; intros [|b s2] [|c s3]; simpl;
    try congruence.
  destruct (Ascii.compare a b) eqn:Hab; try discriminate;
    destruct (Ascii.compare b c) eqn:Hbc; try discriminate; intros H1 H2.
  - apply ascii_compare_eq in Hab, Hbc. subst.
    rewrite ascii_compare_refl. eauto.
  - apply ascii_compare_eq in Hab. subst. now rewrite Hbc.
  - apply ascii_compare_eq in Hbc. subst. now rewrite Hab.
  - now rewrite (ascii_compare_lt_trans _ _ _ Hab Hbc).
Qed.

Lemma leb_refl (s : string) : String.leb s s = true.
Proof. unfold String.leb. now rewrite compare_refl. Qed.

Lemma leb_trans (s1 s2 s3 : string) :
  String.leb s1 s2 = true -> String.leb s2 s3 = true ->
  String.leb s1 s3 = true.
Proof.
  unfold String.leb.
  destruct (String.compare s1 s2) eqn:H12; try discriminate;
    destruct (String.compare s2 s3) eqn:H23; try discriminate; intros _ _.
  - apply String.compare_eq_iff in H12, H23. subst. now rewrite compare_refl.
  - apply String.compare_eq_iff in H12. subst. now rewrite H23.
  - apply String.compare_eq_iff in H23. subst. now rewrite H12.
  - now rewrite (compare_lt_trans _ _ _ H12 H23).
Qed.

End StrOrder.

(** ** EnterpriseCustomerReportTypesView *)

Module ReportTypes.

(** A data type is a two-element tuple; [data_type[1]] is its second
    component. *)
Definition data_type : Type := (string * string)%type.

Definition is_progress (dt : data_type) : bool :=
  String.prefix "progress" (snd dt).

(** [list.sort(key=lambda data_type: data_type[1])]: a stable sort on the
    second component.  Insertion from the right end keeps equal keys in
    their original order. *)
Fixpoint insert_by_code (x : data_type) (l : list data_type) : list data_type :=
  match l with
  | [] => [x]
  | y :: l' =>
      if String.leb (snd x) (snd y) then x :: y :: l'
      else y :: insert_by_code x l'
  end.

Fixpoint sort_by_code (l : list data_type) : list data_type :=
  match l with
  | [] => []
  | x :: l' => insert_by_code x (sort_by_code l')
  end.

(** [_get_data_types_with_recent_progress_type].  [None] stands for the
    [IndexError] raised by [progress_data_types[-1]] on an empty list. *)
Definition _get_data_types_with_recent_progress_type
    (data_types : list data_type) : option (list data_type) :=
  let progress_data_types :=
    sort_by_code (List.filter is_progress data_types) in
  let data_types_for_frontend :=
    List.filter (fun dt => negb (is_progress dt)) data_types in
  match last progress_data_types with
  | Some dt => Some (data_types_for_frontend ++ [(snd dt, "progress")])
  | None => None
  end.

Definition progress_codes (data_types : list data_type) : list string :=
  List.map snd (List.filter is_progress data_types).

Definition non_progress (data_types : list data_type) : list data_type :=
  List.filter (fun dt => negb (is_progress dt)) data_types.

(** *** Properties of the sort *)

Lemma insert_by_code_In x y l :
  In y (insert_by_code x l) <-> y = x \/ In y l.
Proof.
  induction l as [|z l IH]; simpl.
  - intuition.
  - destruct (String.leb (snd x) (snd z)); simpl; [intuition|].
    rewrite IH. intuition.
Qed.

Lemma sort_by_code_In y l : In y (sort_by_code l) <-> In y l.
Proof.
  induction l as [|x l IH]; simpl; [tauto|].
  rewrite insert_by_code_In, IH. intuition.
Qed.

Lemma insert_by_code_not_nil x l : insert_by_code x l <> [].
Proof. destruct l; simpl; [|destruct (String.leb _ _)]; discriminate. Qed.

Definition code_le (a b : data_type) : Prop :=
  String.leb (snd a) (snd b) = true.

Lemma insert_by_code_sorted x l :
  StronglySorted code_le l -> StronglySorted code_le (insert_by_code x l).
Proof.
  induction 1 as [|y l Hs IH Hy]; simpl.
  - repeat constructor.
  - destruct (String.leb (snd x) (snd y)) eqn:Hxy.
    + constructor; [constructor; assumption|].
      constructor; [exact Hxy|].
      eapply Forall_impl; [exact Hy|].
      intros z Hz. unfold code_le in *.
      eapply StrOrder.leb_trans; eassumption.
    + constructor; [assumption|].
      apply Forall_forall. intros z Hz.
      apply list_elem_of_In, insert_by_code_In in Hz.
      destruct Hz as [->|Hz].
      * unfold code_le.
        destruct (String.leb_total (snd x) (snd y)); congruence.
      * rewrite Forall_forall in Hy. apply Hy. now apply list_elem_of_In.
Qed.

Lemma sort_by_code_sorted l : StronglySorted code_le (sort_by_code l).
Proof.
  induction l as [|x l IH]; simpl; [constructor|].
  now apply insert_by_code_sorted.
Qed.

Lemma last_In {A} (l : list A) (z : A) : last l = Some z -> In z l.
Proof.
  induction l as [|x [|y l] IH]; simpl; intros H.
  - discriminate.
  - left. congruence.
  - right. apply IH. exact H.
Qed.

Lemma last_sorted_upper l z :
  StronglySorted code_le l -> last l = Some z ->
  Forall (fun dt => code_le dt z) l.
Proof.
  induction 1 as [|x l Hs IH Hx]; intros Hl; [constructor|].
  destruct l as [|y l].
  - simpl in Hl. injection Hl as ->. constructor; [|constructor].
    apply StrOrder.leb_refl.
  - change (last (x :: y :: l)) with (last (y :: l)) in Hl.
    constructor; [|now apply IH].
    rewrite Forall_forall in Hx. apply Hx.
    apply list_elem_of_In. now apply last_In.
Qed.

Lemma last_sort_by_code_None l : last (sort_by_code l) = None -> l = [].
Proof.
  destruct l as [|x l]; [reflexivity|]. simpl. intros H.
  apply last_None in H. now apply insert_by_code_not_nil in H.
Qed.

(** *** The helper on inputs with and without a progress type *)

(** C10.  When some data type has a code starting with "progress", the
    helper returns the non-progress data types unchanged and in input
    order, followed by the single pair made of the greatest progress code
    (in lexicographic order) and the label "progress".  When no data type
    has such a code, indexing the last element has no value: the helper
    raises instead of returning. *)
Theorem C10_recent_progress_type (data_types : list data_type) :
  (progress_codes data_types <> [] ->
   exists m : string,
     _get_data_types_with_recent_progress_type data_types
       = Some (non_progress data_types ++ [(m, "progress")])
     /\ In m (progress_codes data_types)
     /\ Forall (fun c => String.leb c m = true) (progress_codes data_types))
  /\ (progress_codes data_types = [] ->
      _get_data_types_with_recent_progress_type data_types = None).
Proof.
  unfold _get_data_types_with_recent_progress_type, progress_codes, non_progress.
  set (ps := List.filter is_progress data_types).
  split.
  - intros Hne.
    destruct (last (sort_by_code ps)) as [dt|] eqn:Hlast.
    + exists (snd dt). split; [reflexivity|].
      pose proof (last_sorted_upper _ _ (sort_by_code_sorted ps) Hlast) as Hup.
      split.
      * apply in_map. apply sort_by_code_In. now apply last_In.
      * apply Forall_forall. intros c Hc.
        apply list_elem_of_In, in_map_iff in Hc.
        destruct Hc as (d & <- & Hd).
        rewrite Forall_forall in Hup. apply Hup.
        apply list_elem_of_In. now apply sort_by_code_In.
    + apply last_sort_by_code_None in Hlast. rewrite Hlast in Hne.
      now contradiction Hne.
  - intros Hnil. apply map_eq_nil in Hnil. now rewrite Hnil.
Qed.

Definition sample_data_types : list data_type :=
  [ ("catalog", "catalog");
    ("progress_v2", "progress_v2");
    ("engagement", "engagement");
    ("progress_v3", "progress_v3");
    ("progress", "progress") ].

Lemma C10_recent_progress_type_witness :
  exists m : string,
    _get_data_types_with_recent_progress_type sample_data_types
      = Some (non_progress sample_data_types ++ [(m, "progress")])
    /\ In m (progress_codes sample_data_types)
    /\ Forall (fun c => String.leb c m = true) (progress_codes sample_data_types).
Proof.
  apply (proj1 (C10_recent_progress_type sample_data_types)).
  vm_compute. discriminate.
Defined.

Example recent_progress_sample :
  _get_data_types_with_recent_progress_type sample_data_types
    = Some [ ("catalog", "catalog"); ("engagement", "engagement");
             ("progress_v3", "progress") ].
Proof. reflexivity. Qed.

Example recent_progress_no_progress :
  _get_data_types_with_recent_progress_type [("catalog", "catalog")] = None.
Proof. reflexivity. Qed.

(** *** EnterpriseCustomerReportTypesView.get

    The choices of the reporting-configuration model are the model's
    fields that have a non-empty [choices]; [MANUAL_REPORTS] is a constant
    of that model.  [None] stands for the [IndexError] that the helper
    above raises. *)

Fixpoint contains (sub s : string) : bool :=
  String.prefix sub s
  || match s with
     | EmptyString => false
     | String _ s' => contains sub s'
     end.

Record Field : Type := {
  field_name : string;
  field_choices : option (list data_type);
}.

Record EnterpriseCustomer : Type := { slug : string }.

Inductive Body : Type :=
| Detail (detail : string)
| Choices (choices : gmap string (list data_type)).

Record Response : Type := { status : Z; data : Body }.

Section Get.

Variable MANUAL_REPORTS : list string.
Variable get_enterprise_customer : string -> option EnterpriseCustomer.
Variable get_fields : list Field.

Definition _get_data_types_for_non_pearson_customers
    (data_types : list data_type) : list data_type :=
  fold_left
    (fun reduced_data_types dt =>
       if existsb (String.eqb (snd dt)) MANUAL_REPORTS then reduced_data_types
       else reduced_data_types ++ [dt])
    data_types [].

Definition field_choice_table : gmap string (list data_type) :=
  fold_left
    (fun choices field =>
       match field_choices field with
       | Some (c :: cs) => <[ field_name field := c :: cs ]> choices
       | _ => choices
       end)
    get_fields ∅.

Definition get (enterprise_uuid : string) : option Response :=
  match get_enterprise_customer enterprise_uuid with
  | None =>
      Some {| status := Http.HTTP_404_NOT_FOUND;
              data := Detail "Could not find the enterprise customer." |}
  | Some enterprise_customer =>
      let choices := field_choice_table in
      match _get_data_types_with_recent_progress_type
              (default [] (choices !! "data_type")) with
      | None => None
      | Some data_types_for_frontend =>
          Some {| status := Http.HTTP_200_OK;
                  data := Choices
                    (<[ "data_type" :=
                          if negb (contains "pearson" (slug enterprise_customer))
                          then _get_data_types_for_non_pearson_customers
                                 data_types_for_frontend
                          else data_types_for_frontend ]> choices) |}
      end
  end.

Definition is_manual (dt : data_type) : bool :=
  existsb (String.eqb (snd dt)) MANUAL_REPORTS.

Lemma non_pearson_is_filter (data_types : list data_type) :
  _get_data_types_for_non_pearson_customers data_types
  = List.filter (fun dt => negb (is_manual dt)) data_types.
Proof.
  unfold _get_data_types_for_non_pearson_customers.
  assert (Hgen : forall l acc,
             fold_left
               (fun reduced dt =>
                  if existsb (String.eqb (snd dt)) MANUAL_REPORTS then reduced
                  else reduced ++ [dt]) l acc
             = acc ++ List.filter (fun dt => negb (is_manual dt)) l).
  { induction l as [|dt l IH]; intros acc; simpl; [now rewrite app_nil_r|].
    rewrite IH. unfold is_manual at 2.
    destruct (existsb (String.eqb (snd dt)) MANUAL_REPORTS); simpl;
      [reflexivity | now rewrite <- app_assoc]. }
  apply (Hgen data_types []).
Qed.

Lemma recent_progress_some (data_types : list data_type) :
  progress_codes data_types <> [] ->
  exists m : string,
    _get_data_types_with_recent_progress_type data_types
      = Some (non_progress data_types ++ [(m, "progress")])
    /\ In m (progress_codes data_types)
    /\ Forall (fun c => String.leb c m = true) (progress_codes data_types).
Proof.
  unfold _get_data_types_with_recent_progress_type, progress_codes, non_progress.
  set (ps := List.filter is_progress data_types). intros Hne.
  destruct (last (sort_by_code ps)) as [dt|] eqn:Hlast.
  - exists (snd dt). split; [reflexivity|].
    pose proof (last_sorted_upper _ _ (sort_by_code_sorted ps) Hlast) as Hup.
    split.
    + apply in_map. apply sort_by_code_In. now apply last_In.
    + apply Forall_forall. intros c Hc.
      apply list_elem_of_In, in_map_iff in Hc.
      destruct Hc as (d & <- & Hd).
      rewrite Forall_forall in Hup. apply Hup.
      apply list_elem_of_In. now apply sort_by_code_In.
  - apply last_sort_by_code_None in Hlast. rewrite Hlast in Hne.
    now contradiction Hne.
Qed.

(** X15.  For a customer that exists, the report-types view answers from
    the [data_type] choices of the reporting configuration.  When none of
    them is a progress type (in particular when the model has no
    [data_type] choices) the view raises.  Otherwise it answers 200 with
    every other field's choices unchanged and, under [data_type], the
    types that are not progress types in their order followed by the
    pair of the greatest progress code and "progress"; for a customer
    whose slug does not contain "pearson" the types whose second
    component is a manual report are taken out of that list, and for a
    customer whose slug contains "pearson" nothing is taken out. *)
Theorem report_types_for_customer
    (enterprise_uuid : string) (customer : EnterpriseCustomer) :
  get_enterprise_customer enterprise_uuid = Some customer ->
  let data_types := default [] (field_choice_table !! "data_type") in
  (progress_codes data_types = [] -> get enterprise_uuid = None)
  /\ (progress_codes data_types <> [] ->
      exists (m : string) (shown : list data_type),
        get enterprise_uuid
        = Some {| status := Http.HTTP_200_OK;
                  data := Choices (<[ "data_type" := shown ]> field_choice_table) |}
        /\ In m (progress_codes data_types)
        /\ Forall (fun c => String.leb c m = true) (progress_codes data_types)
        /\ shown
           = (if contains "pearson" (slug customer)
              then non_progress data_types ++ [(m, "progress")]
              else List.filter (fun dt => negb (is_manual dt))
                     (non_progress data_types ++ [(m, "progress")]))
        /\ (forall field : string,
              field <> "data_type" ->
              <[ "data_type" := shown ]> field_choice_table !! field
              = field_choice_table !! field)).
Proof.
  intros Hc. cbv zeta. unfold get. rewrite Hc. cbv zeta. split.
  - intros Hnil. unfold progress_codes in Hnil. apply map_eq_nil in Hnil.
    unfold _get_data_types_with_recent_progress_type. now rewrite Hnil.
  - intros Hne. destruct (recent_progress_some _ Hne) as (m & -> & Hin & Hmax).
    exists m. eexists. split; [reflexivity|]. split; [exact Hin|].
    split; [exact Hmax|]. split.
    + destruct (contains "pearson" (slug customer)); cbn [negb];
        [reflexivity | apply non_pearson_is_filter].
    + intros field Hfield. now apply lookup_insert_ne.
Qed.

End Get.

(** A reporting configuration with three fields, one of them without
    choices, and a Pearson-only report type. *)
Definition sample_fields : list Field :=
  [ {| field_name := "delivery_method";
       field_choices := Some [("email", "email"); ("sftp", "sftp")] |};
    {| field_name := "email"; field_choices := None |};
    {| field_name := "data_type";
       field_choices :=
         Some (("pearson_grade", "pearson_grade") :: sample_data_types) |} ].

Definition sample_customers (enterprise_uuid : string)
  : option EnterpriseCustomer :=
  if String.eqb enterprise_uuid "uuid-1" then Some {| slug := "acme" |}
  else if String.eqb enterprise_uuid "uuid-2" then Some {| slug := "my-pearson-vue" |}
  else None.

Lemma report_types_for_customer_witness :
  exists (m : string) (shown : list data_type),
    get ["pearson_grade"] sample_customers sample_fields "uuid-1"
    = Some {| status := Http.HTTP_200_OK;
              data := Choices
                (<[ "data_type" := shown ]> (field_choice_table sample_fields)) |}
    /\ In m (progress_codes
               (default [] (field_choice_table sample_fields !! "data_type")))
    /\ shown = [ ("catalog", "catalog"); ("engagement", "engagement");
                 (m, "progress") ].
Proof.
  destruct (report_types_for_customer ["pearson_grade"] sample_customers
              sample_fields "uuid-1" {| slug := "acme" |} eq_refl)
    as [_ Hsome].
  destruct Hsome as (m & shown & Hget & Hin & _ & Hshown & _).
  - vm_compute. discriminate.
  - exists m, shown. split; [exact Hget|]. split; [exact Hin|].
    rewrite Hshown. reflexivity.
Defined.

End ReportTypes.

(** ** A state monad for view code

    A view runs against a world (database rows, the platform behind the
    collaborators, the trace of calls made so far) and returns a value
    together with the world it leaves behind. *)

Module Prog.

Definition M (W A : Type) : Type := W -> A * W.

Definition ret {W A} (a : A) : M W A := fun w => (a, w).

Definition bind {W A B} (c : M W A) (k : A -> M W B) : M W B :=
  fun w => let '(a, w') := c w in k a w'.

Definition get {W} : M W W := fun w => (w, w).

Definition put {W} (w : W) : M W unit := fun _ => (tt, w).

Declare Scope prog_scope.
Delimit Scope prog_scope with prog.

Notation "x <- c ;; k" := (bind c (fun x => k))
  (at level 100, c at next level, right associativity) : prog_scope.
Notation "c ;; k" := (bind c (fun _ => k))
  (at level 100, right associativity) : prog_scope.

(** [for x in l: acc = body(acc, x)] *)
Fixpoint for_each {W A S} (body : S -> A -> M W S) (l : list A) (acc : S) : M W S :=
  match l with
  | [] => ret acc
  | x :: l' => bind (body acc x) (for_each body l')
  end.

End Prog.

(** ** EnterpriseCustomerViewSet.enroll_learners_in_courses *)

Module BulkEnroll.

Import Prog.
Local Open Scope prog_scope.

(** User objects are identified by their primary key. *)
Definition User : Type := Z.

(** An entry of [enrollments_info] names its learner by user id or by
    email ("each dictionary must contain a user email (or user_id)"). An
    entry that has a ['user_id'] key may carry an ['email'] key as well;
    an entry without ['user_id'] has an ['email']. *)
Inductive Identity : Type :=
| ByUserId (user_id : Z) (email : option string)
| ByEmail (email : string).

Record EnrollmentInfo : Type := {
  identity : Identity;
  course_run_key : string;
  subsidy_ref : string;               (* license_uuid or transaction_id *)
  course_mode : option string;        (* set by the view *)
}.

(** [info.get('user_id')] and [info.get('email')] *)
Definition info_user_id (info : EnrollmentInfo) : option Z :=
  match identity info with
  | ByUserId u _ => Some u
  | ByEmail _ => None
  end.

Definition info_email (info : EnrollmentInfo) : option string :=
  match identity info with
  | ByUserId _ e => e
  | ByEmail e => Some e
  end.

(** [info['email'] = email] *)
Definition set_email (email : string) (info : EnrollmentInfo) : EnrollmentInfo :=
  {| identity :=
       match identity info with
       | ByUserId u _ => ByUserId u (Some email)
       | ByEmail _ => ByEmail email
       end;
     course_run_key := course_run_key info;
     subsidy_ref := subsidy_ref info;
     course_mode := course_mode info |}.

Definition set_course_mode (mode : option string) (info : EnrollmentInfo)
  : EnrollmentInfo :=
  {| identity := identity info;
     course_run_key := course_run_key info;
     subsidy_ref := subsidy_ref info;
     course_mode := mode |}.

(** An element of [results['successes']] or [results['pending']] as the
    enrollment collaborator returns it: the view reads the keys
    ['email'], ['course_run_key'], ['created'], ['activation_link'] and
    pops ['user']. *)
Record EnrollmentResult : Type := {
  res_email : string;
  res_course_run_key : string;
  res_created : bool;
  res_activation_link : option string;
  res_user : User;
}.

(** The same element once ['user'] has been popped, as it is returned. *)
Record SerializedResult : Type := {
  out_email : string;
  out_course_run_key : string;
  out_created : bool;
  out_activation_link : option string;
}.

Definition pop_user (r : EnrollmentResult) : SerializedResult :=
  {| out_email := res_email r;
     out_course_run_key := res_course_run_key r;
     out_created := res_created r;
     out_activation_link := res_activation_link r |}.

(** The dictionary returned by [enroll_subsidy_users_in_courses]; the
    view only tests [results['failures']] for emptiness, so its element
    type [F] is left open. *)
Record Results (F : Type) : Type := {
  successes : list EnrollmentResult;
  pending : list EnrollmentResult;
  failures : list F;
}.
Arguments successes {F} _.
Arguments pending {F} _.
Arguments failures {F} _.

(** The response body: [results] with the users popped and the two
    optional keys. *)
Record Body (F : Type) : Type := {
  body_successes : list SerializedResult;
  body_pending : list SerializedResult;
  body_failures : list F;
  invalid_user_ids : option (list Z);
  invalid_email_addresses : option (list string);
}.
Arguments body_successes {F} _.
Arguments body_pending {F} _.
Arguments body_failures {F} _.
Arguments invalid_user_ids {F} _.
Arguments invalid_email_addresses {F} _.

Record Response (F : Type) : Type := {
  status : Z;
  data : Body F;
}.
Arguments status {F} _.
Arguments data {F} _.

(** Calls that leave the view. *)
Inductive Call : Type :=
| CallValidateEmail (email : string)
| CallLinkUser (email : string)
| CallEnroll (enrollments_info : list EnrollmentInfo) (discount : Z)
| CallTrackEnrollment (request_user : User) (course_run : string)
| CallNotify (course_id : string) (users : gset User)
    (activation_links : gmap string string).

(** The validated request data. *)
Record Request : Type := {
  request_user : User;
  enrollments_info : list EnrollmentInfo;  (* 'licenses_info' or 'enrollments_info' *)
  discount : option Z;
  notify : bool;
}.

(** Keys of a dictionary built by a comprehension over [l]: each key
    once, in order of first occurrence. *)
Definition dict_keys (l : list string) : list string :=
  fold_left
    (fun acc k => if existsb (String.eqb k) acc then acc else acc ++ [k])
    l [].

(** [x in l] for lists of user ids and of emails; [None] (a missing key)
    is in neither. *)
Definition id_in (x : option Z) (l : list Z) : bool :=
  match x with
  | Some u => existsb (Z.eqb u) l
  | None => false
  end.

Definition email_in (x : option string) (l : list string) : bool :=
  match x with
  | Some e => existsb (String.eqb e) l
  | None => false
  end.

Definition nonempty {A} (l : list A) : bool :=
  match l with [] => false | _ :: _ => true end.

Section View.

Context {Platform F : Type}.

(** Collaborators.  [user_email_by_id] is
    [User.objects.filter(id=...).first()] followed by [.email];
    [validate_email_to_link] answers [false] when it raises
    [ValidationError]; [link_user] answers [false] when it raises
    [LinkUserToEnterpriseError]. *)
Variable user_email_by_id : Z -> Platform -> option string.
Variable get_best_mode_from_course_key : string -> Platform -> string.
Variable validate_email_to_link : string -> Platform -> bool.
Variable link_user : string -> Platform -> bool * Platform.
Variable enroll_subsidy_users_in_courses :
  list EnrollmentInfo -> Z -> Platform -> Results F * Platform.

(** [for email in emails] walks a Python set: every member once, in an
    order that the hashes of the members and the way the set was filled
    decide.  [set_iteration] is that order for the set of a run, whatever
    it is: nothing below depends on which one it is.  The two loops over
    [emails] walk the same set, which nothing changes in between, and so
    in the same order. *)
Variable set_iteration :
  forall s : gset string, { l : list string | l ≡ₚ elements s }.

Definition iterate (s : gset string) : list string :=
  proj1_sig (set_iteration s).

Lemma iterate_In (s : gset string) (e : string) : In e (iterate s) <-> e ∈ s.
Proof.
  unfold iterate. destruct (set_iteration s) as [l Hl]. cbn [proj1_sig].
  rewrite <- list_elem_of_In, Hl. apply elem_of_elements.
Qed.

Lemma iterate_NoDup (s : gset string) : NoDup (iterate s).
Proof.
  unfold iterate. destruct (set_iteration s) as [l Hl]. cbn [proj1_sig].
  rewrite Hl. apply NoDup_elements.
Qed.

Record World : Type := {
  platform : Platform;
  trace : list Call;
}.

Definition log (c : Call) : M World unit :=
  fun w => (tt, {| platform := platform w; trace := trace w ++ [c] |}).

Definition query {A} (q : Platform -> A) : M World A :=
  fun w => (q (platform w), w).

Definition act {A} (f : Platform -> A * Platform) : M World A :=
  fun w => let '(a, p) := f (platform w) in
           (a, {| platform := p; trace := trace w |}).

(** Lines 352-354: the best mode of every distinct course run. *)
Definition course_runs_modes_of (infos : list EnrollmentInfo)
  : M World (list (string * string)) :=
  for_each
    (fun acc course_run =>
       mode <- query (get_best_mode_from_course_key course_run);;
       ret (acc ++ [(course_run, mode)]))
    (dict_keys (List.map course_run_key infos)) [].

Definition lookup_mode (modes : list (string * string)) (k : string)
  : option string :=
  match List.find (fun km => String.eqb (fst km) k) modes with
  | Some km => Some (snd km)
  | None => None
  end.

(** The state of the loop of lines 358-368. *)
Record Resolved : Type := {
  infos : list EnrollmentInfo;
  emails : gset string;
  user_id_errors : list Z;
}.

Definition resolve_info (modes : list (string * string))
    (acc : Resolved) (info : EnrollmentInfo) : M World Resolved :=
  let with_mode := set_course_mode (lookup_mode modes (course_run_key info)) in
  match identity info with
  | ByUserId uid _ =>
      user <- query (user_email_by_id uid);;
      match user with
      | Some user_email =>
          ret {| infos := infos acc ++ [with_mode (set_email user_email info)];
                 emails := emails acc ∪ {[ user_email ]};
                 user_id_errors := user_id_errors acc |}
      | None =>
          ret {| infos := infos acc ++ [with_mode info];
                 emails := emails acc;
                 user_id_errors := user_id_errors acc ++ [uid] |}
      end
  | ByEmail e =>
      ret {| infos := infos acc ++ [with_mode info];
             emails := emails acc ∪ {[ e ]};
             user_id_errors := user_id_errors acc |}
  end.

(** Lines 370-374. *)
Definition validate_step (email_errors : list string) (email : string)
  : M World (list string) :=
  log (CallValidateEmail email);;
  ok <- query (validate_email_to_link email);;
  ret (if ok : bool then email_errors else email_errors ++ [email]).

(** Lines 376-380. *)
Definition link_step (email_errors : list string) (email : string)
  : M World (list string) :=
  log (CallLinkUser email);;
  ok <- act (link_user email);;
  ret (if ok : bool then email_errors else email_errors ++ [email]).

(** Lines 383-386. *)
Definition keep_info (email_errors : list string) (user_id_errors : list Z)
    (info : EnrollmentInfo) : bool :=
  negb (email_in (info_email info) email_errors)
  && negb (id_in (info_user_id info) user_id_errors).

(** Lines 391-395. *)
Definition collect_activation_links (results : Results F)
  : gmap string string :=
  fold_left
    (fun links result =>
       match res_activation_link result with
       | Some link => <[ res_email result := link ]> links
       | None => links
       end)
    (successes results ++ pending results) ∅.

(** The users popped by one of the set comprehensions of lines 398-405. *)
Definition created_users (course_run : string) (l : list EnrollmentResult)
  : gset User :=
  list_to_set
    (List.map res_user
       (List.filter
          (fun result =>
             String.eqb (res_course_run_key result) course_run
             && res_created result)
          l)).

(** Lines 397-419, one course run. *)
Definition announce (req : Request) (results : Results F)
    (activation_links : gmap string string) (_ : unit) (course_run : string)
  : M World unit :=
  let pending_users := created_users course_run (pending results) in
  let existing_users := created_users course_run (successes results) in
  if decide (pending_users ∪ existing_users = ∅) then ret tt
  else
    log (CallTrackEnrollment (request_user req) course_run);;
    if notify req
    then log (CallNotify course_run (pending_users ∪ existing_users)
                activation_links)
    else ret tt.

(** Lines 442-446. *)
Definition response_status (results : Results F)
    (email_errors : list string) (user_id_errors : list Z) : Z :=
  if nonempty (failures results) || nonempty email_errors
     || nonempty user_id_errors
  then Http.HTTP_409_CONFLICT
  else if nonempty (pending results) then Http.HTTP_202_ACCEPTED
  else Http.HTTP_201_CREATED.

(** Lines 421-440: every result has lost its ['user'] key by now (popped
    either in [announce] or here), and the error lists are attached when
    they are not empty. *)
Definition response_body (results : Results F)
    (email_errors : list string) (user_id_errors : list Z) : Body F :=
  {| body_successes := List.map pop_user (successes results);
     body_pending := List.map pop_user (pending results);
     body_failures := failures results;
     invalid_user_ids :=
       if nonempty user_id_errors then Some user_id_errors else None;
     invalid_email_addresses :=
       if nonempty email_errors then Some email_errors else None |}.

(** The view, from line 343 on: the request has passed the serializer,
    which answers 400 itself for a request it refuses (one without
    enrollments among them), so that [enrollments_info] is not empty when
    the code below runs. *)
Definition enroll_learners_in_courses (req : Request) : M World (Response F) :=
  let discount := default 100 (discount req) in
  course_runs_modes <- course_runs_modes_of (enrollments_info req);;
  resolved <- for_each (resolve_info course_runs_modes) (enrollments_info req)
                {| infos := []; emails := ∅; user_id_errors := [] |};;
  email_errors <- for_each validate_step (iterate (emails resolved)) [];;
  email_errors <- for_each link_step (iterate (emails resolved)) email_errors;;
  let enrollments_info :=
    List.filter (keep_info email_errors (user_id_errors resolved))
      (infos resolved) in
  log (CallEnroll enrollments_info discount);;
  results <- act (enroll_subsidy_users_in_courses enrollments_info discount);;
  let activation_links := collect_activation_links results in
  for_each (announce req results activation_links)
    (List.map fst course_runs_modes) tt;;
  ret {| status := response_status results email_errors (user_id_errors resolved);
         data := response_body results email_errors (user_id_errors resolved) |}.

(** *** What each loop computes

    Each loop of the view is a fold; the lemmas below give its value, the
    platform it leaves and the calls it adds to the trace. *)

Definition modes_pure (p : Platform) (keys : list string)
    (acc : list (string * string)) : list (string * string) :=
  fold_left
    (fun acc k => acc ++ [(k, get_best_mode_from_course_key k p)]) keys acc.

Lemma course_runs_modes_run (keys : list string) :
  forall acc w,
    for_each
      (fun acc course_run =>
         mode <- query (get_best_mode_from_course_key course_run);;
         ret (acc ++ [(course_run, mode)])) keys acc w
    = (modes_pure (platform w) keys acc, w).
Proof.
  induction keys as [|k keys IH]; intros acc w; [reflexivity|].
  cbn [for_each]. unfold bind at 1. unfold bind at 1, query, ret.
  now rewrite IH.
Qed.

Definition resolve_pure (p : Platform) (modes : list (string * string))
    (acc : Resolved) (info : EnrollmentInfo) : Resolved :=
  fst (resolve_info modes acc info {| platform := p; trace := [] |}).

Lemma resolve_info_run modes acc info w :
  resolve_info modes acc info w = (resolve_pure (platform w) modes acc info, w).
Proof.
  unfold resolve_pure, resolve_info. destruct w as [p t]. simpl.
  destruct (identity info) as [uid e|e]; [|reflexivity].
  unfold bind, query, ret. simpl.
  now destruct (user_email_by_id uid p).
Qed.

Lemma for_each_resolve modes (l : list EnrollmentInfo) :
  forall acc w,
    for_each (resolve_info modes) l acc w
    = (fold_left (resolve_pure (platform w) modes) l acc, w).
Proof.
  induction l as [|info l IH]; intros acc w; [reflexivity|].
  cbn [for_each fold_left]. unfold bind.
  now rewrite resolve_info_run, IH.
Qed.

Definition invalid (p : Platform) (email : string) : bool :=
  negb (validate_email_to_link email p).

Lemma for_each_validate (es : list string) :
  forall acc w,
    for_each validate_step es acc w
    = (acc ++ List.filter (invalid (platform w)) es,
       {| platform := platform w;
          trace := trace w ++ List.map CallValidateEmail es |}).
Proof.
  induction es as [|e es IH]; intros acc [p t].
  - simpl. unfold ret. now rewrite !app_nil_r.
  - cbn [for_each]. unfold bind at 1.
    unfold validate_step at 1, bind, log, query, ret. cbn [platform trace].
    rewrite IH. cbn [platform trace List.filter List.map]. unfold invalid at 2.
    destruct (validate_email_to_link e p); cbn [negb];
      now rewrite <- !app_assoc.
Qed.

(** The link loop as a fold over the platform. *)
Fixpoint link_all (es : list string) (p : Platform) (acc : list string)
  : list string * Platform :=
  match es with
  | [] => (acc, p)
  | e :: es' =>
      let '(ok, p') := link_user e p in
      link_all es' p' (if ok : bool then acc else acc ++ [e])
  end.

Lemma for_each_link (es : list string) :
  forall acc w,
    for_each link_step es acc w
    = (fst (link_all es (platform w) acc),
       {| platform := snd (link_all es (platform w) acc);
          trace := trace w ++ List.map CallLinkUser es |}).
Proof.
  induction es as [|e es IH]; intros acc [p t].
  - simpl. unfold ret. now rewrite app_nil_r.
  - cbn [for_each]. unfold bind at 1.
    unfold link_step at 1, bind, log, act, ret. cbn [platform trace].
    cbn [link_all]. destruct (link_user e p) as [ok p'].
    rewrite IH. cbn [platform trace List.map].
    now rewrite <- !app_assoc.
Qed.

Lemma link_all_extends (es : list string) :
  forall p acc, exists extra,
    fst (link_all es p acc) = acc ++ extra /\ incl extra es.
Proof.
  induction es as [|e es IH]; intros p acc.
  - exists []. simpl. split; [now rewrite app_nil_r | easy].
  - simpl. destruct (link_user e p) as [[|] p'].
    + destruct (IH p' acc) as (extra & -> & Hin).
      exists extra. split; [reflexivity|]. now apply incl_tl.
    + destruct (IH p' (acc ++ [e])) as (extra & -> & Hin).
      exists (e :: extra). split; [now rewrite <- app_assoc|].
      intros x [->|Hx]; [now left | right; now apply Hin].
Qed.

Definition announce_calls (req : Request) (results : Results F)
    (activation_links : gmap string string) (course_run : string)
  : list Call :=
  let users :=
    created_users course_run (pending results)
    ∪ created_users course_run (successes results) in
  if decide (users = ∅) then []
  else CallTrackEnrollment (request_user req) course_run
       :: (if notify req then [CallNotify course_run users activation_links]
           else []).

Lemma for_each_announce req results links (runs : list string) :
  forall w,
    for_each (announce req results links) runs tt w
    = (tt, {| platform := platform w;
              trace := trace w ++ flat_map (announce_calls req results links) runs |}).
Proof.
  induction runs as [|r runs IH]; intros [p t].
  - simpl. unfold ret. now rewrite app_nil_r.
  - cbn [for_each flat_map]. unfold bind at 1.
    unfold announce at 1, announce_calls at 1. cbv zeta.
    destruct (decide (_ = ∅)) as [E|E].
    + unfold ret. rewrite IH. reflexivity.
    + unfold bind, log, ret. cbn [platform trace].
      destruct (notify req); rewrite IH; cbn [platform trace];
        now rewrite <- !app_assoc.
Qed.

(** *** The view as a function of the request and the platform *)

Definition the_modes (req : Request) (p : Platform) : list (string * string) :=
  modes_pure p (dict_keys (List.map course_run_key (enrollments_info req))) [].

Definition the_resolved (req : Request) (p : Platform) : Resolved :=
  fold_left (resolve_pure p (the_modes req p)) (enrollments_info req)
    {| infos := []; emails := ∅; user_id_errors := [] |}.

Definition the_emails (req : Request) (p : Platform) : list string :=
  iterate (emails (the_resolved req p)).

Definition the_email_errors (req : Request) (p : Platform) : list string :=
  fst (link_all (the_emails req p) p
         ([] ++ List.filter (invalid p) (the_emails req p))).

Definition the_linked_platform (req : Request) (p : Platform) : Platform :=
  snd (link_all (the_emails req p) p
         ([] ++ List.filter (invalid p) (the_emails req p))).

Definition the_enrollments_info (req : Request) (p : Platform)
  : list EnrollmentInfo :=
  List.filter
    (keep_info (the_email_errors req p) (user_id_errors (the_resolved req p)))
    (infos (the_resolved req p)).

Definition the_results (req : Request) (p : Platform) : Results F :=
  fst (enroll_subsidy_users_in_courses (the_enrollments_info req p)
         (default 100 (discount req)) (the_linked_platform req p)).

Definition run (req : Request) (p : Platform) : Response F * World :=
  enroll_learners_in_courses req {| platform := p; trace := [] |}.

Lemma run_spec (req : Request) (p : Platform) :
  run req p =
    ({| status := response_status (the_results req p) (the_email_errors req p)
                    (user_id_errors (the_resolved req p));
        data := response_body (the_results req p) (the_email_errors req p)
                  (user_id_errors (the_resolved req p)) |},
     {| platform :=
          snd (enroll_subsidy_users_in_courses (the_enrollments_info req p)
                 (default 100 (discount req)) (the_linked_platform req p));
        trace :=
          List.map CallValidateEmail (the_emails req p)
          ++ List.map CallLinkUser (the_emails req p)
          ++ [CallEnroll (the_enrollments_info req p) (default 100 (discount req))]
          ++ flat_map
               (announce_calls req (the_results req p)
                  (collect_activation_links (the_results req p)))
               (List.map fst (the_modes req p)) |}).
Proof.
  unfold run, enroll_learners_in_courses.
  unfold bind at 1. unfold course_runs_modes_of.
  rewrite course_runs_modes_run. cbn [platform].
  fold (the_modes req p).
  unfold bind at 1. rewrite for_each_resolve. cbn [platform].
  fold (the_resolved req p).
  unfold bind at 1. rewrite for_each_validate. cbn [platform trace].
  fold (the_emails req p).
  unfold bind at 1. rewrite for_each_link. cbn [platform trace].
  fold (the_email_errors req p). fold (the_linked_platform req p).
  fold (the_enrollments_info req p).
  unfold bind at 1. unfold log at 1. cbn [platform trace].
  unfold bind at 1. unfold act at 1. cbn [platform trace].
  unfold the_results.
  destruct (enroll_subsidy_users_in_courses _ _ _) as [results p'].
  cbn [fst snd].
  unfold bind at 1. rewrite for_each_announce. cbn [platform trace].
  unfold ret. f_equal. f_equal.
  now rewrite <- !app_assoc.
Qed.

(** *** The resolution loop *)

(** The email a request resolves to: the account's email for a request by
    user id, the given email otherwise. *)
Definition resolved_email (p : Platform) (info : EnrollmentInfo) : option string :=
  match identity info with
  | ByUserId uid _ => user_email_by_id uid p
  | ByEmail e => Some e
  end.

Definition unresolvable (p : Platform) (info : EnrollmentInfo) (uid : Z) : Prop :=
  exists e, identity info = ByUserId uid e /\ user_email_by_id uid p = None.

Lemma resolve_pure_emails p modes acc info (e : string) :
  e ∈ emails (resolve_pure p modes acc info)
  <-> e ∈ emails acc \/ resolved_email p info = Some e.
Proof.
  unfold resolve_pure, resolve_info, resolved_email.
  destruct (identity info) as [uid e0|e0]; simpl.
  - unfold bind, query, ret. simpl.
    destruct (user_email_by_id uid p) as [ue|]; simpl.
    + rewrite elem_of_union, elem_of_singleton.
      split; intros [H|H]; auto; [right|right]; congruence.
    + split; [auto | intros [H|H]; [exact H | discriminate]].
  - rewrite elem_of_union, elem_of_singleton.
    split; intros [H|H]; auto; [right|right]; congruence.
Qed.

Lemma resolve_pure_user_id_errors p modes acc info (u : Z) :
  In u (user_id_errors (resolve_pure p modes acc info))
  <-> In u (user_id_errors acc) \/ unresolvable p info u.
Proof.
  unfold resolve_pure, resolve_info, unresolvable.
  destruct (identity info) as [uid e0|e0]; simpl.
  - unfold bind, query, ret. simpl.
    destruct (user_email_by_id uid p) as [ue|] eqn:Hu; simpl.
    + split; [auto|]. intros [H|(e & H & H')]; [exact H|].
      injection H as -> _. congruence.
    + rewrite in_app_iff. simpl. split.
      * intros [H|[<-|[]]]; [now left|]. right. now exists e0.
      * intros [H|(e & H & _)]; [now left|]. right. left. congruence.
  - split; [auto|]. intros [H|(e & H & _)]; [exact H | discriminate].
Qed.

Lemma fold_resolve_emails p modes (l : list EnrollmentInfo) (e : string) :
  forall acc,
    e ∈ emails (fold_left (resolve_pure p modes) l acc)
    <-> e ∈ emails acc \/ exists info, In info l /\ resolved_email p info = Some e.
Proof.
  induction l as [|info l IH]; intros acc; simpl.
  - split; [auto | intros [H|(i & [] & _)]; exact H].
  - rewrite IH, resolve_pure_emails. split.
    + intros [[H|H]|(i & Hi & He)]; eauto.
    + intros [H|(i & [<-|Hi] & He)]; eauto.
Qed.

Lemma fold_resolve_user_id_errors p modes (l : list EnrollmentInfo) (u : Z) :
  forall acc,
    In u (user_id_errors (fold_left (resolve_pure p modes) l acc))
    <-> In u (user_id_errors acc) \/ exists info, In info l /\ unresolvable p info u.
Proof.
  induction l as [|info l IH]; intros acc; simpl.
  - split; [auto | intros [H|(i & [] & _)]; exact H].
  - rewrite IH, resolve_pure_user_id_errors. split.
    + intros [[H|H]|(i & Hi & He)]; eauto.
    + intros [H|(i & [<-|Hi] & He)]; eauto.
Qed.

(** *** Membership tests *)


Lemma id_in_true (u : Z) (l : list Z) :
  id_in (Some u) l = true <-> In u l.
Proof.
  simpl. rewrite existsb_exists. split.
  - intros (x & Hx & Heq). apply Z.eqb_eq in Heq. now subst.
  - intros H. exists u. split; [exact H | apply Z.eqb_refl].
Qed.


(** *** Reading the trace *)

Definition enroll_calls (t : list Call) : list (list EnrollmentInfo * Z) :=
  flat_map (fun c => match c with CallEnroll i d => [(i, d)] | _ => [] end) t.

Definition link_calls (t : list Call) : list string :=
  flat_map (fun c => match c with CallLinkUser e => [e] | _ => [] end) t.

Lemma enroll_calls_validate es : enroll_calls (List.map CallValidateEmail es) = [].
Proof. induction es; simpl; auto. Qed.

Lemma enroll_calls_link es : enroll_calls (List.map CallLinkUser es) = [].
Proof. induction es; simpl; auto. Qed.

Lemma link_calls_validate es : link_calls (List.map CallValidateEmail es) = [].
Proof. induction es; simpl; auto. Qed.

Lemma link_calls_link es : link_calls (List.map CallLinkUser es) = es.
Proof. induction es; simpl; congruence. Qed.

Lemma announce_calls_quiet req results links runs :
  enroll_calls (flat_map (announce_calls req results links) runs) = []
  /\ link_calls (flat_map (announce_calls req results links) runs) = [].
Proof.
  induction runs as [|r runs [IH1 IH2]]; simpl; [auto|].
  unfold enroll_calls, link_calls in *. rewrite !flat_map_app, IH1, IH2.
  unfold announce_calls. destruct (decide _); simpl; [auto|].
  destruct (notify req); simpl; auto.
Qed.

Lemma run_enroll_calls req p :
  enroll_calls (trace (snd (run req p)))
  = [(the_enrollments_info req p, default 100 (discount req))].
Proof.
  rewrite run_spec. cbn [snd trace]. unfold enroll_calls.
  rewrite !flat_map_app.
  fold (enroll_calls (List.map CallValidateEmail (the_emails req p))).
  fold (enroll_calls (List.map CallLinkUser (the_emails req p))).
  rewrite enroll_calls_validate, enroll_calls_link.
  pose proof (announce_calls_quiet req (the_results req p)
                (collect_activation_links (the_results req p))
                (List.map fst (the_modes req p))) as [H _].
  unfold enroll_calls in H. rewrite H. reflexivity.
Qed.

Lemma run_link_calls req p :
  link_calls (trace (snd (run req p))) = the_emails req p.
Proof.
  rewrite run_spec. cbn [snd trace]. unfold link_calls.
  rewrite !flat_map_app.
  fold (link_calls (List.map CallValidateEmail (the_emails req p))).
  fold (link_calls (List.map CallLinkUser (the_emails req p))).
  rewrite link_calls_validate, link_calls_link.
  pose proof (announce_calls_quiet req (the_results req p)
                (collect_activation_links (the_results req p))
                (List.map fst (the_modes req p))) as [_ H].
  unfold link_calls in H. rewrite H. simpl. now rewrite app_nil_r.
Qed.

Lemma invalid_email_reported req p (e : string) :
  In e (the_emails req p) -> validate_email_to_link e p = false ->
  In e (the_email_errors req p).
Proof.
  intros He Hv. unfold the_email_errors.
  destruct (link_all_extends (the_emails req p) p
              ([] ++ List.filter (invalid p) (the_emails req p)))
    as (extra & -> & _).
  apply in_app_iff. left. simpl. apply filter_In. split; [exact He|].
  unfold invalid. now rewrite Hv.
Qed.

(** *** Status of the response *)



(** *** Invalid identities *)




(** *** Linking *)

(** Every collected email is passed to [link_user], in the order of the
    validation loop, whether or not its validation failed. *)
Lemma every_email_is_linked (req : Request) (p : Platform) :
  link_calls (trace (snd (run req p))) = the_emails req p.
Proof. apply run_link_calls. Qed.

Lemma invalid_email_is_linked (req : Request) (p : Platform) (e : string) :
  In e (the_emails req p) -> validate_email_to_link e p = false ->
  In e (link_calls (trace (snd (run req p))))
  /\ In e (default [] (invalid_email_addresses (data (fst (run req p))))).
Proof.
  intros He Hv. rewrite run_link_calls. split; [exact He|].
  rewrite run_spec. cbn [fst data]. unfold response_body.
  cbn [invalid_email_addresses].
  pose proof (invalid_email_reported req p e He Hv) as Hin.
  destruct (the_email_errors req p); [destruct Hin | exact Hin].
Qed.

(** *** Further properties of the bulk-enroll view *)

(** A request as the resolution loop leaves it: the account's email is
    written into a request by user id, and every request gets the mode
    looked up for its course run. *)
Definition resolved_info (p : Platform) (modes : list (string * string))
    (info : EnrollmentInfo) : EnrollmentInfo :=
  set_course_mode (lookup_mode modes (course_run_key info))
    match identity info with
    | ByUserId uid _ =>
        match user_email_by_id uid p with
        | Some user_email => set_email user_email info
        | None => info
        end
    | ByEmail _ => info
    end.

Lemma resolve_pure_infos p modes acc info :
  infos (resolve_pure p modes acc info) = infos acc ++ [resolved_info p modes info].
Proof.
  unfold resolve_pure, resolve_info, resolved_info.
  destruct (identity info) as [uid e0|e0]; [|reflexivity].
  unfold bind, query, ret. simpl.
  destruct (user_email_by_id uid p); reflexivity.
Qed.

Lemma fold_resolve_infos p modes (l : list EnrollmentInfo) :
  forall acc,
    infos (fold_left (resolve_pure p modes) l acc)
    = infos acc ++ List.map (resolved_info p modes) l.
Proof.
  induction l as [|info l IH]; intros acc; simpl.
  - now rewrite app_nil_r.
  - now rewrite IH, resolve_pure_infos, <- app_assoc.
Qed.

Lemma resolved_info_course_run_key p modes info :
  course_run_key (resolved_info p modes info) = course_run_key info.
Proof.
  unfold resolved_info. cbn. destruct (identity info) as [uid e0|e0];
    [destruct (user_email_by_id uid p)|]; reflexivity.
Qed.

Lemma resolved_info_user_id p modes info :
  info_user_id (resolved_info p modes info) = info_user_id info.
Proof.
  unfold resolved_info, info_user_id. cbn.
  destruct (identity info) as [uid e0|e0] eqn:Hi;
    [destruct (user_email_by_id uid p)|]; cbn; rewrite ?Hi; reflexivity.
Qed.

Lemma resolved_info_email p modes info e :
  resolved_email p info = Some e ->
  info_email (resolved_info p modes info) = Some e.
Proof.
  unfold resolved_info, resolved_email, info_email. cbn.
  destruct (identity info) as [uid e0|e0] eqn:Hi.
  - intros ->. cbn. now rewrite Hi.
  - now rewrite Hi.
Qed.

Lemma existsb_eqb_In (k : string) (l : list string) :
  existsb (String.eqb k) l = true <-> In k l.
Proof.
  rewrite existsb_exists. split.
  - intros (x & Hx & Heq). apply String.eqb_eq in Heq. now subst.
  - intros H. exists k. split; [exact H | apply String.eqb_refl].
Qed.

Lemma dict_keys_fold_spec (l : list string) :
  forall acc,
    NoDup acc ->
    let keys :=
      fold_left
        (fun acc k => if existsb (String.eqb k) acc then acc else acc ++ [k]) l acc in
    NoDup keys /\ forall k, In k keys <-> In k acc \/ In k l.
Proof.
  induction l as [|k l IH]; intros acc Hnd; cbn [fold_left].
  - split; [exact Hnd | intros k; simpl; tauto].
  - destruct (existsb (String.eqb k) acc) eqn:Hk.
    + apply existsb_eqb_In in Hk. destruct (IH acc Hnd) as [Hn Hin].
      split; [exact Hn|]. intros k'. rewrite Hin. simpl.
      split; [tauto | intros [H|[<-|H]]; auto].
    + assert (Hnk : ~ In k acc).
      { intros H. apply existsb_eqb_In in H. congruence. }
      assert (Hnd' : NoDup (acc ++ [k])).
      { apply NoDup_app. split; [exact Hnd|]. split.
        - intros x Hx Hx'. apply list_elem_of_In in Hx, Hx'.
          destruct Hx' as [<-|[]]. now apply Hnk.
        - apply NoDup_singleton. }
      destruct (IH (acc ++ [k]) Hnd') as [Hn Hin].
      split; [exact Hn|]. intros k'. rewrite Hin, in_app_iff. simpl. tauto.
Qed.

Lemma dict_keys_spec (l : list string) :
  NoDup (dict_keys l) /\ forall k, In k (dict_keys l) <-> In k l.
Proof.
  destruct (dict_keys_fold_spec l [] (NoDup_nil_2)) as [Hn Hin].
  split; [exact Hn|]. intros k. unfold dict_keys. rewrite Hin. simpl. tauto.
Qed.

Lemma modes_pure_map p (keys : list string) :
  forall acc,
    modes_pure p keys acc
    = acc ++ List.map (fun k => (k, get_best_mode_from_course_key k p)) keys.
Proof.
  unfold modes_pure. induction keys as [|k keys IH]; intros acc; simpl.
  - now rewrite app_nil_r.
  - now rewrite IH, <- app_assoc.
Qed.

Lemma the_modes_keys req p :
  List.map fst (the_modes req p)
  = dict_keys (List.map course_run_key (enrollments_info req)).
Proof.
  unfold the_modes. rewrite modes_pure_map. simpl. rewrite List.map_map. simpl.
  apply List.map_id.
Qed.

Lemma lookup_mode_map p (keys : list string) (k : string) :
  In k keys ->
  lookup_mode (List.map (fun k => (k, get_best_mode_from_course_key k p)) keys) k
  = Some (get_best_mode_from_course_key k p).
Proof.
  unfold lookup_mode. induction keys as [|k' keys IH]; intros Hin; [destruct Hin|].
  simpl. destruct (String.eqb k' k) eqn:Hk.
  - apply String.eqb_eq in Hk. now subst.
  - destruct Hin as [->|Hin]; [now rewrite String.eqb_refl in Hk|]. now apply IH.
Qed.

Lemma the_modes_lookup req p info :
  In info (enrollments_info req) ->
  lookup_mode (the_modes req p) (course_run_key info)
  = Some (get_best_mode_from_course_key (course_run_key info) p).
Proof.
  intros Hin. unfold the_modes. rewrite modes_pure_map. simpl.
  apply lookup_mode_map. apply dict_keys_spec. now apply in_map.
Qed.

Lemma the_resolved_infos req p :
  infos (the_resolved req p)
  = List.map (resolved_info p (the_modes req p)) (enrollments_info req).
Proof. unfold the_resolved. now rewrite fold_resolve_infos. Qed.

Lemma filter_sublist {A} (f : A -> bool) (l : list A) :
  sublist (List.filter f l) l.
Proof.
  induction l as [|x l IH]; simpl; [constructor|].
  destruct (f x); [now apply sublist_skip | now apply sublist_cons].
Qed.

(** X1.  Every request handed to the enrollment collaborator carries the
    course mode that [get_best_mode_from_course_key] gives for its course
    run, and stems from a request of the input with the same course run,
    subsidy reference and user id; requests reach the collaborator in the
    order of the input. *)
Theorem kept_requests_carry_best_mode (req : Request) (p : Platform) :
  (forall kept, In kept (the_enrollments_info req p) ->
     course_mode kept
     = Some (get_best_mode_from_course_key (course_run_key kept) p)
     /\ exists info,
          In info (enrollments_info req)
          /\ course_run_key kept = course_run_key info
          /\ subsidy_ref kept = subsidy_ref info
          /\ info_user_id kept = info_user_id info)
  /\ sublist (the_enrollments_info req p)
       (List.map (resolved_info p (the_modes req p)) (enrollments_info req))
  /\ enroll_calls (trace (snd (run req p)))
     = [(the_enrollments_info req p, default 100 (discount req))].
Proof.
  split; [|split].
  - intros kept Hk. unfold the_enrollments_info in Hk.
    apply filter_In in Hk. destruct Hk as [Hk _].
    rewrite the_resolved_infos in Hk. apply in_map_iff in Hk.
    destruct Hk as (info & <- & Hin). split.
    + rewrite resolved_info_course_run_key. unfold resolved_info.
      cbn [set_course_mode course_mode]. now apply the_modes_lookup.
    + exists info. split; [exact Hin|].
      rewrite resolved_info_course_run_key, resolved_info_user_id.
      split; [reflexivity|]. split; [|reflexivity].
      unfold resolved_info. cbn.
      destruct (identity info); [destruct (user_email_by_id _ _)|]; reflexivity.
  - unfold the_enrollments_info. rewrite the_resolved_infos.
    apply filter_sublist.
  - apply run_enroll_calls.
Qed.

Lemma filter_nil_of_invalid {A} (f : A -> bool) (l : list A) :
  (forall x, In x l -> f x = false) -> List.filter f l = [].
Proof.
  induction l as [|x l IH]; intros H; simpl; [reflexivity|].
  rewrite (H x (or_introl eq_refl)). apply IH. intros y Hy. apply H. now right.
Qed.

(** The link loop when linking never fails. *)
Lemma link_all_ok (es : list string) :
  (forall e p', fst (link_user e p') = true) ->
  forall p acc, fst (link_all es p acc) = acc.
Proof.
  intros Hok. induction es as [|e es IH]; intros p acc; [reflexivity|].
  simpl. pose proof (Hok e p) as He.
  destruct (link_user e p) as [ok p']. cbn in He. subst ok. apply IH.
Qed.

Lemma filter_all_true {A} (f : A -> bool) (l : list A) :
  (forall x, In x l -> f x = true) -> List.filter f l = l.
Proof.
  induction l as [|x l IH]; intros H; simpl; [reflexivity|].
  rewrite (H x (or_introl eq_refl)). f_equal. apply IH.
  intros y Hy. apply H. now right.
Qed.

(** X2.  When every user id of the request has an account, every
    collected email passes validation and linking never fails, nothing is
    dropped: the enrollment collaborator receives one request per input
    request, in input order, each with the email its identity resolves
    to, and the response has neither [invalid_user_ids] nor
    [invalid_email_addresses]. *)
Theorem valid_requests_all_kept (req : Request) (p : Platform) :
  (forall info, In info (enrollments_info req) ->
                exists e, resolved_email p info = Some e
                          /\ validate_email_to_link e p = true) ->
  (forall e p', fst (link_user e p') = true) ->
  the_enrollments_info req p
    = List.map (resolved_info p (the_modes req p)) (enrollments_info req)
  /\ List.map info_email (the_enrollments_info req p)
     = List.map (resolved_email p) (enrollments_info req)
  /\ invalid_user_ids (data (fst (run req p))) = None
  /\ invalid_email_addresses (data (fst (run req p))) = None.
Proof.
  intros Hvalid Hlink.
  assert (Hids : user_id_errors (the_resolved req p) = []).
  { destruct (user_id_errors (the_resolved req p)) as [|u l] eqn:Hu; [reflexivity|].
    assert (Hin : In u (user_id_errors (the_resolved req p)))
      by (rewrite Hu; now left).
    unfold the_resolved in Hin. apply fold_resolve_user_id_errors in Hin.
    destruct Hin as [[]|(info & Hin & e0 & Hi & Hnone)].
    destruct (Hvalid info Hin) as (e & He & _).
    unfold resolved_email in He. rewrite Hi in He. congruence. }
  assert (Hemails : the_email_errors req p = []).
  { unfold the_email_errors. rewrite link_all_ok by exact Hlink. simpl.
    apply filter_nil_of_invalid. intros e He. unfold invalid.
    unfold the_emails in He. apply iterate_In in He.
    unfold the_resolved in He. apply fold_resolve_emails in He.
    destruct He as [He|(info & Hin & He)]; [now apply not_elem_of_empty in He|].
    destruct (Hvalid info Hin) as (e' & He' & Hv).
    rewrite He in He'. injection He' as <-. now rewrite Hv. }
  assert (Hkept : the_enrollments_info req p
                  = List.map (resolved_info p (the_modes req p)) (enrollments_info req)).
  { unfold the_enrollments_info. rewrite Hids, Hemails, the_resolved_infos.
    apply filter_all_true. intros info _. unfold keep_info.
    destruct (info_email info), (info_user_id info); reflexivity. }
  split; [exact Hkept|]. split.
  - rewrite Hkept, List.map_map. apply map_ext_in. intros info Hin.
    destruct (Hvalid info Hin) as (e & He & _). rewrite He.
    now apply resolved_info_email.
  - rewrite run_spec. cbn [fst data]. unfold response_body.
    cbn [invalid_user_ids invalid_email_addresses].
    now rewrite Hids, Hemails.
Qed.

Definition is_announcement (c : Call) : bool :=
  match c with
  | CallTrackEnrollment _ _ | CallNotify _ _ _ => true
  | _ => false
  end.

Lemma announce_calls_are_announcements req results links (runs : list string) :
  forallb is_announcement (flat_map (announce_calls req results links) runs) = true.
Proof.
  induction runs as [|r runs IH]; [reflexivity|].
  cbn [flat_map]. rewrite forallb_app, IH, andb_true_r.
  unfold announce_calls. destruct (decide _); [reflexivity|].
  destruct (notify req); reflexivity.
Qed.

Lemma the_emails_spec req p (e : string) :
  In e (the_emails req p)
  <-> exists info, In info (enrollments_info req) /\ resolved_email p info = Some e.
Proof.
  unfold the_emails, the_resolved.
  rewrite iterate_In, fold_resolve_emails.
  cbn [emails]. split.
  - intros [H|H]; [now apply not_elem_of_empty in H | exact H].
  - intros H. now right.
Qed.

(** X3.  The view makes its calls in phases: one validation per distinct
    email that the requests resolve to, then one [link_user] per distinct
    email, then exactly one call to the enrollment collaborator, then only
    tracking and notification calls.  The emails are walked in the
    iteration order of the set that holds them, whatever that order is,
    and the link loop walks them in the order the validation loop did.
    An email carried by several requests is validated and linked once. *)
Theorem calls_in_order (req : Request) (p : Platform) :
  (exists announcements,
     trace (snd (run req p))
     = List.map CallValidateEmail (the_emails req p)
       ++ List.map CallLinkUser (the_emails req p)
       ++ CallEnroll (the_enrollments_info req p) (default 100 (discount req))
          :: announcements
     /\ forallb is_announcement announcements = true)
  /\ NoDup (the_emails req p)
  /\ (forall e, In e (the_emails req p)
                <-> exists info, In info (enrollments_info req)
                                 /\ resolved_email p info = Some e).
Proof.
  split; [|split].
  - rewrite run_spec. cbn [snd trace]. eexists. split; [reflexivity|].
    apply announce_calls_are_announcements.
  - unfold the_emails. apply iterate_NoDup.
  - apply the_emails_spec.
Qed.

(** Reading the announcements off the trace. *)
Definition tracked (t : list Call) : list (User * string) :=
  flat_map
    (fun c => match c with CallTrackEnrollment u r => [(u, r)] | _ => [] end) t.

Definition notified (t : list Call) : list string :=
  flat_map (fun c => match c with CallNotify r _ _ => [r] | _ => [] end) t.

(** Some result of the course run, pending or not, was newly created. *)
Definition newly_created (results : Results F) (course_run : string) : bool :=
  existsb
    (fun r => String.eqb (res_course_run_key r) course_run && res_created r)
    (pending results ++ successes results).

Lemma created_users_empty (course_run : string) (l : list EnrollmentResult) :
  created_users course_run l = ∅
  <-> existsb
        (fun r => String.eqb (res_course_run_key r) course_run && res_created r) l
      = false.
Proof.
  unfold created_users. induction l as [|r l IH]; cbn [List.filter existsb].
  - split; reflexivity.
  - destruct (String.eqb (res_course_run_key r) course_run && res_created r);
      cbn [orb List.map]; [|exact IH].
    split; [|discriminate]. intros H. exfalso.
    cbn [list_to_set foldr] in H.
    apply (not_elem_of_empty (C := gset User) (res_user r)).
    rewrite <- H. apply elem_of_union_l. now apply elem_of_singleton.
Qed.

Lemma no_users_iff (results : Results F) (course_run : string) :
  created_users course_run (pending results)
  ∪ created_users course_run (successes results) = ∅
  <-> newly_created results course_run = false.
Proof.
  unfold newly_created. rewrite existsb_app, orb_false_iff.
  rewrite <- !created_users_empty. split.
  - intros H. apply empty_union_L in H. exact H.
  - intros [H1 H2]. rewrite H1, H2. apply union_empty_l_L.
Qed.

Lemma tracked_announcements req results links (runs : list string) :
  tracked (flat_map (announce_calls req results links) runs)
  = List.map (fun r => (request_user req, r))
      (List.filter (newly_created results) runs)
  /\ notified (flat_map (announce_calls req results links) runs)
     = if notify req then List.filter (newly_created results) runs else [].
Proof.
  induction runs as [|r runs [IH1 IH2]].
  - split; [reflexivity | now destruct (notify req)].
  - cbn [flat_map List.filter]. unfold tracked, notified in *.
    rewrite !flat_map_app, IH1, IH2. unfold announce_calls.
    destruct (decide _) as [E|E].
    + apply no_users_iff in E. rewrite E. split; reflexivity.
    + assert (Hc : newly_created results r = true).
      { destruct (newly_created results r) eqn:Hn; [reflexivity|].
        apply no_users_iff in Hn. contradiction. }
      rewrite Hc. destruct (notify req); split; reflexivity.
Qed.

Lemma tracked_quiet (es : list string) :
  tracked (List.map CallValidateEmail es) = []
  /\ tracked (List.map CallLinkUser es) = []
  /\ notified (List.map CallValidateEmail es) = []
  /\ notified (List.map CallLinkUser es) = [].
Proof. induction es as [|e es (H1 & H2 & H3 & H4)]; simpl; auto. Qed.

(** X4.  Tracking is per course run, not per learner: the view emits one
    tracking event, in the name of the requesting user, for each distinct
    course run of the request that has a newly created success or pending
    result, in order of first occurrence, and none for the other course
    runs; it notifies the learners of exactly those course runs when the
    request asks for notification, and nobody otherwise. *)
Theorem tracking_once_per_course_run (req : Request) (p : Platform) :
  let announced :=
    List.filter (newly_created (the_results req p))
      (dict_keys (List.map course_run_key (enrollments_info req))) in
  tracked (trace (snd (run req p)))
  = List.map (fun r => (request_user req, r)) announced
  /\ notified (trace (snd (run req p))) = (if notify req then announced else [])
  /\ NoDup announced
  /\ forall r, In r announced ->
       exists info, In info (enrollments_info req) /\ course_run_key info = r.
Proof.
  cbv zeta. rewrite run_spec. cbn [snd trace]. rewrite the_modes_keys.
  destruct (tracked_quiet (the_emails req p)) as (Hv & Hl & Hv' & Hl').
  destruct (tracked_announcements req (the_results req p)
              (collect_activation_links (the_results req p))
              (List.map fst (the_modes req p))) as [Ht Hn].
  rewrite the_modes_keys in Ht, Hn.
  destruct (dict_keys_spec (List.map course_run_key (enrollments_info req)))
    as [Hnd Hin].
  split; [|split; [|split]].
  - unfold tracked in *. rewrite !flat_map_app, Hv, Hl. cbn [flat_map app].
    exact Ht.
  - unfold notified in *. rewrite !flat_map_app, Hv', Hl'. cbn [flat_map app].
    exact Hn.
  - clear -Hnd. induction Hnd as [|k l Hk Hnd IH]; cbn [List.filter];
      [constructor|].
    destruct (newly_created _ k); [|exact IH].
    constructor; [|exact IH]. intros Hin. apply Hk.
    apply list_elem_of_In in Hin. apply filter_In in Hin.
    apply list_elem_of_In. tauto.
  - intros r Hr. apply filter_In in Hr. destruct Hr as [Hr _].
    apply Hin, in_map_iff in Hr. destruct Hr as (info & Hk & Hi). eauto.
Qed.



End View.

(** *** A small customer

    The platform state is the list of emails linked to the customer so
    far.  User 1 exists; the customer accepts addresses at example.com;
    linking always succeeds; every request that reaches the enrollment
    collaborator is enrolled. *)

Definition demo_user_email_by_id (uid : Z) (_ : list string) : option string :=
  if uid =? 1 then Some "ada@example.com" else None.

Definition demo_best_mode (_ : string) (_ : list string) : string := "verified".

Definition demo_validate (email : string) (_ : list string) : bool :=
  match String.index 0 "@example.com" email with
  | Some _ => true
  | None => false
  end.

Definition demo_link_user (email : string) (linked : list string)
  : bool * list string :=
  (true, linked ++ [email]).

Definition demo_enroll (infos : list EnrollmentInfo) (_ : Z)
    (linked : list string) : Results string * list string :=
  ({| successes :=
        flat_map
          (fun info =>
             match info_email info with
             | Some e =>
                 [{| res_email := e;
                     res_course_run_key := course_run_key info;
                     res_created := true;
                     res_activation_link := None;
                     res_user := 1 |}]
             | None => []
             end) infos;
      pending := [];
      failures := [] |},
   linked).

(** The set of emails is walked from its last member to its first. *)
Definition demo_set_iteration (s : gset string)
  : { l : list string | l ≡ₚ elements s } :=
  exist _ (reverse (elements s)) (reverse_Permutation (elements s)).

Definition demo_run (req : Request) : Response string * World :=
  run demo_user_email_by_id demo_best_mode demo_validate demo_link_user
    demo_enroll demo_set_iteration req [].

Definition demo_info (who : Identity) : EnrollmentInfo :=
  {| identity := who;
     course_run_key := "course-v1:edX+DemoX+Demo_Course";
     subsidy_ref := "5b77bdbade7b4fcb838f8111b68e18ae";
     course_mode := None |}.

(** User 1 by id, a new learner by email, an unknown user id and an email
    outside the customer's domain. *)
Definition mixed_request : Request :=
  {| request_user := 7;
     enrollments_info :=
       [ demo_info (ByUserId 1 None);
         demo_info (ByEmail "bob@example.com");
         demo_info (ByUserId 404 None);
         demo_info (ByEmail "eve@elsewhere.org") ];
     discount := None;
     notify := true |}.

(** One request, by an email outside the customer's domain. *)
Definition rejected_email_request : Request :=
  {| request_user := 7;
     enrollments_info := [ demo_info (ByEmail "eve@elsewhere.org") ];
     discount := None;
     notify := false |}.


Example mixed_request_response :
  fst (demo_run mixed_request) =
    {| status := 409;
       data :=
         {| body_successes :=
              [ {| out_email := "ada@example.com";
                   out_course_run_key := "course-v1:edX+DemoX+Demo_Course";
                   out_created := true; out_activation_link := None |};
                {| out_email := "bob@example.com";
                   out_course_run_key := "course-v1:edX+DemoX+Demo_Course";
                   out_created := true; out_activation_link := None |} ];
            body_pending := [];
            body_failures := [];
            invalid_user_ids := Some [404];
            invalid_email_addresses := Some ["eve@elsewhere.org"] |} |}.
Proof. vm_compute. reflexivity. Qed.



(** C8 (the code at an email that fails validation).  A single request by
    an email outside the customer's domain: validation rejects the email
    and it is reported in [invalid_email_addresses], yet the loop that
    follows still calls [link_user] with it, and the customer ends up
    with the email linked; only the enrollment is skipped. *)
Theorem C8_link_user_called_for_rejected_email :
  demo_validate "eve@elsewhere.org" [] = false
  /\ invalid_email_addresses (data (fst (demo_run rejected_email_request)))
       = Some ["eve@elsewhere.org"]
  /\ trace (snd (demo_run rejected_email_request))
       = [ CallValidateEmail "eve@elsewhere.org";
           CallLinkUser "eve@elsewhere.org";
           CallEnroll [] 100 ]
  /\ platform (snd (demo_run rejected_email_request)) = ["eve@elsewhere.org"].
Proof. vm_compute. repeat split. Qed.

(** User 1 by id and a new learner by email, both acceptable. *)
Definition valid_request : Request :=
  {| request_user := 7;
     enrollments_info :=
       [ demo_info (ByUserId 1 None); demo_info (ByEmail "bob@example.com") ];
     discount := Some 50;
     notify := false |}.

Lemma valid_request_is_valid :
  forall info, In info (enrollments_info valid_request) ->
    exists e, resolved_email demo_user_email_by_id [] info = Some e
              /\ demo_validate e [] = true.
Proof.
  intros info [<-|[<-|[]]]; eexists; split; reflexivity.
Qed.

Lemma valid_requests_all_kept_witness :
  List.map info_email
    (the_enrollments_info demo_user_email_by_id demo_best_mode demo_validate
       demo_link_user demo_set_iteration valid_request [])
  = [Some "ada@example.com"; Some "bob@example.com"]
  /\ invalid_user_ids (data (fst (demo_run valid_request))) = None
  /\ invalid_email_addresses (data (fst (demo_run valid_request))) = None.
Proof.
  destruct (valid_requests_all_kept demo_user_email_by_id demo_best_mode
              demo_validate demo_link_user demo_enroll demo_set_iteration
              valid_request []
              valid_request_is_valid (fun _ _ => eq_refl))
    as (_ & Hemails & Hids & Hbad).
  split; [exact Hemails|]. split; [exact Hids | exact Hbad].
Defined.


End BulkEnroll.

(** ** Rows, exceptions and the world of the fulfillment views *)

Module Models.

Record EnterpriseCustomerUser : Type := {
  user_id : Z;
  username : string;
  enterprise_customer : string;        (* uuid of the enterprise customer *)
}.

Record EnterpriseCourseEnrollment : Type := {
  enterprise_customer_user : EnterpriseCustomerUser;
  course_id : string;
}.

Record EnterpriseCourseEntitlement : Type := {
  entitlement_customer_user : EnterpriseCustomerUser;
  course_uuid : string;
}.

(** A row of [LearnerCreditEnterpriseCourseEnrollment] or of
    [LicensedEnterpriseCourseEnrollment].  Both relations are nullable.
    [source_ref] is the transaction id, respectively the license uuid. *)
Record SubsidyFulfillment : Type := {
  uuid : string;
  source_ref : string;
  is_revoked : bool;
  enterprise_course_enrollment : option EnterpriseCourseEnrollment;
  enterprise_course_entitlement : option EnterpriseCourseEntitlement;
}.

Inductive Table : Type := LearnerCredit | Licensed.

(** Calls that leave the views: the enrollment API, with the exception
    text when the call raised, and [revoke()] on a fulfillment row. *)
Inductive Call : Type :=
| UpdateEnrollment (username course_id : string) (mode : option string)
    (is_active : option bool) (raised : option string)
| Revoke (table : Table) (fulfillment_uuid : string).

Inductive Exn : Type :=
| ValidationError (detail : string)
| Http404
| MultipleObjectsReturned
| AttributeError
| UnboundLocalError
| KeyError (key : string)
| EnrollmentModificationException (msg : string)
| TypeError
| ValueError
| DjangoValidationError.

Record World (Platform : Type) : Type := {
  learner_credit_rows : list SubsidyFulfillment;
  licensed_rows : list SubsidyFulfillment;
  customer_users : list EnterpriseCustomerUser;
  platform : Platform;
  trace : list Call;
}.
Arguments learner_credit_rows {Platform} _.
Arguments licensed_rows {Platform} _.
Arguments customer_users {Platform} _.
Arguments platform {Platform} _.
Arguments trace {Platform} _.

Definition rows {Platform} (t : Table) (w : World Platform)
  : list SubsidyFulfillment :=
  match t with
  | LearnerCredit => learner_credit_rows w
  | Licensed => licensed_rows w
  end.

Definition set_revoked (f : SubsidyFulfillment) : SubsidyFulfillment :=
  {| uuid := uuid f;
     source_ref := source_ref f;
     is_revoked := true;
     enterprise_course_enrollment := enterprise_course_enrollment f;
     enterprise_course_entitlement := enterprise_course_entitlement f |}.

Definition revoke_row (u : string) (f : SubsidyFulfillment) : SubsidyFulfillment :=
  if String.eqb (uuid f) u then set_revoked f else f.

(** Modelled from the spec: [revoke()] of a subsidy fulfillment, whose
    code is in the models module.  The spec gives a fulfillment an
    [is_revoked] flag and a [revoke()] operation; here [revoke()] sets the
    flag of the row and saves it. *)
Definition revoke {Platform} (t : Table) (u : string) (w : World Platform)
  : World Platform :=
  {| learner_credit_rows :=
       match t with
       | LearnerCredit => List.map (revoke_row u) (learner_credit_rows w)
       | Licensed => learner_credit_rows w
       end;
     licensed_rows :=
       match t with
       | LearnerCredit => licensed_rows w
       | Licensed => List.map (revoke_row u) (licensed_rows w)
       end;
     customer_users := customer_users w;
     platform := platform w;
     trace := trace w ++ [Revoke t u] |}.

Definition with_platform {Platform} (p : Platform) (extra : list Call)
    (w : World Platform) : World Platform :=
  {| learner_credit_rows := learner_credit_rows w;
     licensed_rows := licensed_rows w;
     customer_users := customer_users w;
     platform := p;
     trace := trace w ++ extra |}.

(** The rows whose uuid column holds the UUID [u]. *)
Definition rows_with_uuid (u : string) (l : list SubsidyFulfillment)
  : list SubsidyFulfillment :=
  List.filter (fun f => String.eqb (uuid f) u) l.

(** [queryset.filter(uuid=value)].  A uuid column holds a UUID, written
    here in its canonical text.  The value of a lookup is a string of the
    request, which the ORM turns into a UUID before it compares
    ([UUIDField.to_python], the parameter [to_uuid]): upper case, missing
    hyphens, braces and the urn prefix are accepted, so that several
    strings denote one UUID, and a string that denotes none raises
    django's [ValidationError], which is not the [ValidationError] of the
    REST framework that the views catch. *)
Definition filter_uuid (to_uuid : string -> option string) (value : string)
    (l : list SubsidyFulfillment) : Exn + list SubsidyFulfillment :=
  match to_uuid value with
  | Some u => inr (rows_with_uuid u l)
  | None => inl DjangoValidationError
  end.

(** [get_object_or_404(queryset, uuid=value)] *)
Definition get_object_or_404 (to_uuid : string -> option string)
    (queryset : list SubsidyFulfillment) (value : string)
  : Exn + SubsidyFulfillment :=
  match filter_uuid to_uuid value queryset with
  | inl e => inl e
  | inr [] => inl Http404
  | inr [f] => inr f
  | inr (_ :: _ :: _) => inl MultipleObjectsReturned
  end.

End Models.

(** ** Views that may raise *)

Module Exc.

Import Models.

(** A computation leaves a world behind whether it returns or raises. *)
Definition ME (W A : Type) : Type := W -> (Exn + A) * W.

Definition ret {W A} (a : A) : ME W A := fun w => (inr a, w).

Definition raise {W A} (e : Exn) : ME W A := fun w => (inl e, w).

Definition bind {W A B} (c : ME W A) (k : A -> ME W B) : ME W B :=
  fun w =>
    match c w with
    | (inr a, w') => k a w'
    | (inl e, w') => (inl e, w')
    end.

Definition lift {W A} (r : Exn + A) : ME W A := fun w => (r, w).

Definition reads {W A} (f : W -> A) : ME W A := fun w => (inr (f w), w).

Definition modify {W} (f : W -> W) : ME W unit := fun w => (inr tt, f w).

(** [try: c  except <handled> as exc: handler(exc)] *)
Definition try_except {W A} (c : ME W A) (handler : Exn -> option (ME W A))
  : ME W A :=
  fun w =>
    match c w with
    | (inr a, w') => (inr a, w')
    | (inl e, w') =>
        match handler e with
        | Some h => h w'
        | None => (inl e, w')
        end
    end.

Declare Scope exc_scope.
Delimit Scope exc_scope with exc.

Notation "x <- c ;; k" := (bind c (fun x => k))
  (at level 100, c at next level, right associativity) : exc_scope.
Notation "c ;; k" := (bind c (fun _ => k))
  (at level 100, right associativity) : exc_scope.

Fixpoint for_each {W A S} (body : S -> A -> ME W S) (l : list A) (acc : S)
  : ME W S :=
  match l with
  | [] => ret acc
  | x :: l' => bind (body acc x) (for_each body l')
  end.

End Exc.

(** ** EnterpriseSubsidyFulfillmentViewSet and
       LicensedEnterpriseCourseEnrollmentViewSet *)

Module SubsidyViews.

Import Models Exc.
Local Open Scope exc_scope.

Record Requester : Type := {
  requester_id : Z;
  is_staff : bool;
}.

(** A course overview is a dictionary; the views read its ['id']. *)
Record CourseOverview : Type := {
  overview_id : string;
}.

(** A row of [CourseEnrollment.history]. *)
Record HistoryRow : Type := {
  history_user_id : Z;
  history_course_id : string;
  history_date : Z;
}.

(** [EnrollmentTerminationStatus] *)
Inductive TerminationStatus : Type :=
| COURSE_COMPLETED
| MOVED_TO_AUDIT
| UNENROLLED
| UNENROLL_FAILED.

Definition status_message (s : TerminationStatus) : string :=
  match s with
  | COURSE_COMPLETED => "course already completed"
  | MOVED_TO_AUDIT => "moved to audit"
  | UNENROLLED => "unenrolled"
  | UNENROLL_FAILED => "unenroll_user_from_course returned false."
  end.

Definition is_course_completed (s : TerminationStatus) : bool :=
  match s with COURSE_COMPLETED => true | _ => false end.

(** [CourseMode.AUDIT] *)
Definition AUDIT : string := "audit".

Inductive Data : Type :=
| NoData
| Detail (detail : string)
| Message (msg : string)
| Serialized (serializer : Table) (fulfillment : SubsidyFulfillment)
| RevocationResults (results : list (string * (bool * string))).

Record Response : Type := {
  status : Z;
  data : Data;
}.

Record LicenseRevokeRequest : Type := {
  revoke_user_id : option Z;
  revoke_enterprise_id : option string;
}.

Record ExpirationRequest : Type := {
  expired_license_uuids : list string;
  ignore_enrollments_modified_after : option string;
}.

Definition nonempty {A} (l : list A) : bool :=
  match l with [] => false | _ :: _ => true end.

(** The customer a fulfillment is reached from, along each of the two
    relations the tenant filter follows. *)
Definition enrollment_customer (f : SubsidyFulfillment) : option string :=
  match enterprise_course_enrollment f with
  | Some ece => Some (enterprise_customer (enterprise_customer_user ece))
  | None => None
  end.

Definition entitlement_customer (f : SubsidyFulfillment) : option string :=
  match enterprise_course_entitlement f with
  | Some ent => Some (enterprise_customer (entitlement_customer_user ent))
  | None => None
  end.

(** Lines 642-647: the two [Q] objects joined by [|].  A lookup against
    [None] is an IS NULL test, satisfied by a row whose relation is
    empty. *)
Definition subsidy_fulfillment_filter (enterprise_customer_uuid : option string)
    (f : SubsidyFulfillment) : bool :=
  bool_decide (enrollment_customer f = enterprise_customer_uuid)
  || bool_decide (entitlement_customer f = enterprise_customer_uuid).

(** [d[k] = v] on a dictionary kept in insertion order. *)
Fixpoint dict_set {V} (k : string) (v : V) (d : list (string * V))
  : list (string * V) :=
  match d with
  | [] => [(k, v)]
  | (k', v') :: d' =>
      if String.eqb k' k then (k, v) :: d' else (k', v') :: dict_set k v d'
  end.

Fixpoint dict_get {V} (k : string) (d : list (string * V)) : option V :=
  match d with
  | [] => None
  | (k', v') :: d' => if String.eqb k' k then Some v' else dict_get k d'
  end.

(** [order_by('-history_date')] *)
Fixpoint insert_by_date (h : HistoryRow) (l : list HistoryRow) : list HistoryRow :=
  match l with
  | [] => [h]
  | h' :: l' =>
      if history_date h' <=? history_date h then h :: h' :: l'
      else h' :: insert_by_date h l'
  end.

Fixpoint order_by_date_desc (l : list HistoryRow) : list HistoryRow :=
  match l with
  | [] => []
  | h :: l' => insert_by_date h (order_by_date_desc l')
  end.

(** [f'{user_id}{course_id}'] *)
Definition history_key (user_id : Z) (course_id : string) : string :=
  (pretty user_id ++ course_id)%string.

Definition same_customer_user (a b : EnterpriseCustomerUser) : bool :=
  (user_id a =? user_id b)
  && String.eqb (enterprise_customer a) (enterprise_customer b).

Definition truthy_id (x : option Z) : bool :=
  match x with Some n => negb (n =? 0) | None => false end.

Definition truthy_str (x : option string) : bool :=
  match x with Some s => negb (String.eqb s "") | None => false end.

(** A [datetime] that a request gives: with a UTC offset (aware) or
    without one (naive), at the instant [t] (for a naive one, read as
    UTC).  The dates of the history table come from the database of a
    platform that runs with time zones on: they are aware, and stay
    integers. *)
Inductive Cutoff : Type :=
| Aware (t : Z)
| Naive (t : Z).

(** What [parse_datetime] does with a string: it returns [None] when the
    string is not well formatted, raises [ValueError] when it is well
    formatted but names no date, and returns the datetime otherwise. *)
Inductive Parsed : Type :=
| NotWellFormatted
| NoSuchDate
| Datetime (d : Cutoff).

(** [datetime >= datetime], for an aware left operand: comparing it with
    a naive datetime raises [TypeError]. *)
Definition aware_ge (t : Z) (d : Cutoff) : Exn + bool :=
  match d with
  | Aware t' => inr (t' <=? t)
  | Naive _ => inl TypeError
  end.

Section Views.

Context {Platform Certificate ProgressStatus : Type}.
Context `{EqDecision ProgressStatus}.

(** Collaborators.  [update_enrollment] answers [Some reason] when it
    raises an exception whose text is [reason]; [mode_for_course] answers
    whether the course has the mode; [get_certificate_for_user] answers
    [None] for a missing certificate; [parse_datetime] is django's;
    [to_uuid] is the ORM's reading of a string as a UUID, which answers
    the canonical text of the UUID, or [None] when the string denotes
    none. *)
Variable get_enterprise_customer_from_user_id : Z -> option string.
Variable update_enrollment :
  string -> string -> option string -> option bool -> Platform
  -> option string * Platform.
Variable get_certificate_for_user : string -> string -> Platform -> option Certificate.
Variable get_course_run_status :
  CourseOverview -> option Certificate -> EnterpriseCourseEnrollment -> Platform
  -> ProgressStatus.
Variable COMPLETED : ProgressStatus.
Variable mode_for_course : string -> string -> Platform -> bool.
Variable get_course_overviews : list (option string) -> Platform -> list CourseOverview.
Variable course_enrollment_history : Platform -> list HistoryRow.
Variable parse_datetime : string -> Parsed.
Variable to_uuid : string -> option string.

Abbreviation World := (Models.World Platform).

Definition call_update_enrollment (username course_id : string)
    (mode : option string) (is_active : option bool)
  : ME World (option string) :=
  fun w =>
    let '(raised, p) :=
      update_enrollment username course_id mode is_active (platform w) in
    (inr raised,
     with_platform p [UpdateEnrollment username course_id mode is_active raised] w).

(** *** EnterpriseSubsidyFulfillmentViewSet *)

Definition not_found_detail : string :=
  "No enrollment found for the given fulfillment source uuid.".

Definition get_subsidy_fulfillment_queryset (user : Requester)
    (fulfillment_source_uuid : string)
  : ME World (Table * list SubsidyFulfillment) :=
  let enterprise_customer_uuid :=
    get_enterprise_customer_from_user_id (requester_id user) in
  w <- reads (fun w => w);;
  learner_credit_enrollments <-
    lift (filter_uuid to_uuid fulfillment_source_uuid (learner_credit_rows w));;
  let learner_credit_enrollments :=
    if is_staff user then learner_credit_enrollments
    else List.filter (subsidy_fulfillment_filter enterprise_customer_uuid)
           learner_credit_enrollments in
  if nonempty learner_credit_enrollments
  then ret (LearnerCredit, learner_credit_enrollments)
  else
    licensed_enrollments <-
      lift (filter_uuid to_uuid fulfillment_source_uuid (licensed_rows w));;
    let licensed_enrollments :=
      if is_staff user then licensed_enrollments
      else List.filter (subsidy_fulfillment_filter enterprise_customer_uuid)
             licensed_enrollments in
    if nonempty licensed_enrollments
    then ret (Licensed, licensed_enrollments)
    else raise (ValidationError not_found_detail).

Definition get_subsidy_fulfillment_serializer_class
    (fulfillment_source_uuid : string) : ME World Table :=
  w <- reads (fun w => w);;
  learner_credit_enrollments <-
    lift (filter_uuid to_uuid fulfillment_source_uuid (learner_credit_rows w));;
  if nonempty learner_credit_enrollments
  then ret LearnerCredit
  else
    licensed_enrollments <-
      lift (filter_uuid to_uuid fulfillment_source_uuid (licensed_rows w));;
    if nonempty licensed_enrollments
    then ret Licensed
    else raise (ValidationError not_found_detail).

Definition on_validation_error {A} (handler : string -> ME World A)
    (e : Exn) : option (ME World A) :=
  match e with
  | ValidationError detail => Some (handler detail)
  | _ => None
  end.

Definition retrieve (user : Requester) (fulfillment_source_uuid : string)
  : ME World Response :=
  try_except
    (queryset <- get_subsidy_fulfillment_queryset user fulfillment_source_uuid;;
     fulfillment <-
       lift (get_object_or_404 to_uuid (snd queryset) fulfillment_source_uuid);;
     serializer_class <- get_subsidy_fulfillment_serializer_class fulfillment_source_uuid;;
     ret {| status := Http.HTTP_200_OK;
            data := Serialized serializer_class fulfillment |})
    (on_validation_error
       (fun detail => ret {| status := Http.HTTP_404_NOT_FOUND;
                             data := Detail detail |})).

Definition cancel_error_message (username course_id reason : string) : string :=
  ("Subsidized enrollment terminations error: unable to unenroll User "
   ++ username ++ " from Course " ++ course_id ++ " because: " ++ reason)%string.

Definition cancel_enrollment (user : Requester) (fulfillment_source_uuid : string)
  : ME World Response :=
  found <-
    try_except
      (queryset <- get_subsidy_fulfillment_queryset user fulfillment_source_uuid;;
       subsidy_fulfillment <-
         lift (get_object_or_404 to_uuid (snd queryset) fulfillment_source_uuid);;
       if is_revoked subsidy_fulfillment
       then ret (inl {| status := Http.HTTP_400_BAD_REQUEST;
                        data := Detail "Enrollment is already canceled." |})
       else ret (inr (fst queryset, subsidy_fulfillment)))
      (on_validation_error
         (fun detail => ret (inl {| status := Http.HTTP_404_NOT_FOUND;
                                    data := Detail detail |})));;
  match found with
  | inl response => ret response
  | inr (table, subsidy_fulfillment) =>
      match enterprise_course_enrollment subsidy_fulfillment with
      | None =>
          (* the handler formats [username], which was never bound *)
          raise UnboundLocalError
      | Some ece =>
          let username := username (enterprise_customer_user ece) in
          raised <- call_update_enrollment username (course_id ece) None (Some false);;
          match raised with
          | Some reason =>
              ret {| status := Http.HTTP_500_INTERNAL_SERVER_ERROR;
                     data := Message (cancel_error_message username
                                        (course_id ece) reason) |}
          | None =>
              modify (revoke table (uuid subsidy_fulfillment));;
              ret {| status := Http.HTTP_200_OK; data := NoData |}
          end
      end
  end.

(** *** LicensedEnterpriseCourseEnrollmentViewSet *)

Definition _has_user_completed_course_run
    (enterprise_enrollment : EnterpriseCourseEnrollment)
    (course_overview : CourseOverview) : ME World bool :=
  reads (fun w =>
    let certificate_info :=
      get_certificate_for_user
        (username (enterprise_customer_user enterprise_enrollment))
        (overview_id course_overview) (platform w) in
    let course_run_status :=
      get_course_run_status course_overview certificate_info
        enterprise_enrollment (platform w) in
    bool_decide (course_run_status = COMPLETED)).

Definition audit_failure_message (user enterprise course_id mode reason : string)
  : string :=
  ("Enrollment termination: unable to update LMS enrollment for User " ++ user
   ++ " and Enterprise " ++ enterprise ++ " in Course " ++ course_id
   ++ " to Course Mode " ++ mode ++ " because: " ++ reason)%string.

Definition unenroll_failure_message (user enterprise course_id reason : string)
  : string :=
  ("Enrollment termination: unable to unenroll User " ++ user
   ++ " in Enterprise " ++ enterprise ++ " from Course " ++ course_id
   ++ "  because: " ++ reason)%string.

(** [course_overview.get('id')] and
    [enterprise_enrollment.enterprise_customer_user] raise
    [AttributeError] on [None]. *)
Definition _terminate_enrollment
    (enterprise_enrollment : option EnterpriseCourseEnrollment)
    (course_overview : option CourseOverview) : ME World TerminationStatus :=
  match course_overview, enterprise_enrollment with
  | None, _ => raise AttributeError
  | Some _, None => raise AttributeError
  | Some course_overview, Some enterprise_enrollment =>
      let course_run_id := overview_id course_overview in
      let enterprise_customer_user := enterprise_customer_user enterprise_enrollment in
      let audit_mode := AUDIT in
      let enterprise_id := enterprise_customer enterprise_customer_user in
      completed <- _has_user_completed_course_run enterprise_enrollment course_overview;;
      if completed : bool then ret COURSE_COMPLETED
      else
        has_audit <- reads (fun w => mode_for_course course_run_id audit_mode (platform w));;
        if has_audit : bool then
          raised <- call_update_enrollment (username enterprise_customer_user)
                      course_run_id (Some audit_mode) None;;
          match raised with
          | None => ret MOVED_TO_AUDIT
          | Some reason =>
              raise (EnrollmentModificationException
                       (audit_failure_message (username enterprise_customer_user)
                          enterprise_id course_run_id audit_mode reason))
          end
        else
          raised <- call_update_enrollment (username enterprise_customer_user)
                      course_run_id None (Some false);;
          match raised with
          | None => ret UNENROLLED
          | Some reason =>
              raise (EnrollmentModificationException
                       (unenroll_failure_message (username enterprise_customer_user)
                          enterprise_id course_run_id reason))
          end
  end.

Definition on_enrollment_modification {A} (handler : string -> ME World A)
    (e : Exn) : option (ME World A) :=
  match e with
  | EnrollmentModificationException msg => Some (handler msg)
  | _ => None
  end.

(** [_course_enrollment_modified_at_by_user_and_course_id] *)
Definition first_date_per_key (histories : list HistoryRow) : gmap string Z :=
  fold_left
    (fun result history =>
       let key := history_key (history_user_id history) (history_course_id history) in
       match result !! key with
       | None => <[ key := history_date history ]> result
       | Some _ => result
       end)
    histories ∅.

Fixpoint all_enrollments (l : list SubsidyFulfillment)
  : option (list EnterpriseCourseEnrollment) :=
  match l with
  | [] => Some []
  | f :: l' =>
      match enterprise_course_enrollment f, all_enrollments l' with
      | Some ece, Some eces => Some (ece :: eces)
      | _, _ => None
      end
  end.

Definition _course_enrollment_modified_at_by_user_and_course_id
    (licensed_enrollments : list SubsidyFulfillment) : ME World (gmap string Z) :=
  match all_enrollments licensed_enrollments with
  | None => raise AttributeError
  | Some enterprise_course_enrollments =>
      let user_ids :=
        List.map (fun ece => user_id (enterprise_customer_user ece))
          enterprise_course_enrollments in
      let course_ids := List.map course_id enterprise_course_enrollments in
      histories <-
        reads (fun w =>
          order_by_date_desc
            (List.filter
               (fun h =>
                  existsb (Z.eqb (history_user_id h)) user_ids
                  && existsb (String.eqb (history_course_id h)) course_ids)
               (course_enrollment_history (platform w))));;
      ret (first_date_per_key histories)
  end.

(** [_validate_license_revoke_data] *)
Definition _validate_license_revoke_data (request_data : LicenseRevokeRequest)
  : option Response :=
  if negb (truthy_id (revoke_user_id request_data))
     || negb (truthy_str (revoke_enterprise_id request_data))
  then Some {| status := Http.HTTP_400_BAD_REQUEST;
               data := Message "user_id and enterprise_id must be provided." |}
  else None.

(** [get_object_or_404(models.EnterpriseCustomerUser, user_id=...,
    enterprise_customer=...)]: the customer is looked up by its uuid, so
    [enterprise_id] is read as a UUID. *)
Definition get_customer_user_or_404 (uid : Z) (enterprise_id : string)
  : ME World EnterpriseCustomerUser :=
  w <- reads (fun w => w);;
  match to_uuid enterprise_id with
  | None => raise DjangoValidationError
  | Some customer =>
      match List.filter
              (fun ecu => (user_id ecu =? uid)
                          && String.eqb (enterprise_customer ecu) customer)
              (customer_users w) with
      | [] => raise Http404
      | [ecu] => ret ecu
      | _ :: _ :: _ => raise MultipleObjectsReturned
      end
  end.

(** [_enrollments_by_course_for_licensed_user].  The dictionary maps a
    course id to an enterprise course enrollment; the licensed row is kept
    next to it, as the enrollment's [license] is that row (the relation is
    one-to-one).  [enrollments_for_user] selects the licensed rows whose
    enrollment belongs to the customer user. *)
Definition _enrollments_by_course_for_licensed_user
    (enterprise_customer_user : EnterpriseCustomerUser)
  : ME World (list (string * (EnterpriseCourseEnrollment * SubsidyFulfillment))) :=
  reads (fun w =>
    fold_left
      (fun d row =>
         match enterprise_course_enrollment row with
         | Some ece =>
             if same_customer_user (Models.enterprise_customer_user ece)
                  enterprise_customer_user
             then dict_set (course_id ece) (ece, row) d
             else d
         | None => d
         end)
      (licensed_rows w) []).

Record RevokeLoop : Type := {
  revocation_results : list (string * (bool * string));
  revoke_any_failures : bool;
}.

(** Lines 1027-1037, one course overview. *)
Definition license_revoke_item
    (enrollments_by_course_id :
       list (string * (EnterpriseCourseEnrollment * SubsidyFulfillment)))
    (acc : RevokeLoop) (course_overview : CourseOverview) : ME World RevokeLoop :=
  let course_id := overview_id course_overview in
  let found := dict_get course_id enrollments_by_course_id in
  let enterprise_enrollment := option_map fst found in
  try_except
    (revocation_status <- _terminate_enrollment enterprise_enrollment (Some course_overview);;
     let results :=
       dict_set course_id (true, status_message revocation_status)
         (revocation_results acc) in
     (if is_course_completed revocation_status then ret tt
      else match found with
           | Some (_, license) => modify (revoke Licensed (uuid license))
           | None => raise AttributeError
           end);;
     ret {| revocation_results := results;
            revoke_any_failures := revoke_any_failures acc |})
    (on_enrollment_modification
       (fun msg =>
          ret {| revocation_results :=
                   dict_set course_id (false, msg) (revocation_results acc);
                 revoke_any_failures := true |})).

Definition aggregate_status (any_failures : bool) : Z :=
  if any_failures then Http.HTTP_422_UNPROCESSABLE_ENTITY else Http.HTTP_200_OK.

Definition license_revoke (request_data : LicenseRevokeRequest)
  : ME World Response :=
  match _validate_license_revoke_data request_data with
  | Some invalid_response => ret invalid_response
  | None =>
      enterprise_customer_user <-
        get_customer_user_or_404 (default 0 (revoke_user_id request_data))
          (default "" (revoke_enterprise_id request_data));;
      enrollments_by_course_id <-
        _enrollments_by_course_for_licensed_user enterprise_customer_user;;
      course_overviews <-
        reads (fun w =>
          get_course_overviews
            (List.map (fun kv => Some (fst kv)) enrollments_by_course_id)
            (platform w));;
      final <- for_each (license_revoke_item enrollments_by_course_id)
                 course_overviews
                 {| revocation_results := []; revoke_any_failures := false |};;
      ret {| status := aggregate_status (revoke_any_failures final);
             data := RevocationResults (revocation_results final) |}
  end.

(** The decision of lines 1119-1131: whether a cutoff is set and the
    enrollment was modified at or after it.  [d[key]] raises [KeyError]
    when the key is missing, and the comparison raises [TypeError] when
    the cutoff is naive. *)
Definition modified_past_cutoff (cutoff : option Cutoff)
    (modified_at : gmap string Z)
    (user_id : Z) (course_id : string) : ME World bool :=
  match cutoff with
  | None => ret false
  | Some ignore_enrollments_modified_after =>
      let key := history_key user_id course_id in
      match modified_at !! key with
      | None => raise (KeyError key)
      | Some course_enrollment_modified_at =>
          lift (aware_ge course_enrollment_modified_at
                  ignore_enrollments_modified_after)
      end
  end.

(** Lines 1103-1147, one licensed enrollment. *)
Definition expiration_item (cutoff : option Cutoff)
    (indexed_overviews : gmap string CourseOverview)
    (modified_at : gmap string Z)
    (any_failures : bool) (licensed_enrollment : SubsidyFulfillment)
  : ME World bool :=
  match enterprise_course_enrollment licensed_enrollment with
  | None => raise AttributeError
  | Some enterprise_course_enrollment =>
      let user_id := user_id (enterprise_customer_user enterprise_course_enrollment) in
      let course_id := course_id enterprise_course_enrollment in
      let course_overview := indexed_overviews !! course_id in
      if is_revoked licensed_enrollment then ret any_failures
      else
        skip <- modified_past_cutoff cutoff modified_at user_id course_id;;
        if skip : bool then ret any_failures
        else
          try_except
            (termination_status <-
               _terminate_enrollment (Some enterprise_course_enrollment) course_overview;;
             (if is_course_completed termination_status then ret tt
              else modify (revoke Licensed (uuid licensed_enrollment)));;
             ret any_failures)
            (on_enrollment_modification (fun _ => ret true))
  end.

(** The values of a [license_uuid__in] lookup, each read as a UUID. *)
Fixpoint to_uuids (values : list string) : Exn + list string :=
  match values with
  | [] => inr []
  | value :: rest =>
      match to_uuid value, to_uuids rest with
      | Some u, inr us => inr (u :: us)
      | None, _ => inl DjangoValidationError
      | _, inl e => inl e
      end
  end.

Definition index_overviews (course_overviews : list CourseOverview)
  : gmap string CourseOverview :=
  fold_left (fun d overview => <[ overview_id overview := overview ]> d)
    course_overviews ∅.

Definition bulk_licensed_enrollments_expiration (request : ExpirationRequest)
  : ME World Response :=
  if negb (nonempty (expired_license_uuids request))
  then ret {| status := Http.HTTP_400_BAD_REQUEST;
              data := Message "Parameter expired_license_uuids must be provided" |}
  else
    let given := truthy_str (ignore_enrollments_modified_after request) in
    cutoff <-
      (if given
       then match parse_datetime
                    (default "" (ignore_enrollments_modified_after request)) with
            | Datetime d => ret (Some d)
            | NotWellFormatted => ret None
            | NoSuchDate => raise ValueError
            end
       else ret None);;
    if given && negb (bool_decide (is_Some cutoff))
    then ret {| status := Http.HTTP_400_BAD_REQUEST;
                data := Message
                  "Parameter ignore_enrollments_modified_after is malformed, please provide a date in ISO-8601 format" |}
    else
      license_uuids <- lift (to_uuids (expired_license_uuids request));;
      licensed_enrollments <-
        reads (fun w =>
          List.filter
            (fun row => existsb (String.eqb (source_ref row)) license_uuids)
            (licensed_rows w));;
      course_overviews <-
        reads (fun w =>
          get_course_overviews
            (List.map (fun row => option_map course_id (enterprise_course_enrollment row))
               licensed_enrollments)
            (platform w));;
      let indexed_overviews := index_overviews course_overviews in
      modified_at <-
        (if bool_decide (is_Some cutoff)
         then _course_enrollment_modified_at_by_user_and_course_id licensed_enrollments
         else ret ∅);;
      any_failures <-
        for_each (expiration_item cutoff indexed_overviews modified_at)
          licensed_enrollments false;;
      ret {| status := aggregate_status any_failures; data := NoData |}.

(** *** Enrollment termination *)

(** The completion test and the two calls to the enrollment API, as
    functions of the platform. *)
Definition completed_on (p : Platform)
    (ece : EnterpriseCourseEnrollment) (overview : CourseOverview) : bool :=
  bool_decide
    (get_course_run_status overview
       (get_certificate_for_user (username (enterprise_customer_user ece))
          (overview_id overview) p)
       ece p = COMPLETED).

Definition audit_call (p : Platform)
    (ece : EnterpriseCourseEnrollment) (overview : CourseOverview)
  : option string * Platform :=
  update_enrollment (username (enterprise_customer_user ece))
    (overview_id overview) (Some AUDIT) None p.

Definition unenroll_call (p : Platform)
    (ece : EnterpriseCourseEnrollment) (overview : CourseOverview)
  : option string * Platform :=
  update_enrollment (username (enterprise_customer_user ece))
    (overview_id overview) None (Some false) p.

(** The calls a view added to the trace. *)
Definition new_calls (w w' : World) : list Call :=
  drop (length (trace w)) (trace w').

Lemma new_calls_refl (w : World) : new_calls w w = [].
Proof. unfold new_calls. apply drop_all. Qed.

Lemma new_calls_with_platform p extra (w : World) :
  new_calls w (with_platform p extra w) = extra.
Proof. unfold new_calls. cbn [with_platform trace]. apply drop_app_length. Qed.

Lemma has_user_completed_run ece overview (w : World) :
  _has_user_completed_course_run ece overview w
  = (inr (completed_on (platform w) ece overview), w).
Proof. reflexivity. Qed.

Lemma terminate_unfold ece overview (w : World) :
  _terminate_enrollment (Some ece) (Some overview) w =
    if completed_on (platform w) ece overview then (inr COURSE_COMPLETED, w)
    else if mode_for_course (overview_id overview) AUDIT (platform w) then
      (match fst (audit_call (platform w) ece overview) with
       | None => inr MOVED_TO_AUDIT
       | Some reason =>
           inl (EnrollmentModificationException
                  (audit_failure_message (username (enterprise_customer_user ece))
                     (enterprise_customer (enterprise_customer_user ece))
                     (overview_id overview) AUDIT reason))
       end,
       with_platform (snd (audit_call (platform w) ece overview))
         [UpdateEnrollment (username (enterprise_customer_user ece))
            (overview_id overview) (Some AUDIT) None
            (fst (audit_call (platform w) ece overview))] w)
    else
      (match fst (unenroll_call (platform w) ece overview) with
       | None => inr UNENROLLED
       | Some reason =>
           inl (EnrollmentModificationException
                  (unenroll_failure_message (username (enterprise_customer_user ece))
                     (enterprise_customer (enterprise_customer_user ece))
                     (overview_id overview) reason))
       end,
       with_platform (snd (unenroll_call (platform w) ece overview))
         [UpdateEnrollment (username (enterprise_customer_user ece))
            (overview_id overview) None (Some false)
            (fst (unenroll_call (platform w) ece overview))] w).
Proof.
  unfold _terminate_enrollment. cbv zeta.
  unfold bind at 1. rewrite has_user_completed_run.
  destruct (completed_on (platform w) ece overview); [reflexivity|].
  unfold bind at 1, reads at 1.
  destruct (mode_for_course (overview_id overview) AUDIT (platform w)).
  - unfold bind, call_update_enrollment, audit_call.
    destruct (update_enrollment _ _ _ _ _) as [[reason|] p]; reflexivity.
  - unfold bind, call_update_enrollment, unenroll_call.
    destruct (update_enrollment _ _ _ _ _) as [[reason|] p]; reflexivity.
Qed.

(** C2.  For an enterprise enrollment and a course overview, termination
    applies three rules in order.  A learner who has completed the course
    run gets COURSE_COMPLETED and nothing changes: no call to the
    enrollment API is made.  Otherwise, when the course has an audit mode,
    the one call made is [update_enrollment] with mode audit, and the
    outcome is MOVED_TO_AUDIT (when the call raises, the failure is
    wrapped into [EnrollmentModificationException]).  Otherwise the one
    call made is [update_enrollment] with [is_active=False], and the
    outcome is UNENROLLED (with the same wrapping). *)
Theorem C2_termination_rules
    (ece : EnterpriseCourseEnrollment) (overview : CourseOverview) (w : World) :
  let user := username (enterprise_customer_user ece) in
  let course := overview_id overview in
  let outcome := fst (_terminate_enrollment (Some ece) (Some overview) w) in
  let w' := snd (_terminate_enrollment (Some ece) (Some overview) w) in
  let completed := completed_on (platform w) ece overview in
  _has_user_completed_course_run ece overview w = (inr completed, w)
  /\ if completed then outcome = inr COURSE_COMPLETED /\ w' = w
     else if mode_for_course course AUDIT (platform w) then
       exists raised,
         new_calls w w' = [UpdateEnrollment user course (Some AUDIT) None raised]
         /\ raised = fst (audit_call (platform w) ece overview)
         /\ match raised with
            | None => outcome = inr MOVED_TO_AUDIT
            | Some _ => exists msg,
                outcome = inl (EnrollmentModificationException msg)
            end
     else
       exists raised,
         new_calls w w' = [UpdateEnrollment user course None (Some false) raised]
         /\ raised = fst (unenroll_call (platform w) ece overview)
         /\ match raised with
            | None => outcome = inr UNENROLLED
            | Some _ => exists msg,
                outcome = inl (EnrollmentModificationException msg)
            end.
Proof.
  cbv zeta. rewrite terminate_unfold. split; [reflexivity|].
  destruct (completed_on (platform w) ece overview); [now split|].
  destruct (mode_for_course (overview_id overview) AUDIT (platform w)).
  - eexists. cbn [fst snd]. rewrite new_calls_with_platform.
    split; [reflexivity|]. split; [reflexivity|].
    destruct (fst (audit_call (platform w) ece overview)); eauto.
  - eexists. cbn [fst snd]. rewrite new_calls_with_platform.
    split; [reflexivity|]. split; [reflexivity|].
    destruct (fst (unenroll_call (platform w) ece overview)); eauto.
Qed.

(** *** Fetching and cancelling a fulfillment *)

Definition not_found_response : Response :=
  {| status := Http.HTTP_404_NOT_FOUND; data := Detail not_found_detail |}.

(** No row with this uuid passes the tenant filter for the customer. *)
Definition hidden_from (customer : option string) (u : string) (w : World) : Prop :=
  forall f, In f (learner_credit_rows w ++ licensed_rows w) ->
            uuid f = u -> subsidy_fulfillment_filter customer f = false.

(** No row has this uuid. *)
Definition absent (u : string) (w : World) : Prop :=
  forall f, In f (learner_credit_rows w ++ licensed_rows w) -> uuid f <> u.

Lemma absent_hidden customer u w : absent u w -> hidden_from customer u w.
Proof. intros Ha f Hf Hu. now apply Ha in Hf. Qed.

Lemma filter_nil_of_false {A} (P : A -> bool) (l : list A) :
  (forall x, In x l -> P x = false) -> List.filter P l = [].
Proof.
  induction l as [|x l IH]; intros H; simpl; [reflexivity|].
  rewrite (H x (or_introl eq_refl)). apply IH. intros y Hy. apply H. now right.
Qed.

Lemma hidden_filter customer u (w : World) (l : list SubsidyFulfillment) :
  hidden_from customer u w ->
  incl l (learner_credit_rows w ++ licensed_rows w) ->
  List.filter (subsidy_fulfillment_filter customer) (rows_with_uuid u l) = [].
Proof.
  intros Hh Hincl. apply filter_nil_of_false. intros f Hf.
  unfold rows_with_uuid in Hf. apply filter_In in Hf. destruct Hf as [Hf Hu].
  apply String.eqb_eq in Hu. apply Hh; [now apply Hincl | exact Hu].
Qed.

Lemma queryset_hidden (user : Requester) s u (w : World) :
  to_uuid s = Some u ->
  is_staff user = false ->
  hidden_from (get_enterprise_customer_from_user_id (requester_id user)) u w ->
  get_subsidy_fulfillment_queryset user s w
  = (inl (ValidationError not_found_detail), w).
Proof.
  intros Hs Hstaff Hh. unfold get_subsidy_fulfillment_queryset.
  unfold bind, reads, lift, filter_uuid. rewrite Hs, Hstaff.
  rewrite (hidden_filter _ u w (learner_credit_rows w) Hh)
    by (apply incl_appl, incl_refl).
  rewrite (hidden_filter _ u w (licensed_rows w) Hh)
    by (apply incl_appr, incl_refl).
  reflexivity.
Qed.

Lemma retrieve_hidden (user : Requester) s u (w : World) :
  to_uuid s = Some u ->
  is_staff user = false ->
  hidden_from (get_enterprise_customer_from_user_id (requester_id user)) u w ->
  retrieve user s w = (inr not_found_response, w).
Proof.
  intros Hs Hstaff Hh. unfold retrieve, try_except.
  unfold bind at 1. now rewrite (queryset_hidden user s u).
Qed.

Lemma cancel_hidden (user : Requester) s u (w : World) :
  to_uuid s = Some u ->
  is_staff user = false ->
  hidden_from (get_enterprise_customer_from_user_id (requester_id user)) u w ->
  cancel_enrollment user s w = (inr not_found_response, w).
Proof.
  intros Hs Hstaff Hh. unfold cancel_enrollment.
  unfold bind at 1. unfold try_except. unfold bind at 1.
  now rewrite (queryset_hidden user s u).
Qed.

(** Cancelling a fulfillment that the query finds revoked. *)
Lemma cancel_revoked (user : Requester) u (w : World) table queryset f :
  get_subsidy_fulfillment_queryset user u w = (inr (table, queryset), w) ->
  get_object_or_404 to_uuid queryset u = inr f ->
  is_revoked f = true ->
  cancel_enrollment user u w
  = (inr {| status := Http.HTTP_400_BAD_REQUEST;
            data := Detail "Enrollment is already canceled." |}, w).
Proof.
  intros Hq Hg Hr. unfold cancel_enrollment.
  unfold bind at 1. unfold try_except. unfold bind at 1.
  rewrite Hq. cbn [snd]. unfold bind at 1, lift. rewrite Hg, Hr.
  reflexivity.
Qed.

(** *** One item of a sweep *)

Definition update_failed (c : Call) : bool :=
  match c with
  | UpdateEnrollment _ _ _ _ (Some _) => true
  | _ => false
  end.

Definition revokes (t : list Call) : list string :=
  flat_map (fun c => match c with Revoke _ u => [u] | _ => [] end) t.

(** What a termination leaves behind when it is given an enrollment and
    an overview: it answers COURSE_COMPLETED without a call, or makes one
    call to the enrollment API and answers according to it. *)
Inductive Terminated (w : World)
  : (Exn + TerminationStatus) * World -> Prop :=
| T_completed :
    Terminated w (inr COURSE_COMPLETED, w)
| T_updated s p user course mode active :
    is_course_completed s = false ->
    Terminated w
      (inr s, with_platform p [UpdateEnrollment user course mode active None] w)
| T_failed msg p user course mode active reason :
    Terminated w
      (inl (EnrollmentModificationException msg),
       with_platform p [UpdateEnrollment user course mode active (Some reason)] w).

Lemma terminate_cases ece (overview : CourseOverview) (w : World) :
  Terminated w (_terminate_enrollment (Some ece) (Some overview) w).
Proof.
  rewrite terminate_unfold.
  destruct (completed_on _ _ _); [constructor|].
  destruct (mode_for_course _ _ _).
  - destruct (fst (audit_call (platform w) ece overview)); now constructor.
  - destruct (fst (unenroll_call (platform w) ece overview)); now constructor.
Qed.

(** The decision of [modified_past_cutoff], which reads nothing from the
    world. *)
Definition skip_decision (cutoff : option Cutoff) (modified_at : gmap string Z)
    (user_id : Z) (course_id : string) : Exn + bool :=
  match cutoff with
  | None => inr false
  | Some c =>
      match modified_at !! history_key user_id course_id with
      | None => inl (KeyError (history_key user_id course_id))
      | Some t => aware_ge t c
      end
  end.

Lemma modified_past_cutoff_run cutoff modified_at uid cid (w : World) :
  modified_past_cutoff cutoff modified_at uid cid w
  = (skip_decision cutoff modified_at uid cid, w).
Proof.
  unfold modified_past_cutoff, skip_decision.
  destruct cutoff as [c|]; [|reflexivity].
  destruct (modified_at !! history_key uid cid); reflexivity.
Qed.

(** What the loops do with the answer of a termination. *)
Definition after_termination {S} (next : TerminationStatus -> S) (failed : string -> S)
    (license : string) (r : (Exn + TerminationStatus) * World)
  : (Exn + S) * World :=
  match r with
  | (inr s, w') =>
      (inr (next s),
       if is_course_completed s then w' else revoke Licensed license w')
  | (inl (EnrollmentModificationException msg), w') => (inr (failed msg), w')
  | (inl e, w') => (inl e, w')
  end.

Lemma expiration_item_revoked cutoff idx modified_at af row ece (w : World) :
  enterprise_course_enrollment row = Some ece ->
  is_revoked row = true ->
  expiration_item cutoff idx modified_at af row w = (inr af, w).
Proof.
  intros He Hr. unfold expiration_item. now rewrite He, Hr.
Qed.

Lemma expiration_item_skipped cutoff idx modified_at af row ece (w : World) :
  enterprise_course_enrollment row = Some ece ->
  is_revoked row = false ->
  skip_decision cutoff modified_at
    (user_id (enterprise_customer_user ece)) (course_id ece) = inr true ->
  expiration_item cutoff idx modified_at af row w = (inr af, w).
Proof.
  intros He Hr Hs. unfold expiration_item. rewrite He, Hr.
  unfold bind at 1. now rewrite modified_past_cutoff_run, Hs.
Qed.

Lemma expiration_item_processed cutoff idx modified_at af row ece (w : World) :
  enterprise_course_enrollment row = Some ece ->
  is_revoked row = false ->
  skip_decision cutoff modified_at
    (user_id (enterprise_customer_user ece)) (course_id ece) = inr false ->
  expiration_item cutoff idx modified_at af row w
  = after_termination (fun _ => af) (fun _ => true) (uuid row)
      (_terminate_enrollment (Some ece) (idx !! course_id ece) w).
Proof.
  intros He Hr Hs. unfold expiration_item. rewrite He, Hr.
  unfold bind at 1. rewrite modified_past_cutoff_run, Hs.
  unfold try_except, after_termination. unfold bind at 1.
  destruct (_terminate_enrollment _ _ w) as [[e|s] w'].
  - destruct e; reflexivity.
  - unfold bind, modify, ret. destruct s; reflexivity.
Qed.

Lemma license_revoke_item_processed d acc overview ece license (w : World) :
  dict_get (overview_id overview) d = Some (ece, license) ->
  license_revoke_item d acc overview w
  = after_termination
      (fun s => {| revocation_results :=
                     dict_set (overview_id overview) (true, status_message s)
                       (revocation_results acc);
                   revoke_any_failures := revoke_any_failures acc |})
      (fun msg => {| revocation_results :=
                       dict_set (overview_id overview) (false, msg)
                         (revocation_results acc);
                     revoke_any_failures := true |})
      (uuid license)
      (_terminate_enrollment (Some ece) (Some overview) w).
Proof.
  intros Hd. unfold license_revoke_item. cbv zeta. rewrite Hd.
  cbn [option_map fst].
  unfold try_except, after_termination. unfold bind at 1.
  destruct (_terminate_enrollment _ _ w) as [[e|s] w'].
  - destruct e; reflexivity.
  - unfold bind, modify, ret. destruct s; reflexivity.
Qed.

Lemma license_revoke_item_unknown d acc overview (w : World) :
  dict_get (overview_id overview) d = None ->
  license_revoke_item d acc overview w = (inl AttributeError, w).
Proof.
  intros Hd. unfold license_revoke_item. cbv zeta. rewrite Hd.
  reflexivity.
Qed.

(** The trace and the rows after [after_termination]. *)
Lemma trace_with_platform p extra (w : World) :
  trace (with_platform p extra w) = trace w ++ extra.
Proof. reflexivity. Qed.

Lemma trace_revoke t u (w : World) : trace (revoke t u w) = trace w ++ [Revoke t u].
Proof. reflexivity. Qed.

Lemma new_calls_app (w w' : World) extra :
  trace w' = trace w ++ extra -> new_calls w w' = extra.
Proof. intros H. unfold new_calls. rewrite H. apply drop_app_length. Qed.

(** Rows only ever gain the revoked flag. *)
Definition row_advance (r r' : SubsidyFulfillment) : Prop :=
  uuid r' = uuid r /\ (is_revoked r = true -> is_revoked r' = true).

Definition rows_advance (l l' : list SubsidyFulfillment) : Prop :=
  Forall2 row_advance l l'.

Lemma rows_advance_refl l : rows_advance l l.
Proof. induction l; constructor; [split; auto | assumption]. Qed.

Lemma rows_advance_trans l1 l2 l3 :
  rows_advance l1 l2 -> rows_advance l2 l3 -> rows_advance l1 l3.
Proof.
  intros H12. revert l3. induction H12 as [|a b l1 l2 [Hu Hr] _ IH];
    intros l3 H23; inversion H23 as [|b' c l2' l3' [Hu' Hr'] Hrest]; subst;
    constructor; [|now apply IH].
  split; [congruence | auto].
Qed.

Lemma rows_advance_revoke u l : rows_advance l (List.map (revoke_row u) l).
Proof.
  induction l as [|r l IH]; constructor; [|exact IH].
  unfold revoke_row. destruct (String.eqb (uuid r) u); split; auto.
Qed.

Lemma rows_advance_revoked l l' r :
  rows_advance l l' -> In r l -> is_revoked r = true ->
  exists r', In r' l' /\ uuid r' = uuid r /\ is_revoked r' = true.
Proof.
  induction 1 as [|a b l l' [Hu Hr] _ IH]; intros Hin Hrev; [destruct Hin|].
  destruct Hin as [->|Hin].
  - exists b. split; [now left|]. split; [exact Hu | now apply Hr].
  - destruct (IH Hin Hrev) as (r' & Hin' & H'). exists r'. split; [now right|].
    exact H'.
Qed.

(** What a processed item leaves behind: the calls it added, the flag of
    the loop, the revocations, the rows. *)
Record StepSummary (w w' : World) (failed : bool) (revoked : list string)
  : Prop := {
  step_trace : exists extra,
      trace w' = trace w ++ extra
      /\ existsb update_failed extra = failed
      /\ revokes extra = revoked;
  step_licensed : rows_advance (licensed_rows w) (licensed_rows w');
  step_licensed_exact :
    licensed_rows w' =
      match revoked with
      | [] => licensed_rows w
      | u :: _ => List.map (revoke_row u) (licensed_rows w)
      end;
  step_learner_credit : learner_credit_rows w' = learner_credit_rows w;
}.

Lemma step_summary_refl (w : World) : StepSummary w w false [].
Proof.
  split; [exists []; now rewrite app_nil_r | apply rows_advance_refl | | ];
    reflexivity.
Qed.

Lemma after_termination_summary {S} (next : TerminationStatus -> S)
    (failed : string -> S) license (w : World) r :
  Terminated w r ->
  match r with
  | (inl (EnrollmentModificationException msg), w') =>
      after_termination next failed license r = (inr (failed msg), w')
      /\ StepSummary w w' true []
  | (inl _, _) => False
  | (inr s, _) =>
      exists w', after_termination next failed license r = (inr (next s), w')
                 /\ StepSummary w w' false
                      (if is_course_completed s then [] else [license])
  end.
Proof.
  destruct 1 as [|s p user course mode active Hs|msg p user course mode active reason].
  - exists w. split; [reflexivity | apply step_summary_refl].
  - cbn [after_termination]. rewrite Hs. eexists. split; [reflexivity|].
    split.
    + eexists. rewrite trace_revoke, trace_with_platform, <- app_assoc.
      split; [reflexivity|]. now split.
    + apply rows_advance_revoke.
    + reflexivity.
    + reflexivity.
  - split; [reflexivity|]. split.
    + eexists. rewrite trace_with_platform. split; [reflexivity|]. now split.
    + apply rows_advance_refl.
    + reflexivity.
    + reflexivity.
Qed.

(** C3.  In the bulk-expiration sweep and in the license-revoke
    operation, for every enrollment that reaches termination, the license
    behind it is revoked exactly when the termination returns an outcome
    other than COURSE_COMPLETED: no revocation is recorded, and the
    licensed rows are left as they were, when the outcome is
    COURSE_COMPLETED or when the termination raised. *)
Theorem C3_revoke_unless_completed :
  (forall cutoff idx modified_at af row ece (w : World),
     enterprise_course_enrollment row = Some ece ->
     is_revoked row = false ->
     skip_decision cutoff modified_at
       (user_id (enterprise_customer_user ece)) (course_id ece) = inr false ->
     let outcome := fst (_terminate_enrollment (Some ece) (idx !! course_id ece) w) in
     let w' := snd (expiration_item cutoff idx modified_at af row w) in
     let revoked :=
       match outcome with
       | inr s => if is_course_completed s then [] else [uuid row]
       | inl _ => []
       end in
     revokes (new_calls w w') = revoked
     /\ licensed_rows w' =
          match revoked with
          | [] => licensed_rows w
          | u :: _ => List.map (revoke_row u) (licensed_rows w)
          end)
  /\ (forall d acc overview ece license (w : World),
        dict_get (overview_id overview) d = Some (ece, license) ->
        let outcome := fst (_terminate_enrollment (Some ece) (Some overview) w) in
        let w' := snd (license_revoke_item d acc overview w) in
        let revoked :=
          match outcome with
          | inr s => if is_course_completed s then [] else [uuid license]
          | inl _ => []
          end in
        revokes (new_calls w w') = revoked
        /\ licensed_rows w' =
             match revoked with
             | [] => licensed_rows w
             | u :: _ => List.map (revoke_row u) (licensed_rows w)
             end).
Proof.
  assert (Hkey : forall S (next : TerminationStatus -> S) failed license
                        (w : World) r,
             Terminated w r ->
             let w' := snd (after_termination next failed license r) in
             let revoked :=
               match fst r with
               | inr s => if is_course_completed s then [] else [license]
               | inl _ => []
               end in
             revokes (new_calls w w') = revoked
             /\ licensed_rows w' =
                  match revoked with
                  | [] => licensed_rows w
                  | u :: _ => List.map (revoke_row u) (licensed_rows w)
                  end).
  { intros S next failed license w r Hr.
    pose proof (after_termination_summary next failed license w r Hr) as Hs.
    destruct r as [[e|s] w1]; cbn [fst].
    - destruct e; try contradiction. destruct Hs as [-> [(extra & Ht & _ & Hrev) _ Hrows _]].
      cbn [snd]. rewrite (new_calls_app _ _ _ Ht). now split.
    - destruct Hs as (w2 & -> & [(extra & Ht & _ & Hrev) _ Hrows _]).
      cbn [snd]. rewrite (new_calls_app _ _ _ Ht). now split. }
  split.
  - intros cutoff idx modified_at af row ece w He Hr Hs.
    rewrite (expiration_item_processed _ _ _ _ _ _ _ He Hr Hs).
    destruct (idx !! course_id ece) as [overview|].
    + apply Hkey, terminate_cases.
    + cbn. now rewrite new_calls_refl.
  - intros d acc overview ece license w Hd.
    rewrite (license_revoke_item_processed _ _ _ _ _ _ Hd).
    apply Hkey, terminate_cases.
Qed.

(** *** The loops *)

(** What a run of a loop leaves behind. *)
Record LoopSummary (w w' : World) (failed : bool) : Prop := {
  loop_trace : exists extra,
      trace w' = trace w ++ extra /\ existsb update_failed extra = failed;
  loop_licensed : rows_advance (licensed_rows w) (licensed_rows w');
  loop_learner_credit : learner_credit_rows w' = learner_credit_rows w;
}.

Lemma loop_summary_refl (w : World) : LoopSummary w w false.
Proof.
  split; [exists []; now rewrite app_nil_r | apply rows_advance_refl | reflexivity].
Qed.

Lemma loop_summary_step (w w' : World) failed revoked :
  StepSummary w w' failed revoked -> LoopSummary w w' failed.
Proof.
  intros [(extra & Ht & Hf & _) Hrows _ Hlc].
  split; [now exists extra | exact Hrows | exact Hlc].
Qed.

Lemma loop_summary_trans (w1 w2 w3 : World) f12 f23 :
  LoopSummary w1 w2 f12 -> LoopSummary w2 w3 f23 ->
  LoopSummary w1 w3 (f12 || f23).
Proof.
  intros [(x & Hx & Hfx) Hr12 Hl12] [(y & Hy & Hfy) Hr23 Hl23]. split.
  - exists (x ++ y). rewrite Hy, Hx, <- app_assoc. split; [reflexivity|].
    now rewrite existsb_app, Hfx, Hfy.
  - eapply rows_advance_trans; eassumption.
  - congruence.
Qed.

(** An item of the bulk-expiration sweep that raises nothing but what
    the loop handles: it has an enrollment, and unless it is skipped it
    has a history date when a cutoff is set and a course overview. *)
Definition row_safe (cutoff : option Cutoff) (idx : gmap string CourseOverview)
    (modified_at : gmap string Z) (row : SubsidyFulfillment) : bool :=
  match enterprise_course_enrollment row with
  | None => false
  | Some ece =>
      is_revoked row
      || match skip_decision cutoff modified_at
                 (user_id (enterprise_customer_user ece)) (course_id ece) with
         | inl _ => false
         | inr true => true
         | inr false => bool_decide (is_Some (idx !! course_id ece))
         end
  end.

Lemma expiration_item_safe cutoff idx modified_at af row (w : World) :
  row_safe cutoff idx modified_at row = true ->
  exists failed w',
    expiration_item cutoff idx modified_at af row w = (inr (af || failed), w')
    /\ LoopSummary w w' failed.
Proof.
  unfold row_safe. intros Hsafe.
  destruct (enterprise_course_enrollment row) as [ece|] eqn:He; [|discriminate].
  destruct (is_revoked row) eqn:Hr.
  { exists false, w. rewrite orb_false_r. split;
      [now apply (expiration_item_revoked _ _ _ _ _ ece) | apply loop_summary_refl]. }
  cbn [orb] in Hsafe.
  destruct (skip_decision _ _ _ _) as [e|[|]] eqn:Hs; [discriminate| |].
  { exists false, w. rewrite orb_false_r. split;
      [now apply (expiration_item_skipped _ _ _ _ _ ece) | apply loop_summary_refl]. }
  apply bool_decide_eq_true in Hsafe. destruct Hsafe as [overview Ho].
  rewrite (expiration_item_processed _ _ _ _ _ _ _ He Hr Hs), Ho.
  pose proof (after_termination_summary (fun _ => af) (fun _ => true) (uuid row)
                w _ (terminate_cases ece overview w)) as Hsum.
  destruct (_terminate_enrollment (Some ece) (Some overview) w) as [[e|s] w1].
  - destruct e; try contradiction. destruct Hsum as [-> Hstep].
    exists true, w1. rewrite orb_true_r. split; [reflexivity|].
    eapply loop_summary_step; eassumption.
  - destruct Hsum as (w2 & -> & Hstep).
    exists false, w2. rewrite orb_false_r. split; [reflexivity|].
    eapply loop_summary_step; eassumption.
Qed.

Lemma expiration_loop_safe cutoff idx modified_at (rows : list SubsidyFulfillment) :
  forall af (w : World),
    forallb (row_safe cutoff idx modified_at) rows = true ->
    exists failed w',
      for_each (expiration_item cutoff idx modified_at) rows af w
      = (inr (af || failed), w')
      /\ LoopSummary w w' failed.
Proof.
  induction rows as [|row rows IH]; intros af w Hsafe.
  - exists false, w. rewrite orb_false_r. split;
      [reflexivity | apply loop_summary_refl].
  - cbn [forallb] in Hsafe. apply andb_true_iff in Hsafe.
    destruct Hsafe as [Hrow Hrows].
    destruct (expiration_item_safe cutoff idx modified_at af row w Hrow)
      as (f1 & w1 & Hstep & Hsum1).
    destruct (IH (af || f1) w1 Hrows) as (f2 & w2 & Hloop & Hsum2).
    exists (f1 || f2), w2. split.
    + cbn [for_each]. unfold bind. rewrite Hstep, Hloop.
      now rewrite orb_assoc.
    + eapply loop_summary_trans; eassumption.
Qed.

(** An overview handed to the license-revoke loop is safe when its id is
    a key of the dictionary of enrollments. *)
Definition overview_safe
    (d : list (string * (EnterpriseCourseEnrollment * SubsidyFulfillment)))
    (overview : CourseOverview) : bool :=
  bool_decide (is_Some (dict_get (overview_id overview) d)).



(** Whatever an item of the sweep does, raising included, licensed rows
    only gain the revoked flag. *)
Lemma expiration_item_advance cutoff idx modified_at af row (w : World) :
  rows_advance (licensed_rows w)
    (licensed_rows (snd (expiration_item cutoff idx modified_at af row w))).
Proof.
  destruct (row_safe cutoff idx modified_at row) eqn:Hsafe.
  - destruct (expiration_item_safe cutoff idx modified_at af row w Hsafe)
      as (f & w' & -> & Hsum). apply Hsum.
  - unfold row_safe in Hsafe. unfold expiration_item.
    destruct (enterprise_course_enrollment row) as [ece|];
      [|apply rows_advance_refl].
    destruct (is_revoked row); [discriminate|]. cbn [orb] in Hsafe.
    unfold bind at 1. rewrite modified_past_cutoff_run.
    destruct (skip_decision _ _ _ _) as [e|[|]];
      [apply rows_advance_refl | discriminate |].
    apply bool_decide_eq_false in Hsafe.
    destruct (idx !! course_id ece) as [overview|] eqn:Ho.
    + exfalso. apply Hsafe. now exists overview.
    + apply rows_advance_refl.
Qed.

Lemma expiration_loop_advance cutoff idx modified_at (rows : list SubsidyFulfillment) :
  forall af (w : World),
    rows_advance (licensed_rows w)
      (licensed_rows
         (snd (for_each (expiration_item cutoff idx modified_at) rows af w))).
Proof.
  induction rows as [|row rows IH]; intros af w; [apply rows_advance_refl|].
  cbn [for_each]. unfold bind.
  pose proof (expiration_item_advance cutoff idx modified_at af row w) as Hstep.
  destruct (expiration_item cutoff idx modified_at af row w) as [[e|af1] w1];
    cbn [snd] in *; [exact Hstep|].
  eapply rows_advance_trans; [exact Hstep | apply IH].
Qed.

(** *** The bulk-expiration view, piece by piece *)

(** The license uuids of the request, each read as a UUID. *)
Definition the_license_uuids (request : ExpirationRequest) : list string :=
  match to_uuids (expired_license_uuids request) with
  | inr license_uuids => license_uuids
  | inl _ => []
  end.

Definition uuids_readable (request : ExpirationRequest) : bool :=
  match to_uuids (expired_license_uuids request) with
  | inr _ => true
  | inl _ => false
  end.

Definition selected_rows (request : ExpirationRequest) (w : World)
  : list SubsidyFulfillment :=
  List.filter
    (fun row => existsb (String.eqb (source_ref row)) (the_license_uuids request))
    (licensed_rows w).

Definition the_parse (request : ExpirationRequest) : Parsed :=
  parse_datetime (default "" (ignore_enrollments_modified_after request)).

Definition the_cutoff (request : ExpirationRequest) : option Cutoff :=
  if truthy_str (ignore_enrollments_modified_after request)
  then match the_parse request with
       | Datetime d => Some d
       | _ => None
       end
  else None.

Definition cutoff_malformed (request : ExpirationRequest) : bool :=
  truthy_str (ignore_enrollments_modified_after request)
  && match the_parse request with NotWellFormatted => true | _ => false end.

Definition cutoff_impossible (request : ExpirationRequest) : bool :=
  truthy_str (ignore_enrollments_modified_after request)
  && match the_parse request with NoSuchDate => true | _ => false end.

Definition the_index (request : ExpirationRequest) (w : World)
  : gmap string CourseOverview :=
  index_overviews
    (get_course_overviews
       (List.map (fun row => option_map course_id (enterprise_course_enrollment row))
          (selected_rows request w))
       (platform w)).

Definition the_modified_at (request : ExpirationRequest) (w : World)
  : gmap string Z :=
  if bool_decide (is_Some (the_cutoff request)) then
    match fst (_course_enrollment_modified_at_by_user_and_course_id
                 (selected_rows request w) w) with
    | inr m => m
    | inl _ => ∅
    end
  else ∅.

(** A request that the sweep goes through without raising anything but
    what its loop handles: it names licenses, each by a string that reads
    as a UUID; its cutoff, when it has one, is a date; and every selected
    row is safe, which for a row that is not revoked asks that the cutoff
    carries a UTC offset. *)
Definition sweep_safe (request : ExpirationRequest) (w : World) : bool :=
  nonempty (expired_license_uuids request)
  && negb (cutoff_impossible request)
  && negb (cutoff_malformed request)
  && uuids_readable request
  && forallb
       (row_safe (the_cutoff request) (the_index request w)
          (the_modified_at request w))
       (selected_rows request w).

Lemma modified_at_run (rows : list SubsidyFulfillment) (w : World) :
  snd (_course_enrollment_modified_at_by_user_and_course_id rows w) = w.
Proof.
  unfold _course_enrollment_modified_at_by_user_and_course_id.
  destruct (all_enrollments rows); reflexivity.
Qed.

Lemma all_enrollments_safe cutoff idx modified_at (rows : list SubsidyFulfillment) :
  forallb (row_safe cutoff idx modified_at) rows = true ->
  exists eces, all_enrollments rows = Some eces.
Proof.
  induction rows as [|row rows IH]; intros Hsafe; [now exists []|].
  cbn [forallb] in Hsafe. apply andb_true_iff in Hsafe.
  destruct Hsafe as [Hrow Hrows]. destruct (IH Hrows) as (eces & He).
  unfold row_safe in Hrow. cbn [all_enrollments].
  destruct (enterprise_course_enrollment row) as [ece|]; [|discriminate].
  rewrite He. now exists (ece :: eces).
Qed.

Lemma to_uuids_error (values : list string) e :
  to_uuids values = inl e -> e = DjangoValidationError.
Proof.
  revert e. induction values as [|value rest IH]; intros e; cbn; [discriminate|].
  destruct (to_uuid value); [|now intros [= <-]].
  destruct (to_uuids rest); [|discriminate].
  intros [= <-]. now apply IH.
Qed.

Lemma to_uuids_In (values : list string) us u :
  to_uuids values = inr us ->
  In u us <-> exists value, In value values /\ to_uuid value = Some u.
Proof.
  revert us. induction values as [|value rest IH]; intros us; cbn.
  - intros [= <-]. split; [intros [] | intros (v & [] & _)].
  - destruct (to_uuid value) as [u0|] eqn:Hv; [|discriminate].
    destruct (to_uuids rest) as [e|us0]; [discriminate|].
    intros [= <-]. cbn. rewrite (IH us0 eq_refl). split.
    + intros [<-|(v & Hin & Hu)]; [exists value; now split; [left|]|].
      exists v. split; [now right | exact Hu].
    + intros (v & [<-|Hin] & Hu); [left; congruence|].
      right. now exists v.
Qed.

(** The exits of the view before its loop, in the order of the code. *)
Lemma expiration_view_cases (request : ExpirationRequest) (w : World) :
  bulk_licensed_enrollments_expiration request w =
    if negb (nonempty (expired_license_uuids request))
    then (inr {| status := Http.HTTP_400_BAD_REQUEST;
                 data := Message
                   "Parameter expired_license_uuids must be provided" |}, w)
    else if cutoff_impossible request then (inl ValueError, w)
    else if cutoff_malformed request
    then (inr {| status := Http.HTTP_400_BAD_REQUEST;
                 data := Message
                   "Parameter ignore_enrollments_modified_after is malformed, please provide a date in ISO-8601 format" |},
          w)
    else if negb (uuids_readable request) then (inl DjangoValidationError, w)
    else
      bind
        (if bool_decide (is_Some (the_cutoff request))
         then _course_enrollment_modified_at_by_user_and_course_id
                (selected_rows request w)
         else ret ∅)
        (fun modified_at =>
           bind
             (for_each
                (expiration_item (the_cutoff request) (the_index request w)
                   modified_at)
                (selected_rows request w) false)
             (fun any_failures =>
                ret {| status := aggregate_status any_failures; data := NoData |}))
        w.
Proof.
  unfold bulk_licensed_enrollments_expiration, cutoff_impossible,
    cutoff_malformed, uuids_readable, the_index, the_modified_at,
    selected_rows, the_license_uuids, the_cutoff, the_parse.
  destruct (nonempty (expired_license_uuids request)); cbn [negb];
    [|reflexivity].
  cbv zeta. unfold bind at 1.
  destruct (truthy_str (ignore_enrollments_modified_after request));
    cbn [andb].
  - destruct (parse_datetime _) as [| |d]; cbn [negb]; try reflexivity.
    unfold ret at 1. cbv beta iota. cbn [negb bool_decide andb].
    rewrite bool_decide_eq_true_2 by (now exists d). cbn [negb].
    unfold bind at 1, lift.
    destruct (to_uuids (expired_license_uuids request)) as [e|us] eqn:Hus;
      cbn [negb]; [now rewrite (to_uuids_error _ _ Hus)|].
    reflexivity.
  - unfold ret at 1. cbv beta iota.
    unfold bind at 1, lift.
    destruct (to_uuids (expired_license_uuids request)) as [e|us] eqn:Hus;
      cbn [negb]; [now rewrite (to_uuids_error _ _ Hus)|].
    rewrite bool_decide_eq_false_2 by (intros [x Hx]; discriminate).
    reflexivity.
Qed.

Lemma expiration_view_unfold (request : ExpirationRequest) (w : World) :
  nonempty (expired_license_uuids request) = true ->
  cutoff_impossible request = false ->
  cutoff_malformed request = false ->
  uuids_readable request = true ->
  bulk_licensed_enrollments_expiration request w =
    bind
      (if bool_decide (is_Some (the_cutoff request))
       then _course_enrollment_modified_at_by_user_and_course_id
              (selected_rows request w)
       else ret ∅)
      (fun modified_at =>
         bind
           (for_each
              (expiration_item (the_cutoff request) (the_index request w) modified_at)
              (selected_rows request w) false)
           (fun any_failures =>
              ret {| status := aggregate_status any_failures; data := NoData |}))
      w.
Proof.
  intros Hne Himp Hmal Hread. rewrite expiration_view_cases.
  now rewrite Hne, Himp, Hmal, Hread.
Qed.



(** Whatever holds of the world a view starts from, and is kept by the
    loop, holds of the world the view leaves, raising included. *)
Lemma expiration_view_invariant (P : World -> Prop)
    (request : ExpirationRequest) (w : World) :
  P w ->
  (forall modified_at af,
     P (snd (for_each
               (expiration_item (the_cutoff request) (the_index request w)
                  modified_at)
               (selected_rows request w) af w))) ->
  P (snd (bulk_licensed_enrollments_expiration request w)).
Proof.
  intros Hw Hloop. rewrite expiration_view_cases.
  destruct (negb (nonempty (expired_license_uuids request))); [exact Hw|].
  destruct (cutoff_impossible request); [exact Hw|].
  destruct (cutoff_malformed request); [exact Hw|].
  destruct (negb (uuids_readable request)); [exact Hw|].
  unfold bind at 1.
  pose proof (modified_at_run (selected_rows request w) w) as Hrun.
  destruct (bool_decide (is_Some (the_cutoff request))).
  - destruct (_course_enrollment_modified_at_by_user_and_course_id _ w)
      as [[e|m] w1]; cbn [snd] in Hrun; subst w1; [exact Hw|].
    unfold bind. specialize (Hloop m false).
    destruct (for_each _ _ _ w) as [[e|af] w2]; exact Hloop.
  - unfold ret at 1. unfold bind. specialize (Hloop ∅ false).
    destruct (for_each _ _ _ w) as [[e|af] w2]; exact Hloop.
Qed.

Lemma expiration_view_advance (request : ExpirationRequest) (w : World) :
  rows_advance (licensed_rows w)
    (licensed_rows (snd (bulk_licensed_enrollments_expiration request w))).
Proof.
  apply (expiration_view_invariant
           (fun w' => rows_advance (licensed_rows w) (licensed_rows w'))).
  - apply rows_advance_refl.
  - intros modified_at af. apply expiration_loop_advance.
Qed.

(** *** The license-revoke view, piece by piece *)

Definition enrollments_dict (ecu : EnterpriseCustomerUser) (w : World)
  : list (string * (EnterpriseCourseEnrollment * SubsidyFulfillment)) :=
  match fst (_enrollments_by_course_for_licensed_user ecu w) with
  | inr d => d
  | inl _ => []
  end.

Definition the_overviews (ecu : EnterpriseCustomerUser) (w : World)
  : list CourseOverview :=
  get_course_overviews
    (List.map (fun kv => Some (fst kv)) (enrollments_dict ecu w)) (platform w).

Definition revoke_safe (request : LicenseRevokeRequest) (w : World) : bool :=
  match _validate_license_revoke_data request with
  | Some _ => false
  | None =>
      match fst (get_customer_user_or_404
                   (default 0 (revoke_user_id request))
                   (default "" (revoke_enterprise_id request)) w) with
      | inr ecu =>
          forallb (overview_safe (enrollments_dict ecu w)) (the_overviews ecu w)
      | inl _ => false
      end
  end.

Lemma get_customer_user_run uid eid (w : World) :
  snd (get_customer_user_or_404 uid eid w) = w.
Proof.
  unfold get_customer_user_or_404, bind, reads.
  destruct (to_uuid eid); [|reflexivity].
  destruct (List.filter _ _) as [|ecu [|ecu' l]]; reflexivity.
Qed.



(** *** What the views let through

    The loops handle [EnrollmentModificationException] and nothing else:
    a view raises only when an item is not safe, and then it raises an
    exception of another kind. *)

Definition is_enrollment_modification (e : Exn) : bool :=
  match e with EnrollmentModificationException _ => true | _ => false end.


Lemma skip_decision_error cutoff modified_at uid cid e :
  skip_decision cutoff modified_at uid cid = inl e ->
  is_enrollment_modification e = false.
Proof.
  unfold skip_decision. destruct cutoff as [[t|t]|]; [| |discriminate];
    (destruct (modified_at !! _); cbn; [|now intros [= <-]]);
    [discriminate | now intros [= <-]].
Qed.



Lemma all_enrollments_unsafe cutoff idx modified_at (rows : list SubsidyFulfillment) :
  all_enrollments rows = None ->
  forallb (row_safe cutoff idx modified_at) rows = false.
Proof.
  intros Hnone. destruct (forallb _ rows) eqn:Hsafe; [|reflexivity].
  destruct (all_enrollments_safe _ _ _ _ Hsafe). congruence.
Qed.




(** *** The claims on the two view sets *)


(** C4.  Terminating an already revoked fulfillment again does nothing.
    Cancelling a fulfillment that the query finds with [is_revoked] set
    answers 400 "Enrollment is already canceled." and leaves the world
    as it was: no call to the enrollment API, no change of any row.  In
    the bulk-expiration sweep a licensed enrollment with [is_revoked] set
    is passed over with the world and the failure flag unchanged, and
    after the whole view every row that was revoked is still there and
    still revoked. *)
Theorem C4_revoked_is_left_alone :
  (forall user u table queryset f (w : World),
     get_subsidy_fulfillment_queryset user u w = (inr (table, queryset), w) ->
     get_object_or_404 to_uuid queryset u = inr f ->
     is_revoked f = true ->
     cancel_enrollment user u w
     = (inr {| status := Http.HTTP_400_BAD_REQUEST;
               data := Detail "Enrollment is already canceled." |}, w))
  /\ (forall cutoff idx modified_at af row ece (w : World),
        enterprise_course_enrollment row = Some ece ->
        is_revoked row = true ->
        expiration_item cutoff idx modified_at af row w = (inr af, w))
  /\ (forall request row (w : World),
        In row (licensed_rows w) ->
        is_revoked row = true ->
        exists row',
          In row' (licensed_rows (snd (bulk_licensed_enrollments_expiration request w)))
          /\ uuid row' = uuid row
          /\ is_revoked row' = true).
Proof.
  split; [|split].
  - intros user u table queryset f w. apply cancel_revoked.
  - intros cutoff idx modified_at af row ece w. apply expiration_item_revoked.
  - intros request row w Hin Hrev.
    eapply rows_advance_revoked; [apply expiration_view_advance | exact Hin | exact Hrev].
Qed.

(** C9 (amended).  For a requester who is not staff and is associated
    with an enterprise customer, and a string that reads as a UUID: when
    of every row with that uuid neither the enterprise enrollment nor the
    enterprise entitlement belongs to the requester's customer, fetching
    and cancelling answer 404 with the detail "No enrollment found for
    the given fulfillment source uuid." and change nothing; this is, to
    the last field, the answer given for a uuid that no row has. *)
Theorem C9_other_tenant_is_not_found
    (user : Requester) (customer s u : string) (w w0 : World) :
  is_staff user = false ->
  get_enterprise_customer_from_user_id (requester_id user) = Some customer ->
  to_uuid s = Some u ->
  (forall f, In f (learner_credit_rows w ++ licensed_rows w) ->
             uuid f = u ->
             enrollment_customer f <> Some customer
             /\ entitlement_customer f <> Some customer) ->
  absent u w0 ->
  retrieve user s w = (inr not_found_response, w)
  /\ cancel_enrollment user s w = (inr not_found_response, w)
  /\ fst (retrieve user s w) = fst (retrieve user s w0)
  /\ fst (cancel_enrollment user s w) = fst (cancel_enrollment user s w0).
Proof.
  intros Hstaff Hc Hs Hother Ha.
  assert (Hh : hidden_from
                 (get_enterprise_customer_from_user_id (requester_id user)) u w).
  { intros f Hf Hu. rewrite Hc. unfold subsidy_fulfillment_filter.
    destruct (Hother f Hf Hu) as [He Ht].
    apply orb_false_iff. split; now apply bool_decide_eq_false. }
  pose proof (absent_hidden
                (get_enterprise_customer_from_user_id (requester_id user)) u w0 Ha)
    as Hh0.
  rewrite !(retrieve_hidden user s u), !(cancel_hidden user s u) by assumption.
  repeat split.
Qed.

(** *** The history dates used by the cutoff *)

Definition later_first (a b : HistoryRow) : Prop :=
  history_date b <= history_date a.

Lemma insert_by_date_In h x l : In x (insert_by_date h l) <-> x = h \/ In x l.
Proof.
  induction l as [|y l IH]; simpl; [intuition|].
  destruct (history_date y <=? history_date h); simpl; [intuition|].
  rewrite IH. intuition.
Qed.

Lemma order_by_date_desc_In x l : In x (order_by_date_desc l) <-> In x l.
Proof.
  induction l as [|h l IH]; simpl; [tauto|].
  rewrite insert_by_date_In, IH. intuition.
Qed.

Lemma insert_by_date_sorted h l :
  StronglySorted later_first l -> StronglySorted later_first (insert_by_date h l).
Proof.
  induction 1 as [|y l Hs IH Hy]; simpl; [repeat constructor|].
  destruct (history_date y <=? history_date h) eqn:Hle.
  - apply Z.leb_le in Hle. constructor; [now constructor|].
    constructor; [exact Hle|].
    eapply Forall_impl; [exact Hy|]. intros z Hz. unfold later_first in *. lia.
  - apply Z.leb_gt in Hle. constructor; [exact IH|].
    apply Forall_forall. intros z Hz.
    apply list_elem_of_In, insert_by_date_In in Hz. destruct Hz as [->|Hz].
    + unfold later_first. lia.
    + rewrite Forall_forall in Hy. apply Hy. now apply list_elem_of_In.
Qed.

Lemma order_by_date_desc_sorted l : StronglySorted later_first (order_by_date_desc l).
Proof.
  induction l as [|h l IH]; simpl; [constructor | now apply insert_by_date_sorted].
Qed.

Definition record_date (result : gmap string Z) (history : HistoryRow)
  : gmap string Z :=
  let key := history_key (history_user_id history) (history_course_id history) in
  match result !! key with
  | None => <[ key := history_date history ]> result
  | Some _ => result
  end.

Lemma record_date_keeps result h (k : string) (t : Z) :
  result !! k = Some t -> record_date result h !! k = Some t.
Proof.
  intros Hk. unfold record_date. cbv zeta.
  destruct (result !! history_key _ _) eqn:Hh; [exact Hk|].
  rewrite lookup_insert_ne; [exact Hk|]. intros Heq. rewrite Heq in Hh. congruence.
Qed.

Lemma fold_record_date_keeps (hs : list HistoryRow) :
  forall result (k : string) (t : Z),
    result !! k = Some t -> fold_left record_date hs result !! k = Some t.
Proof.
  induction hs as [|h hs IH]; intros result k t Hk; [exact Hk|].
  simpl. apply IH. now apply record_date_keeps.
Qed.

(** In a list sorted with the latest date first, the date recorded under
    the key of an entry is at least the date of that entry. *)
Lemma fold_record_date_latest (hs : list HistoryRow) :
  StronglySorted later_first hs ->
  forall result h,
    In h hs ->
    exists t,
      fold_left record_date hs result
        !! history_key (history_user_id h) (history_course_id h) = Some t
      /\ (result !! history_key (history_user_id h) (history_course_id h) = None ->
          history_date h <= t).
Proof.
  induction 1 as [|h0 hs Hs IH Hh0]; intros result h Hin; [destruct Hin|].
  simpl. destruct Hin as [->|Hin].
  - unfold record_date at 2. cbv zeta.
    destruct (result !! history_key _ _) as [t0|] eqn:Hk.
    + exists t0. split; [now apply fold_record_date_keeps | congruence].
    + exists (history_date h). split; [|lia].
      apply fold_record_date_keeps. apply lookup_insert_eq.
  - destruct (IH (record_date result h0) h Hin) as (t & Ht & Hle).
    exists t. split; [exact Ht|]. intros Hnone.
    destruct (record_date result h0
                !! history_key (history_user_id h) (history_course_id h))
      as [t'|] eqn:Hk'; [|now apply Hle].
    (* the key was recorded by [h0], which is not older than [h] *)
    unfold record_date in Hk'. cbv zeta in Hk'.
    destruct (result !! history_key (history_user_id h0) (history_course_id h0))
      eqn:Hk0; [congruence|].
    destruct (decide (history_key (history_user_id h0) (history_course_id h0)
                      = history_key (history_user_id h) (history_course_id h)))
      as [Heq|Hne].
    + rewrite Heq, lookup_insert_eq in Hk'. injection Hk' as <-.
      assert (Hrec : record_date result h0
                       !! history_key (history_user_id h) (history_course_id h)
                     = Some (history_date h0)).
      { unfold record_date. cbv zeta. rewrite Hk0, Heq. apply lookup_insert_eq. }
      rewrite (fold_record_date_keeps hs _ _ _ Hrec) in Ht. injection Ht as <-.
      rewrite Forall_forall in Hh0. apply Hh0. now apply list_elem_of_In.
    + rewrite lookup_insert_ne in Hk' by exact Hne. congruence.
Qed.

Lemma all_enrollments_In (rows : list SubsidyFulfillment) :
  forall eces row ece,
    all_enrollments rows = Some eces -> In row rows ->
    enterprise_course_enrollment row = Some ece -> In ece eces.
Proof.
  induction rows as [|r rows IH]; intros eces row ece Hall Hin He; [destruct Hin|].
  cbn [all_enrollments] in Hall.
  destruct (enterprise_course_enrollment r) as [e0|] eqn:Hr; [|discriminate].
  destruct (all_enrollments rows) as [es|]; [|discriminate].
  injection Hall as <-. destruct Hin as [->|Hin].
  - left. congruence.
  - right. eapply IH; eauto.
Qed.

(** A licensed enrollment that is not revoked and whose course enrollment
    has a history entry dated at or after the cutoff (a date with a UTC offset) is passed over: the
    world and the failure flag are unchanged. *)
Lemma modified_past_cutoff_is_skipped
    (rows : list SubsidyFulfillment) (w : World) (cutoff : Z)
    (idx : gmap string CourseOverview) (af : bool)
    (row : SubsidyFulfillment) (ece : EnterpriseCourseEnrollment) (h : HistoryRow) :
  (exists eces, all_enrollments rows = Some eces) ->
  In row rows ->
  enterprise_course_enrollment row = Some ece ->
  is_revoked row = false ->
  In h (course_enrollment_history (platform w)) ->
  history_user_id h = user_id (enterprise_customer_user ece) ->
  history_course_id h = course_id ece ->
  cutoff <= history_date h ->
  exists modified_at,
    _course_enrollment_modified_at_by_user_and_course_id rows w
    = (inr modified_at, w)
    /\ expiration_item (Some (Aware cutoff)) idx modified_at af row w
       = (inr af, w).
Proof.
  intros (eces & Hall) Hin He Hr Hh Hu Hc Hcut.
  unfold _course_enrollment_modified_at_by_user_and_course_id.
  rewrite Hall. unfold bind, reads, ret. eexists. split; [reflexivity|].
  apply (expiration_item_skipped _ _ _ _ _ ece); [exact He | exact Hr |].
  unfold skip_decision.
  match goal with
  | |- context [first_date_per_key (order_by_date_desc ?l)] => set (hs := l)
  end.
  assert (Hhs : In h (order_by_date_desc hs)).
  { apply order_by_date_desc_In. unfold hs. apply filter_In. split; [exact Hh|].
    pose proof (all_enrollments_In rows eces row ece Hall Hin He) as Hece.
    apply andb_true_iff. split; apply existsb_exists.
    - exists (user_id (enterprise_customer_user ece)). split.
      + apply in_map_iff. now exists ece.
      + apply Z.eqb_eq. exact Hu.
    - exists (course_id ece). split.
      + apply in_map_iff. now exists ece.
      + apply String.eqb_eq. exact Hc. }
  destruct (fold_record_date_latest _ (order_by_date_desc_sorted hs) ∅ h Hhs)
    as (t & Ht & Hle).
  rewrite Hu, Hc in Ht, Hle. unfold first_date_per_key.
  change (fun result history => _) with record_date. rewrite Ht.
  cbn [aware_ge]. f_equal. apply Z.leb_le. specialize (Hle (lookup_empty _)). lia.
Qed.

(** *** Further properties of the fulfillment views *)

(** The query of [get_subsidy_fulfillment_queryset] as a function of the
    two tables. *)
Definition tenant_filtered (user : Requester) (u : string)
    (table_rows : list SubsidyFulfillment) : list SubsidyFulfillment :=
  if is_staff user then rows_with_uuid u table_rows
  else List.filter
         (subsidy_fulfillment_filter
            (get_enterprise_customer_from_user_id (requester_id user)))
         (rows_with_uuid u table_rows).

Lemma queryset_run (user : Requester) s (w : World) :
  get_subsidy_fulfillment_queryset user s w
  = match to_uuid s with
    | None => (inl DjangoValidationError, w)
    | Some u =>
        (if nonempty (tenant_filtered user u (learner_credit_rows w))
         then inr (LearnerCredit, tenant_filtered user u (learner_credit_rows w))
         else if nonempty (tenant_filtered user u (licensed_rows w))
         then inr (Licensed, tenant_filtered user u (licensed_rows w))
         else inl (ValidationError not_found_detail), w)
    end.
Proof.
  unfold get_subsidy_fulfillment_queryset, tenant_filtered, bind, reads, lift,
    filter_uuid.
  destruct (to_uuid s) as [u|]; [|reflexivity].
  destruct (is_staff user);
    destruct (nonempty _); try reflexivity; destruct (nonempty _); reflexivity.
Qed.

Lemma serializer_class_run s (w : World) :
  snd (get_subsidy_fulfillment_serializer_class s w) = w.
Proof.
  unfold get_subsidy_fulfillment_serializer_class, bind, reads, lift,
    filter_uuid.
  destruct (to_uuid s) as [u|]; [|reflexivity].
  destruct (nonempty _); [reflexivity|]. destruct (nonempty _); reflexivity.
Qed.

Lemma get_object_parsed s u (queryset : list SubsidyFulfillment) :
  to_uuid s = Some u ->
  get_object_or_404 to_uuid queryset s
  = match rows_with_uuid u queryset with
    | [] => inl Http404
    | [f] => inr f
    | _ :: _ :: _ => inl MultipleObjectsReturned
    end.
Proof.
  intros Hs. unfold get_object_or_404, filter_uuid. rewrite Hs.
  now destruct (rows_with_uuid u queryset) as [|f [|f' l]].
Qed.

Lemma rows_with_uuid_idem u (l : list SubsidyFulfillment) :
  rows_with_uuid u (rows_with_uuid u l) = rows_with_uuid u l.
Proof.
  unfold rows_with_uuid. induction l as [|f l IH]; simpl; [reflexivity|].
  destruct (String.eqb (uuid f) u) eqn:Hf; simpl; [|exact IH].
  now rewrite Hf, IH.
Qed.

Lemma rows_with_uuid_tenant user u (l : list SubsidyFulfillment) :
  rows_with_uuid u (tenant_filtered user u l) = tenant_filtered user u l.
Proof.
  unfold tenant_filtered. destruct (is_staff user); [apply rows_with_uuid_idem|].
  unfold rows_with_uuid. induction l as [|f l IH]; simpl; [reflexivity|].
  destruct (String.eqb (uuid f) u) eqn:Hf; simpl; [|exact IH].
  destruct (subsidy_fulfillment_filter _ f); simpl; [|exact IH].
  now rewrite Hf, IH.
Qed.

(** X6.  Fetching reads and never writes: whatever the requester and the
    string given for the uuid, [retrieve] leaves every row, the platform
    and the trace as they were.  For a string that reads as the UUID [u]:
    a staff requester is given the learner-credit row with the uuid [u]
    whatever customer it belongs to; a requester who is not staff is
    given it when its enrollment or its entitlement belongs to the
    requester's customer; the licensed table is consulted only when the
    learner-credit table has no visible row with the uuid. *)
Theorem retrieve_reads_visible_rows :
  (forall user s (w : World), snd (retrieve user s w) = w)
  /\ (forall user s u f (w : World),
        to_uuid s = Some u ->
        tenant_filtered user u (learner_credit_rows w) = [f] ->
        retrieve user s w
        = (inr {| status := Http.HTTP_200_OK;
                  data := Serialized LearnerCredit f |}, w))
  /\ (forall user s u f (w : World),
        to_uuid s = Some u ->
        rows_with_uuid u (learner_credit_rows w) = [] ->
        tenant_filtered user u (licensed_rows w) = [f] ->
        retrieve user s w
        = (inr {| status := Http.HTTP_200_OK;
                  data := Serialized Licensed f |}, w))
  /\ (forall user u f,
        is_staff user = true \/
        subsidy_fulfillment_filter
          (get_enterprise_customer_from_user_id (requester_id user)) f = true ->
        forall rows, rows_with_uuid u rows = [f] ->
                     tenant_filtered user u rows = [f]).
Proof.
  split; [|split; [|split]].
  - intros user s w. unfold retrieve, try_except.
    match goal with
    | |- snd (match ?body w with _ => _ end) = w =>
        assert (Hbody : snd (body w) = w); [|destruct (body w) as [[e|r] w1]]
    end.
    + unfold bind at 1. rewrite queryset_run.
      destruct (to_uuid s) as [u|]; [|reflexivity].
      destruct (nonempty (tenant_filtered user u (learner_credit_rows w)));
        [|destruct (nonempty (tenant_filtered user u (licensed_rows w)));
          [|reflexivity]];
        unfold bind at 1, lift; cbn [snd];
        (destruct (get_object_or_404 _ _ s); [reflexivity|]);
        unfold bind; pose proof (serializer_class_run s w) as Hs;
        (destruct (get_subsidy_fulfillment_serializer_class s w) as [[e|t] w1]);
        exact Hs.
    + cbn [snd] in Hbody. subst w1. destruct e; reflexivity.
    + exact Hbody.
  - intros user s u f w Hs Hq. unfold retrieve, try_except. unfold bind at 1.
    rewrite queryset_run, Hs, Hq. cbn [nonempty snd]. unfold bind at 1, lift.
    rewrite (get_object_parsed s u _ Hs).
    rewrite <- Hq, rows_with_uuid_tenant, Hq.
    unfold bind, get_subsidy_fulfillment_serializer_class, bind, reads, lift,
      filter_uuid. rewrite Hs.
    assert (Hne : nonempty (rows_with_uuid u (learner_credit_rows w)) = true).
    { unfold tenant_filtered in Hq. destruct (is_staff user); [now rewrite Hq|].
      destruct (rows_with_uuid u (learner_credit_rows w)); [discriminate|reflexivity]. }
    rewrite Hne. reflexivity.
  - intros user s u f w Hs Hlc Hq. unfold retrieve, try_except. unfold bind at 1.
    rewrite queryset_run, Hs.
    assert (Hlc' : tenant_filtered user u (learner_credit_rows w) = []).
    { unfold tenant_filtered. rewrite Hlc. now destruct (is_staff user). }
    rewrite Hlc', Hq. cbn [nonempty snd]. unfold bind at 1, lift.
    rewrite (get_object_parsed s u _ Hs).
    rewrite <- Hq, rows_with_uuid_tenant, Hq.
    unfold bind, get_subsidy_fulfillment_serializer_class, bind, reads, lift,
      filter_uuid. rewrite Hs.
    rewrite Hlc. cbn [nonempty].
    assert (Hne : nonempty (rows_with_uuid u (licensed_rows w)) = true).
    { unfold tenant_filtered in Hq. destruct (is_staff user); [now rewrite Hq|].
      destruct (rows_with_uuid u (licensed_rows w)); [discriminate|reflexivity]. }
    rewrite Hne. reflexivity.
  - intros user u f Hvis rows Hrows. unfold tenant_filtered. rewrite Hrows.
    destruct (is_staff user); [reflexivity|]. destruct Hvis as [Hv|Hv];
      [discriminate|]. cbn [List.filter]. now rewrite Hv.
Qed.

(** Cancelling a fulfillment that the query finds not revoked. *)
Definition cancel_call (f_ece : EnterpriseCourseEnrollment) (w : World)
  : option string * Platform :=
  update_enrollment (username (enterprise_customer_user f_ece)) (course_id f_ece)
    None (Some false) (platform w).

Lemma cancel_found (user : Requester) u (w : World) table queryset f ece :
  get_subsidy_fulfillment_queryset user u w = (inr (table, queryset), w) ->
  get_object_or_404 to_uuid queryset u = inr f ->
  is_revoked f = false ->
  enterprise_course_enrollment f = Some ece ->
  cancel_enrollment user u w
  = match fst (cancel_call ece w) with
    | None =>
        (inr {| status := Http.HTTP_200_OK; data := NoData |},
         revoke table (uuid f)
           (with_platform (snd (cancel_call ece w))
              [UpdateEnrollment (username (enterprise_customer_user ece))
                 (course_id ece) None (Some false) None] w))
    | Some reason =>
        (inr {| status := Http.HTTP_500_INTERNAL_SERVER_ERROR;
                data := Message
                  (cancel_error_message (username (enterprise_customer_user ece))
                     (course_id ece) reason) |},
         with_platform (snd (cancel_call ece w))
           [UpdateEnrollment (username (enterprise_customer_user ece))
              (course_id ece) None (Some false) (Some reason)] w)
    end.
Proof.
  intros Hq Hg Hr He. unfold cancel_enrollment.
  unfold bind at 1. unfold try_except. unfold bind at 1.
  rewrite Hq. cbn [snd fst]. unfold bind at 1, lift. rewrite Hg, Hr.
  unfold ret at 1. cbv beta iota. rewrite He.
  unfold bind at 1, call_update_enrollment, cancel_call.
  destruct (update_enrollment _ _ _ _ _) as [[reason|] p']; reflexivity.
Qed.

(** X7.  Cancelling a fulfillment that is found and not yet revoked makes
    exactly one call to the enrollment API, with [is_active=False] for the
    learner and course of its enrollment.  When the call returns, the
    fulfillment is revoked and the answer is 200; when it raises, the
    answer is 500 with a message naming the learner, the course and the
    reason, nothing is revoked and no row changes. *)
Theorem cancel_revokes_after_update
    (user : Requester) (u : string) (w : World) table queryset f ece :
  get_subsidy_fulfillment_queryset user u w = (inr (table, queryset), w) ->
  get_object_or_404 to_uuid queryset u = inr f ->
  is_revoked f = false ->
  enterprise_course_enrollment f = Some ece ->
  let learner := username (enterprise_customer_user ece) in
  let raised := fst (cancel_call ece w) in
  let w' := snd (cancel_enrollment user u w) in
  new_calls w w'
  = UpdateEnrollment learner (course_id ece) None (Some false) raised
    :: match raised with None => [Revoke table (uuid f)] | Some _ => [] end
  /\ fst (cancel_enrollment user u w)
     = inr match raised with
           | None => {| status := Http.HTTP_200_OK; data := NoData |}
           | Some reason =>
               {| status := Http.HTTP_500_INTERNAL_SERVER_ERROR;
                  data := Message
                    (cancel_error_message learner (course_id ece) reason) |}
           end
  /\ rows table w'
     = match raised with
       | None => List.map (revoke_row (uuid f)) (rows table w)
       | Some _ => rows table w
       end.
Proof.
  intros Hq Hg Hr He. cbv zeta.
  rewrite (cancel_found user u w table queryset f ece Hq Hg Hr He).
  destruct (fst (cancel_call ece w)) as [reason|]; cbn [fst snd].
  - rewrite new_calls_with_platform. repeat split.
  - split; [|split; [reflexivity | now destruct table]].
    apply new_calls_app. rewrite trace_revoke, trace_with_platform.
    now rewrite <- app_assoc.
Qed.

(** Revoking commutes with the query. *)
Lemma rows_with_uuid_revoke u (l : list SubsidyFulfillment) :
  rows_with_uuid u (List.map (revoke_row u) l) = List.map set_revoked (rows_with_uuid u l).
Proof.
  unfold rows_with_uuid, revoke_row. induction l as [|f l IH]; simpl; [reflexivity|].
  destruct (String.eqb (uuid f) u) eqn:Hf; simpl; rewrite Hf; simpl; now rewrite IH.
Qed.

Lemma tenant_filter_set_revoked c (l : list SubsidyFulfillment) :
  List.filter (subsidy_fulfillment_filter c) (List.map set_revoked l)
  = List.map set_revoked (List.filter (subsidy_fulfillment_filter c) l).
Proof.
  induction l as [|f l IH]; simpl; [reflexivity|].
  change (subsidy_fulfillment_filter c (set_revoked f))
    with (subsidy_fulfillment_filter c f).
  destruct (subsidy_fulfillment_filter c f); simpl; now rewrite IH.
Qed.

Lemma tenant_filtered_revoke user u (l : list SubsidyFulfillment) :
  tenant_filtered user u (List.map (revoke_row u) l)
  = List.map set_revoked (tenant_filtered user u l).
Proof.
  unfold tenant_filtered. rewrite rows_with_uuid_revoke.
  destruct (is_staff user); [reflexivity | apply tenant_filter_set_revoked].
Qed.

Lemma nonempty_map {A B} (g : A -> B) (l : list A) :
  nonempty (List.map g l) = nonempty l.
Proof. now destruct l. Qed.

Lemma queryset_after_revoke (user : Requester) s u (w : World)
    table queryset p extra :
  to_uuid s = Some u ->
  get_subsidy_fulfillment_queryset user s w = (inr (table, queryset), w) ->
  get_subsidy_fulfillment_queryset user s (revoke table u (with_platform p extra w))
  = (inr (table, List.map set_revoked queryset),
     revoke table u (with_platform p extra w)).
Proof.
  intros Hs. rewrite !queryset_run, Hs. intros Hq.
  destruct (nonempty (tenant_filtered user u (learner_credit_rows w))) eqn:Hlc.
  - injection Hq as <- <-. cbn [revoke learner_credit_rows with_platform].
    now rewrite tenant_filtered_revoke, nonempty_map, Hlc.
  - destruct (nonempty (tenant_filtered user u (licensed_rows w))) eqn:Hlic;
      [|discriminate].
    injection Hq as <- <-.
    cbn [revoke learner_credit_rows licensed_rows with_platform].
    now rewrite Hlc, tenant_filtered_revoke, nonempty_map, Hlic.
Qed.

(** X8.  Cancelling twice: after a cancellation that succeeded, a second
    cancellation of the same uuid by the same requester answers 400
    "Enrollment is already canceled." and changes nothing; in particular
    it makes no second call to the enrollment API. *)
Theorem cancel_twice_is_rejected
    (user : Requester) (u : string) (w : World) table queryset f ece :
  get_subsidy_fulfillment_queryset user u w = (inr (table, queryset), w) ->
  get_object_or_404 to_uuid queryset u = inr f ->
  is_revoked f = false ->
  enterprise_course_enrollment f = Some ece ->
  fst (cancel_call ece w) = None ->
  let w1 := snd (cancel_enrollment user u w) in
  fst (cancel_enrollment user u w)
  = inr {| status := Http.HTTP_200_OK; data := NoData |}
  /\ cancel_enrollment user u w1
     = (inr {| status := Http.HTTP_400_BAD_REQUEST;
               data := Detail "Enrollment is already canceled." |}, w1).
Proof.
  intros Hq Hg Hr He Hok. cbv zeta.
  rewrite (cancel_found user u w table queryset f ece Hq Hg Hr He), Hok.
  cbn [fst snd]. split; [reflexivity|].
  destruct (to_uuid u) as [cu|] eqn:Hs.
  2:{ rewrite queryset_run, Hs in Hq. discriminate. }
  rewrite (get_object_parsed u cu _ Hs) in Hg.
  assert (Hu : uuid f = cu).
  { destruct (rows_with_uuid cu queryset) as [|f0 [|f1 l]] eqn:Hf; try discriminate.
    injection Hg as ->.
    assert (Hin : In f (rows_with_uuid cu queryset)) by (rewrite Hf; now left).
    unfold rows_with_uuid in Hin. apply filter_In in Hin.
    now apply String.eqb_eq. }
  rewrite Hu.
  apply (cancel_revoked user u _ table (List.map set_revoked queryset) (set_revoked f)).
  - now apply queryset_after_revoke.
  - rewrite (get_object_parsed u cu _ Hs).
    assert (Hmap : rows_with_uuid cu (List.map set_revoked queryset)
                   = List.map set_revoked (rows_with_uuid cu queryset)).
    { unfold rows_with_uuid. clear. induction queryset as [|g l IH]; simpl;
        [reflexivity|].
      destruct (String.eqb (uuid g) cu); simpl; now rewrite IH. }
    rewrite Hmap.
    destruct (rows_with_uuid cu queryset) as [|f0 [|f1 l]]; try discriminate.
    now injection Hg as ->.
  - reflexivity.
Qed.

(** *** Further properties of the licensed-enrollment views *)

(** X9.  A request that is refused is refused before anything is read
    or changed.  [license_revoke] answers 400 when [user_id] is missing
    or 0 or [enterprise_id] is missing or empty; it raises django's
    [ValidationError] when [enterprise_id] does not read as a UUID, and
    [Http404] when it reads as the uuid of a customer that has no
    customer user with the user id.  The bulk expiration answers 400
    without license uuids and for a cutoff that is not well formatted; it
    raises [ValueError] for a cutoff that is well formatted but names no
    date, and django's [ValidationError] when one of the license uuids
    does not read as a UUID.  In every one of these cases the world is
    left as it was.  An empty cutoff string counts as no cutoff. *)
Theorem rejected_requests_change_nothing :
  (forall request (w : World),
     truthy_id (revoke_user_id request)
     && truthy_str (revoke_enterprise_id request) = false ->
     license_revoke request w
     = (inr {| status := Http.HTTP_400_BAD_REQUEST;
               data := Message "user_id and enterprise_id must be provided." |},
        w))
  /\ (forall request (w : World),
        truthy_id (revoke_user_id request)
        && truthy_str (revoke_enterprise_id request) = true ->
        to_uuid (default "" (revoke_enterprise_id request)) = None ->
        license_revoke request w = (inl DjangoValidationError, w))
  /\ (forall request (w : World) customer,
        truthy_id (revoke_user_id request)
        && truthy_str (revoke_enterprise_id request) = true ->
        to_uuid (default "" (revoke_enterprise_id request)) = Some customer ->
        (forall ecu, In ecu (customer_users w) ->
           user_id ecu = default 0 (revoke_user_id request) ->
           enterprise_customer ecu <> customer) ->
        license_revoke request w = (inl Http404, w))
  /\ (forall request (w : World),
        expired_license_uuids request = [] ->
        bulk_licensed_enrollments_expiration request w
        = (inr {| status := Http.HTTP_400_BAD_REQUEST;
                  data := Message
                    "Parameter expired_license_uuids must be provided" |}, w))
  /\ (forall request (w : World) s,
        expired_license_uuids request <> [] ->
        ignore_enrollments_modified_after request = Some s ->
        s <> "" ->
        parse_datetime s = NotWellFormatted ->
        bulk_licensed_enrollments_expiration request w
        = (inr {| status := Http.HTTP_400_BAD_REQUEST;
                  data := Message
                    "Parameter ignore_enrollments_modified_after is malformed, please provide a date in ISO-8601 format" |},
           w))
  /\ (forall request (w : World) s,
        expired_license_uuids request <> [] ->
        ignore_enrollments_modified_after request = Some s ->
        s <> "" ->
        parse_datetime s = NoSuchDate ->
        bulk_licensed_enrollments_expiration request w = (inl ValueError, w))
  /\ (forall request (w : World) value,
        cutoff_impossible request = false ->
        cutoff_malformed request = false ->
        In value (expired_license_uuids request) ->
        to_uuid value = None ->
        bulk_licensed_enrollments_expiration request w
        = (inl DjangoValidationError, w))
  /\ (forall uuids (w : World),
        bulk_licensed_enrollments_expiration
          {| expired_license_uuids := uuids;
             ignore_enrollments_modified_after := Some "" |} w
        = bulk_licensed_enrollments_expiration
            {| expired_license_uuids := uuids;
               ignore_enrollments_modified_after := None |} w).
Proof.
  assert (Hgiven : forall request s,
             ignore_enrollments_modified_after request = Some s -> s <> "" ->
             truthy_str (ignore_enrollments_modified_after request) = true
             /\ the_parse request = parse_datetime s).
  { intros request s0 Hs Hs0. unfold the_parse. rewrite Hs. cbn.
    apply String.eqb_neq in Hs0. now rewrite Hs0. }
  repeat apply conj.
  - intros request w Hbad. unfold license_revoke, _validate_license_revoke_data.
    apply andb_false_iff in Hbad.
    destruct Hbad as [-> | ->]; cbn; [reflexivity|].
    now rewrite orb_true_r.
  - intros request w Hok Hnone. apply andb_true_iff in Hok.
    destruct Hok as [Hu He].
    unfold license_revoke, _validate_license_revoke_data. rewrite Hu, He.
    cbn [negb orb]. unfold bind at 1.
    unfold get_customer_user_or_404, bind, reads. now rewrite Hnone.
  - intros request w customer Hok Hsome Hnone. apply andb_true_iff in Hok.
    destruct Hok as [Hu He].
    unfold license_revoke, _validate_license_revoke_data. rewrite Hu, He.
    cbn [negb orb]. unfold bind at 1.
    unfold get_customer_user_or_404, bind, reads. rewrite Hsome.
    rewrite filter_nil_of_false; [reflexivity|].
    intros ecu Hin. apply andb_false_iff.
    destruct (user_id ecu =? default 0 (revoke_user_id request)) eqn:Hid;
      [right | now left].
    apply Z.eqb_eq in Hid. apply String.eqb_neq. now apply Hnone.
  - intros request w Hempty. rewrite expiration_view_cases.
    now rewrite Hempty.
  - intros request w s0 Hne Hs Hs0 Hparse. rewrite expiration_view_cases.
    destruct (Hgiven request s0 Hs Hs0) as [Ht Hp].
    unfold cutoff_impossible, cutoff_malformed. rewrite Ht, Hp, Hparse.
    destruct (expired_license_uuids request); [contradiction|]. reflexivity.
  - intros request w s0 Hne Hs Hs0 Hparse. rewrite expiration_view_cases.
    destruct (Hgiven request s0 Hs Hs0) as [Ht Hp].
    unfold cutoff_impossible. rewrite Ht, Hp, Hparse.
    destruct (expired_license_uuids request); [contradiction|]. reflexivity.
  - intros request w value Himp Hmal Hin Hnone. rewrite expiration_view_cases.
    rewrite Himp, Hmal.
    assert (Hne : nonempty (expired_license_uuids request) = true)
      by (destruct (expired_license_uuids request); [destruct Hin | reflexivity]).
    rewrite Hne. cbn [negb].
    assert (Hread : uuids_readable request = false).
    { unfold uuids_readable.
      destruct (to_uuids (expired_license_uuids request)) as [e|us] eqn:Hus;
        [reflexivity|].
      assert (Hall : forall v, In v (expired_license_uuids request) ->
                               is_Some (to_uuid v)).
      { revert us Hus. clear.
        induction (expired_license_uuids request) as [|v0 rest IH];
          intros us Hus v Hv; [destruct Hv|].
        cbn in Hus. destruct (to_uuid v0) as [u0|] eqn:Hv0; [|discriminate].
        destruct (to_uuids rest) as [e|us0]; [discriminate|].
        destruct Hv as [<-|Hv]; [now exists u0 | now apply (IH us0)]. }
      destruct (Hall value Hin) as [u Hu]. congruence. }
    now rewrite Hread.
  - intros uuids w. reflexivity.
Qed.

(** The rows after the revocations [us]. *)
Definition mark_revoked (us : list string) (row : SubsidyFulfillment)
  : SubsidyFulfillment :=
  if existsb (String.eqb (uuid row)) us then set_revoked row else row.

Lemma mark_revoked_nil (l : list SubsidyFulfillment) :
  List.map (mark_revoked []) l = l.
Proof. apply List.map_id. Qed.

Lemma mark_revoked_one u (l : list SubsidyFulfillment) :
  List.map (revoke_row u) l = List.map (mark_revoked [u]) l.
Proof.
  apply List.map_ext. intros row. unfold revoke_row, mark_revoked. cbn.
  now rewrite orb_false_r.
Qed.

Lemma mark_revoked_app us1 us2 (l : list SubsidyFulfillment) :
  List.map (mark_revoked us2) (List.map (mark_revoked us1) l)
  = List.map (mark_revoked (us1 ++ us2)) l.
Proof.
  rewrite List.map_map. apply List.map_ext. intros row.
  unfold mark_revoked. rewrite existsb_app.
  destruct (existsb (String.eqb (uuid row)) us1); cbn [orb].
  - change (uuid (set_revoked row)) with (uuid row).
    now destruct (existsb (String.eqb (uuid row)) us2).
  - reflexivity.
Qed.

(** A call made on behalf of one of the rows: the revocation of a row
    that was not revoked, or an enrollment update for the learner of its
    enrollment and the course of the overview found for it. *)
Definition call_from (idx : gmap string CourseOverview)
    (rows : list SubsidyFulfillment) (c : Call) : Prop :=
  exists row ece,
    In row rows
    /\ enterprise_course_enrollment row = Some ece
    /\ is_revoked row = false
    /\ (c = Revoke Licensed (uuid row)
        \/ exists overview mode active raised,
             idx !! course_id ece = Some overview
             /\ c = UpdateEnrollment (username (enterprise_customer_user ece))
                      (overview_id overview) mode active raised).

(** What a view or a loop may have done to the world, when each of its
    calls is one that [P] allows. *)
Record Effects (P : Call -> Prop) (w w' : World) : Prop := {
  eff_trace : exists extra,
      trace w' = trace w ++ extra
      /\ Forall P extra
      /\ licensed_rows w'
         = List.map (mark_revoked (revokes extra)) (licensed_rows w);
  eff_learner_credit : learner_credit_rows w' = learner_credit_rows w;
  eff_customer_users : customer_users w' = customer_users w;
}.

Lemma effects_refl P (w : World) : Effects P w w.
Proof.
  split; [|reflexivity..]. exists []. rewrite app_nil_r.
  split; [reflexivity|]. split; [constructor|]. cbn. now rewrite mark_revoked_nil.
Qed.

Lemma call_from_mono idx rows rows' c :
  incl rows rows' -> call_from idx rows c -> call_from idx rows' c.
Proof.
  intros Hincl (row & ece & Hin & H). exists row, ece. split; [now apply Hincl|].
  exact H.
Qed.

Lemma effects_trans P (w1 w2 w3 : World) :
  Effects P w1 w2 -> Effects P w2 w3 -> Effects P w1 w3.
Proof.
  intros [(x & Hx & Hfx & Hrx) Hl12 Hc12] [(y & Hy & Hfy & Hry) Hl23 Hc23].
  split; [|congruence..].
  exists (x ++ y). rewrite Hy, Hx, <- app_assoc. split; [reflexivity|].
  split; [now apply Forall_app|].
  rewrite Hry, Hrx, mark_revoked_app. unfold revokes. now rewrite flat_map_app.
Qed.

Lemma effects_mono (P Q : Call -> Prop) (w w' : World) :
  (forall c, P c -> Q c) -> Effects P w w' -> Effects Q w w'.
Proof.
  intros HPQ [(x & Hx & Hfx & Hrx) Hl Hc]. split; [|assumption..].
  exists x. split; [exact Hx|]. split; [|exact Hrx].
  eapply Forall_impl; [exact Hfx | exact HPQ].
Qed.

Lemma effects_update P p c (w : World) :
  P c -> revokes [c] = [] -> Effects P w (with_platform p [c] w).
Proof.
  intros Hc Hr. split; [|reflexivity..]. exists [c].
  split; [reflexivity|]. split; [now constructor|].
  rewrite Hr. cbn [with_platform licensed_rows]. now rewrite mark_revoked_nil.
Qed.

Lemma effects_revoke (P : Call -> Prop) u (w : World) :
  P (Revoke Licensed u) -> Effects P w (revoke Licensed u w).
Proof.
  intros Hc. split; [|reflexivity..]. exists [Revoke Licensed u].
  split; [reflexivity|]. split; [now constructor|].
  cbn [revoke licensed_rows]. apply mark_revoked_one.
Qed.

(** A termination makes at most one call, an enrollment update for the
    learner of the enrollment and the course of the overview. *)
Lemma terminate_effects (P : Call -> Prop) ece overview (w : World) :
  (forall mode active raised,
     P (UpdateEnrollment (username (enterprise_customer_user ece))
          (overview_id overview) mode active raised)) ->
  Effects P w (snd (_terminate_enrollment (Some ece) (Some overview) w)).
Proof.
  intros Hcall. rewrite terminate_unfold.
  destruct (completed_on (platform w) ece overview); [apply effects_refl|].
  destruct (mode_for_course (overview_id overview) AUDIT (platform w));
    cbn [snd]; now apply effects_update.
Qed.

Lemma expiration_item_effects cutoff idx modified_at af row (w : World) :
  Effects (call_from idx [row]) w
    (snd (expiration_item cutoff idx modified_at af row w)).
Proof.
  unfold expiration_item.
  destruct (enterprise_course_enrollment row) as [ece|] eqn:He;
    [|apply effects_refl].
  destruct (is_revoked row) eqn:Hr; [apply effects_refl|].
  unfold bind at 1. rewrite modified_past_cutoff_run.
  destruct (skip_decision _ _ _ _) as [e|[|]];
    [apply effects_refl | apply effects_refl |].
  assert (Hrev : call_from idx [row] (Revoke Licensed (uuid row))).
  { exists row, ece. split; [now left|]. split; [exact He|]. split; [exact Hr|].
    now left. }
  unfold try_except. unfold bind at 1.
  destruct (idx !! course_id ece) as [overview|] eqn:Ho;
    [|apply effects_refl].
  assert (Ht : Effects (call_from idx [row]) w
                 (snd (_terminate_enrollment (Some ece) (Some overview) w))).
  { apply terminate_effects. intros mode active raised. exists row, ece.
    split; [now left|]. split; [exact He|]. split; [exact Hr|].
    right. now exists overview, mode, active, raised. }
  destruct (_terminate_enrollment (Some ece) (Some overview) w)
    as [[e|st] w1]; cbn [snd] in Ht.
  - destruct e; exact Ht.
  - destruct st; cbn; try exact Ht;
      (eapply effects_trans; [exact Ht|]; now apply effects_revoke).
Qed.

Lemma expiration_loop_effects cutoff idx modified_at (rows : list SubsidyFulfillment) :
  forall af (w : World),
    Effects (call_from idx rows) w
      (snd (for_each (expiration_item cutoff idx modified_at) rows af w)).
Proof.
  induction rows as [|row rows IH]; intros af w; [apply effects_refl|].
  cbn [for_each]. unfold bind.
  pose proof (expiration_item_effects cutoff idx modified_at af row w) as Hstep.
  apply (effects_mono _ (call_from idx (row :: rows))) in Hstep.
  2:{ intros c. apply call_from_mono. intros x [<-|[]]. now left. }
  destruct (expiration_item cutoff idx modified_at af row w) as [[e|af1] w1];
    cbn [snd] in *; [exact Hstep|].
  eapply effects_trans; [exact Hstep|].
  eapply effects_mono; [|apply IH].
  intros c. apply call_from_mono. intros x Hx. now right.
Qed.

Lemma expiration_view_effects (request : ExpirationRequest) (w : World) :
  Effects (call_from (the_index request w) (selected_rows request w)) w
    (snd (bulk_licensed_enrollments_expiration request w)).
Proof.
  apply (expiration_view_invariant
           (Effects (call_from (the_index request w) (selected_rows request w)) w)).
  - apply effects_refl.
  - intros modified_at af. apply expiration_loop_effects.
Qed.

Lemma the_license_uuids_In (request : ExpirationRequest) u :
  In u (the_license_uuids request) ->
  exists value,
    In value (expired_license_uuids request) /\ to_uuid value = Some u.
Proof.
  unfold the_license_uuids.
  destruct (to_uuids (expired_license_uuids request)) as [e|us] eqn:Hus;
    [intros []|].
  intros Hin. now apply (to_uuids_In _ us u Hus).
Qed.

Lemma revokes_call_from idx rows extra u :
  Forall (call_from idx rows) extra -> In u (revokes extra) ->
  exists row, In row rows /\ uuid row = u /\ is_revoked row = false.
Proof.
  intros Hf Hu. unfold revokes in Hu. apply in_flat_map in Hu.
  destruct Hu as (c & Hc & Hu).
  rewrite Forall_forall in Hf. apply list_elem_of_In in Hc.
  destruct (Hf c Hc) as (row & ece & Hin & He & Hr & [-> | Hupd]).
  - destruct Hu as [<-|[]]. now exists row.
  - destruct Hupd as (o & m & a & r & _ & ->). destruct Hu.
Qed.

(** X10.  The bulk-expiration view, whatever it answers and even when it
    raises, changes nothing but the licensed rows it selected: the
    learner-credit rows and the customer users are as before; the licensed
    rows after the request are the rows before it with exactly the
    revocations of the trace applied; every call it makes is made for a
    selected row that was not revoked and has an enrollment (an update of
    that learner's enrollment in the course of the overview found for it,
    or the revocation of that row); and every row it revokes was a
    licensed row that was not revoked before and whose license uuid is
    the UUID that one of the strings of the request reads as. *)
Theorem sweep_touches_only_selected_rows
    (request : ExpirationRequest) (w : World) :
  let w' := snd (bulk_licensed_enrollments_expiration request w) in
  learner_credit_rows w' = learner_credit_rows w
  /\ customer_users w' = customer_users w
  /\ trace w' = trace w ++ new_calls w w'
  /\ licensed_rows w'
     = List.map (mark_revoked (revokes (new_calls w w'))) (licensed_rows w)
  /\ Forall (call_from (the_index request w) (selected_rows request w))
       (new_calls w w')
  /\ (forall u, In u (revokes (new_calls w w')) ->
        exists row value,
          In row (licensed_rows w) /\ uuid row = u /\ is_revoked row = false
          /\ In value (expired_license_uuids request)
          /\ to_uuid value = Some (source_ref row)).
Proof.
  cbv zeta.
  destruct (expiration_view_effects request w) as [(x & Hx & Hfx & Hrx) Hl Hc].
  rewrite (new_calls_app _ _ _ Hx).
  repeat split; try assumption.
  intros u Hu.
  destruct (revokes_call_from _ _ _ _ Hfx Hu) as (row & Hin & Huuid & Hr).
  unfold selected_rows in Hin. apply filter_In in Hin. destruct Hin as [Hin Hsel].
  apply existsb_exists in Hsel. destruct Hsel as (v & Hv & Heq).
  apply String.eqb_eq in Heq.
  destruct (the_license_uuids_In request v Hv) as (value & Hvalue & Hparse).
  exists row, value. repeat split; try assumption. congruence.
Qed.

Lemma for_each_app {A S} (body : S -> A -> ME World S) (l1 l2 : list A) :
  forall acc (w : World),
    for_each body (l1 ++ l2) acc w
    = bind (for_each body l1 acc) (for_each body l2) w.
Proof.
  induction l1 as [|x l1 IH]; intros acc w; [reflexivity|].
  cbn [app for_each]. unfold bind.
  destruct (body acc x w) as [[e|acc1] w1]; [reflexivity|].
  rewrite IH. reflexivity.
Qed.

Lemma expiration_item_unsafe_run cutoff idx modified_at af row (w : World) :
  row_safe cutoff idx modified_at row = false ->
  exists e,
    expiration_item cutoff idx modified_at af row w = (inl e, w)
    /\ is_enrollment_modification e = false.
Proof.
  unfold row_safe, expiration_item. intros Hsafe.
  destruct (enterprise_course_enrollment row) as [ece|];
    [|now exists AttributeError].
  destruct (is_revoked row); [discriminate|]. cbn [orb] in Hsafe.
  unfold bind at 1. rewrite modified_past_cutoff_run.
  destruct (skip_decision _ _ _ _) as [e|[|]] eqn:Hs; [|discriminate|].
  - exists e. split; [reflexivity|]. now apply skip_decision_error in Hs.
  - apply bool_decide_eq_false in Hsafe.
    destruct (idx !! course_id ece) as [overview|] eqn:Ho.
    + exfalso. apply Hsafe. now exists overview.
    + now exists AttributeError.
Qed.

Lemma modified_at_step (request : ExpirationRequest) (w : World) eces :
  all_enrollments (selected_rows request w) = Some eces ->
  (if bool_decide (is_Some (the_cutoff request))
   then _course_enrollment_modified_at_by_user_and_course_id
          (selected_rows request w)
   else ret ∅) w
  = (inr (the_modified_at request w), w).
Proof.
  intros Hall. unfold the_modified_at.
  destruct (bool_decide (is_Some (the_cutoff request))); [|reflexivity].
  unfold _course_enrollment_modified_at_by_user_and_course_id.
  rewrite Hall. reflexivity.
Qed.

(** The world after the sweep has gone through the rows [rows] of the
    request. *)
Definition swept (request : ExpirationRequest) (rows : list SubsidyFulfillment)
    (w : World) : World :=
  snd (for_each
         (expiration_item (the_cutoff request) (the_index request w)
            (the_modified_at request w))
         rows false w).

(** X11.  The bulk-expiration view has no transaction around its loop.
    Take a request that reaches the loop (it names licenses by strings
    that read as UUIDs, and its cutoff, if any, is a date) and whose
    selected rows all have an enrollment.  When the first row that the
    loop cannot handle comes after the rows [done] (a row that is not
    revoked and for which no course overview was found, or, with a
    cutoff, for which the history has no date, or whose history date
    cannot be compared with a cutoff that has no UTC offset), the view
    raises an exception that is not an enrollment-modification error, and
    the world it leaves is the world after the sweep of [done]: what was
    updated and revoked for the rows before stays so, and the rows after
    are not reached. *)
Theorem sweep_aborts_without_rollback
    (request : ExpirationRequest) (w : World) done row rest eces :
  nonempty (expired_license_uuids request) = true ->
  cutoff_impossible request = false ->
  cutoff_malformed request = false ->
  uuids_readable request = true ->
  selected_rows request w = done ++ row :: rest ->
  all_enrollments (selected_rows request w) = Some eces ->
  forallb (row_safe (the_cutoff request) (the_index request w)
             (the_modified_at request w)) done = true ->
  row_safe (the_cutoff request) (the_index request w)
    (the_modified_at request w) row = false ->
  exists e,
    bulk_licensed_enrollments_expiration request w
    = (inl e, swept request done w)
    /\ is_enrollment_modification e = false.
Proof.
  intros Hne Himp Hmal Hread Hsel Hall Hdone Hrow.
  rewrite (expiration_view_unfold request w Hne Himp Hmal Hread).
  unfold bind at 1. rewrite (modified_at_step request w eces Hall).
  unfold swept. rewrite Hsel. unfold bind at 1. rewrite for_each_app.
  unfold bind at 1.
  destruct (expiration_loop_safe _ _ _ done false w Hdone)
    as (failed & w1 & Hloop & _).
  rewrite Hloop. cbn [for_each snd]. unfold bind at 1.
  destruct (expiration_item_unsafe_run _ _ _ (false || failed) row w1 Hrow)
    as (e & He & Hk).
  rewrite He. exists e. split; [reflexivity | exact Hk].
Qed.

(** The history rows that the lookup of the modification dates reads:
    those whose user is the user of one of the enrollments and whose
    course is the course of one of the enrollments. *)
Definition relevant_history (eces : list EnterpriseCourseEnrollment) (w : World)
  : list HistoryRow :=
  List.filter
    (fun h =>
       existsb (Z.eqb (history_user_id h))
         (List.map (fun ece => user_id (enterprise_customer_user ece)) eces)
       && existsb (String.eqb (history_course_id h)) (List.map course_id eces))
    (course_enrollment_history (platform w)).

Lemma fold_record_date_origin (hs : list HistoryRow) :
  forall result (k : string) (t : Z),
    fold_left record_date hs result !! k = Some t ->
    result !! k = Some t
    \/ exists h, In h hs
         /\ history_key (history_user_id h) (history_course_id h) = k
         /\ history_date h = t.
Proof.
  induction hs as [|h hs IH]; intros result k t Hk; [now left|].
  simpl in Hk. destruct (IH _ _ _ Hk) as [Hr | (h' & Hin & Hkey & Hd)].
  - unfold record_date in Hr. cbv zeta in Hr.
    destruct (result !! history_key (history_user_id h) (history_course_id h));
      [now left|].
    destruct (decide (history_key (history_user_id h) (history_course_id h) = k))
      as [Heq|Hne].
    + rewrite Heq, lookup_insert_eq in Hr. injection Hr as <-.
      right. exists h. split; [now left|]. now split.
    + rewrite lookup_insert_ne in Hr by exact Hne. now left.
  - right. exists h'. split; [now right|]. now split.
Qed.

(** X12.  [_course_enrollment_modified_at_by_user_and_course_id] answers,
    without changing anything, a dictionary that has under a key the
    latest date of the history rows it read with that key, and no entry
    for a key that none of them has: [t] is recorded under [k] exactly
    when some history row read has key [k] and date [t] and no history
    row read with key [k] has a later date. *)
Theorem modified_at_is_latest_date
    (rows : list SubsidyFulfillment) (w : World) eces :
  all_enrollments rows = Some eces ->
  exists modified_at,
    _course_enrollment_modified_at_by_user_and_course_id rows w
    = (inr modified_at, w)
    /\ forall (k : string) (t : Z),
         modified_at !! k = Some t
         <-> (exists h,
                In h (relevant_history eces w)
                /\ history_key (history_user_id h) (history_course_id h) = k
                /\ history_date h = t)
             /\ (forall h,
                   In h (relevant_history eces w) ->
                   history_key (history_user_id h) (history_course_id h) = k ->
                   history_date h <= t).
Proof.
  intros Hall.
  unfold _course_enrollment_modified_at_by_user_and_course_id.
  rewrite Hall. unfold bind, reads, ret. cbv zeta.
  fold (relevant_history eces w).
  eexists. split; [reflexivity|].
  unfold first_date_per_key. change (fun result history => _) with record_date.
  set (hs := order_by_date_desc (relevant_history eces w)).
  assert (Hsorted : StronglySorted later_first hs)
    by apply order_by_date_desc_sorted.
  assert (Hlatest : forall h, In h (relevant_history eces w) ->
            exists t0,
              fold_left record_date hs ∅
                !! history_key (history_user_id h) (history_course_id h) = Some t0
              /\ history_date h <= t0).
  { intros h Hh. apply order_by_date_desc_In in Hh. fold hs in Hh.
    destruct (fold_record_date_latest hs Hsorted ∅ h Hh) as (t0 & Ht0 & Hle).
    exists t0. split; [exact Ht0|]. apply Hle. apply lookup_empty. }
  assert (Horigin : forall k t, fold_left record_date hs ∅ !! k = Some t ->
            exists h, In h (relevant_history eces w)
              /\ history_key (history_user_id h) (history_course_id h) = k
              /\ history_date h = t).
  { intros k t Hk. destruct (fold_record_date_origin hs ∅ k t Hk)
      as [Hr | (h & Hin & Hkey & Hd)].
    - rewrite lookup_empty in Hr. discriminate.
    - exists h. split; [|now split]. apply order_by_date_desc_In. exact Hin. }
  intros k t. split.
  - intros Hk. split; [now apply Horigin|].
    intros h Hh Hkey. destruct (Hlatest h Hh) as (t0 & Ht0 & Hle).
    rewrite Hkey, Hk in Ht0. injection Ht0 as <-. exact Hle.
  - intros [(h & Hh & Hkey & Hd) Hmax].
    destruct (Hlatest h Hh) as (t0 & Ht0 & Hle). rewrite Hkey in Ht0.
    destruct (Horigin k t0 Ht0) as (h0 & Hh0 & Hkey0 & Hd0).
    pose proof (Hmax h0 Hh0 Hkey0) as Hle0.
    rewrite Ht0. f_equal. lia.
Qed.

(** *** Further properties of the license-revoke view *)

Lemma dict_set_In {V} (k : string) (v : V) (d : list (string * V)) kv :
  In kv (dict_set k v d) -> kv = (k, v) \/ In kv d.
Proof.
  induction d as [|[k' v'] d IH]; simpl.
  - intros [<-|[]]. now left.
  - destruct (String.eqb k' k); simpl.
    + intros [<-|H]; [now left | right; now right].
    + intros [<-|H]; [right; now left|].
      destruct (IH H) as [->|H']; [now left | right; now right].
Qed.

Lemma dict_get_In {V} (k : string) (d : list (string * V)) v :
  dict_get k d = Some v -> In (k, v) d.
Proof.
  induction d as [|[k' v'] d IH]; simpl; [discriminate|].
  destruct (String.eqb k' k) eqn:Hk.
  - apply String.eqb_eq in Hk. intros [= <-]. left. now rewrite Hk.
  - intros H. right. now apply IH.
Qed.

Lemma dict_set_fresh {V} (k : string) (v : V) (d : list (string * V)) :
  ~ In k (List.map fst d) -> dict_set k v d = d ++ [(k, v)].
Proof.
  induction d as [|[k' v'] d IH]; simpl; [reflexivity|].
  intros Hk. destruct (String.eqb k' k) eqn:Heq.
  - apply String.eqb_eq in Heq. exfalso. apply Hk. now left.
  - rewrite IH; [reflexivity|]. intros H. apply Hk. now right.
Qed.

(** The user that the request names, when there is exactly one. *)
Definition the_customer_user (request : LicenseRevokeRequest) (w : World)
  : option EnterpriseCustomerUser :=
  match fst (get_customer_user_or_404
               (default 0 (revoke_user_id request))
               (default "" (revoke_enterprise_id request)) w) with
  | inr ecu => Some ecu
  | inl _ => None
  end.

Lemma the_customer_user_ids (request : LicenseRevokeRequest) (w : World) ecu :
  the_customer_user request w = Some ecu ->
  user_id ecu = default 0 (revoke_user_id request)
  /\ to_uuid (default "" (revoke_enterprise_id request))
     = Some (enterprise_customer ecu).
Proof.
  unfold the_customer_user, get_customer_user_or_404, bind, reads.
  destruct (to_uuid (default "" (revoke_enterprise_id request)))
    as [customer|]; [|discriminate].
  destruct (List.filter _ _) as [|x [|y l]] eqn:Hf; cbn; try discriminate.
  intros [= <-].
  assert (Hin : In x (List.filter
                        (fun ecu => (user_id ecu =? default 0 (revoke_user_id request))
                           && String.eqb (enterprise_customer ecu) customer)
                        (customer_users w))) by (rewrite Hf; now left).
  apply filter_In in Hin. destruct Hin as [_ Hin].
  apply andb_true_iff in Hin. destruct Hin as [Hu He].
  apply String.eqb_eq in He. split; [now apply Z.eqb_eq | now rewrite He].
Qed.

(** An entry of the dictionary of a user's licensed enrollments. *)
Definition licensed_to (ecu : EnterpriseCustomerUser)
    (rows : list SubsidyFulfillment)
    (entry : string * (EnterpriseCourseEnrollment * SubsidyFulfillment)) : Prop :=
  In (snd (snd entry)) rows
  /\ enterprise_course_enrollment (snd (snd entry)) = Some (fst (snd entry))
  /\ same_customer_user (enterprise_customer_user (fst (snd entry))) ecu = true
  /\ course_id (fst (snd entry)) = fst entry.

Lemma enrollments_dict_entries ecu (w : World) entry :
  In entry (enrollments_dict ecu w) -> licensed_to ecu (licensed_rows w) entry.
Proof.
  unfold enrollments_dict, _enrollments_by_course_for_licensed_user, reads.
  cbn [fst].
  assert (Hgen : forall rs d,
             (forall r, In r rs -> In r (licensed_rows w)) ->
             (forall e, In e d -> licensed_to ecu (licensed_rows w) e) ->
             forall e,
               In e (fold_left
                       (fun d row =>
                          match enterprise_course_enrollment row with
                          | Some ece =>
                              if same_customer_user
                                   (Models.enterprise_customer_user ece) ecu
                              then dict_set (course_id ece) (ece, row) d
                              else d
                          | None => d
                          end) rs d) ->
               licensed_to ecu (licensed_rows w) e).
  { induction rs as [|r rs IH]; intros d Hrows Hd e He; [now apply Hd|].
    simpl in He. eapply IH; [| |exact He].
    - intros r' Hr'. apply Hrows. now right.
    - intros e' He'.
      destruct (enterprise_course_enrollment r) as [ece|] eqn:Hece;
        [|now apply Hd].
      destruct (same_customer_user _ ecu) eqn:Hsame; [|now apply Hd].
      apply dict_set_In in He'. destruct He' as [->|He']; [|now apply Hd].
      repeat split; cbn; [apply Hrows; now left | exact Hece | exact Hsame]. }
  apply Hgen; [auto | intros e []].
Qed.

(** A call made for a licensed enrollment of the learner [uid] of the
    customer [eid]: an update of that enrollment, or the revocation of
    its license row. *)
Definition call_for_learner (uid : Z) (eid : string)
    (rows : list SubsidyFulfillment) (c : Call) : Prop :=
  exists row ece,
    In row rows
    /\ enterprise_course_enrollment row = Some ece
    /\ user_id (enterprise_customer_user ece) = uid
    /\ enterprise_customer (enterprise_customer_user ece) = eid
    /\ (c = Revoke Licensed (uuid row)
        \/ exists mode active raised,
             c = UpdateEnrollment (username (enterprise_customer_user ece))
                   (course_id ece) mode active raised).

Lemma license_revoke_item_effects (P : Call -> Prop) d acc overview (w : World) :
  (forall ece license,
     dict_get (overview_id overview) d = Some (ece, license) ->
     P (Revoke Licensed (uuid license))
     /\ forall mode active raised,
          P (UpdateEnrollment (username (enterprise_customer_user ece))
               (overview_id overview) mode active raised)) ->
  Effects P w (snd (license_revoke_item d acc overview w)).
Proof.
  intros HP.
  destruct (dict_get (overview_id overview) d) as [[ece license]|] eqn:Hd.
  2:{ rewrite license_revoke_item_unknown by exact Hd. apply effects_refl. }
  destruct (HP ece license eq_refl) as [Hrev Hupd].
  rewrite (license_revoke_item_processed _ _ _ _ _ _ Hd).
  pose proof (terminate_effects P ece overview w Hupd) as Ht.
  destruct (_terminate_enrollment (Some ece) (Some overview) w)
    as [[e|st] w1]; cbn [snd] in Ht.
  - destruct e; exact Ht.
  - destruct st; cbn; try exact Ht;
      (eapply effects_trans; [exact Ht|]; now apply effects_revoke).
Qed.

Lemma license_revoke_loop_effects (P : Call -> Prop) d
    (overviews : list CourseOverview) :
  (forall overview ece license,
     dict_get (overview_id overview) d = Some (ece, license) ->
     P (Revoke Licensed (uuid license))
     /\ forall mode active raised,
          P (UpdateEnrollment (username (enterprise_customer_user ece))
               (overview_id overview) mode active raised)) ->
  forall acc (w : World),
    Effects P w (snd (for_each (license_revoke_item d) overviews acc w)).
Proof.
  intros HP.
  induction overviews as [|overview overviews IH]; intros acc w;
    [apply effects_refl|].
  cbn [for_each]. unfold bind.
  pose proof (license_revoke_item_effects P d acc overview w (HP overview))
    as Hstep.
  destruct (license_revoke_item d acc overview w) as [[e|acc1] w1];
    cbn [snd] in *; [exact Hstep|].
  eapply effects_trans; [exact Hstep | apply IH].
Qed.

(** A call made for a licensed enrollment of the learner that the
    request names: the user [user_id] of the customer whose uuid
    [enterprise_id] reads as. *)
Definition call_for_named_learner (request : LicenseRevokeRequest)
    (rows : list SubsidyFulfillment) (c : Call) : Prop :=
  exists customer,
    to_uuid (default "" (revoke_enterprise_id request)) = Some customer
    /\ call_for_learner (default 0 (revoke_user_id request)) customer rows c.

Lemma license_revoke_view_effects (request : LicenseRevokeRequest) (w : World) :
  Effects (call_for_named_learner request (licensed_rows w))
    w (snd (license_revoke request w)).
Proof.
  unfold license_revoke.
  destruct (_validate_license_revoke_data request); [apply effects_refl|].
  pose proof (get_customer_user_run (default 0 (revoke_user_id request))
                (default "" (revoke_enterprise_id request)) w) as Hw.
  pose proof (the_customer_user_ids request w) as Hids.
  unfold the_customer_user in Hids.
  unfold bind at 1.
  destruct (get_customer_user_or_404 _ _ w) as [[e|ecu] w1];
    cbn [fst snd] in *; subst w1; [apply effects_refl|].
  destruct (Hids ecu eq_refl) as [Huid Heid].
  unfold bind at 1.
  change (_enrollments_by_course_for_licensed_user ecu w)
    with (@inr Exn _ (enrollments_dict ecu w), w).
  cbv beta iota. unfold bind at 1, reads at 1. fold (the_overviews ecu w).
  unfold bind.
  match goal with
  | |- context [for_each ?b ?l ?a w] =>
      pose proof (license_revoke_loop_effects
                    (call_for_named_learner request (licensed_rows w))
                    (enrollments_dict ecu w) l) as Hl;
      specialize (fun H => Hl H a w);
      destruct (for_each b l a w) as [[e|final] w2]
  end; cbn [snd] in *; apply Hl.
  all: intros overview ece license Hd; apply dict_get_In in Hd;
    apply enrollments_dict_entries in Hd;
    destruct Hd as (Hin & Hece & Hsame & Hcid); cbn [fst snd] in *;
    apply andb_true_iff in Hsame; destruct Hsame as [Hu He];
    apply Z.eqb_eq in Hu; apply String.eqb_eq in He;
    (split; [|intros mode active raised]);
    exists (enterprise_customer ecu); (split; [exact Heid|]);
    exists license, ece;
    (split; [exact Hin|]); (split; [exact Hece|]);
    (split; [congruence|]); (split; [congruence|]);
    [now left | right; rewrite Hcid; now exists mode, active, raised].
Qed.

(** X13.  The license-revoke view, whatever it answers and even when it
    raises, touches nothing but licensed enrollments of the learner the
    request names: the learner-credit rows and the customer users are as
    before; the licensed rows after the request are the rows before it
    with exactly the revocations of the trace applied; and every call is
    an enrollment update for, or the revocation of, a licensed row whose
    enrollment belongs to the user [user_id] of the customer whose uuid
    is the UUID that [enterprise_id] reads as.  When [enterprise_id]
    reads as no UUID, no call is made. *)
Theorem license_revoke_touches_only_the_learner
    (request : LicenseRevokeRequest) (w : World) :
  let w' := snd (license_revoke request w) in
  learner_credit_rows w' = learner_credit_rows w
  /\ customer_users w' = customer_users w
  /\ trace w' = trace w ++ new_calls w w'
  /\ licensed_rows w'
     = List.map (mark_revoked (revokes (new_calls w w'))) (licensed_rows w)
  /\ Forall (call_for_named_learner request (licensed_rows w)) (new_calls w w')
  /\ (to_uuid (default "" (revoke_enterprise_id request)) = None ->
      new_calls w w' = []).
Proof.
  cbv zeta.
  destruct (license_revoke_view_effects request w)
    as [(x & Hx & Hfx & Hrx) Hl Hc].
  rewrite (new_calls_app _ _ _ Hx). repeat split; try assumption.
  intros Hnone. destruct x as [|c x]; [reflexivity|].
  apply Forall_cons in Hfx. destruct Hfx as [(customer & Hsome & _) _].
  congruence.
Qed.

(** An entry of the response that reports a failure. *)
Definition reports_failure (entry : string * (bool * string)) : bool :=
  negb (fst (snd entry)).

Lemma license_revoke_item_result d acc overview (w : World) :
  overview_safe d overview = true ->
  exists ok message w',
    license_revoke_item d acc overview w
    = (inr {| revocation_results :=
                dict_set (overview_id overview) (ok, message)
                  (revocation_results acc);
              revoke_any_failures := revoke_any_failures acc || negb ok |}, w').
Proof.
  unfold overview_safe. intros Hsafe. apply bool_decide_eq_true in Hsafe.
  destruct Hsafe as [[ece license] Hd].
  rewrite (license_revoke_item_processed _ _ _ _ _ _ Hd).
  rewrite terminate_unfold.
  destruct (completed_on (platform w) ece overview).
  { eexists true, _, _. cbn. now rewrite orb_false_r. }
  destruct (mode_for_course (overview_id overview) AUDIT (platform w)).
  - destruct (fst (audit_call (platform w) ece overview)) as [reason|].
    + eexists false, _, _. cbn. now rewrite orb_true_r.
    + eexists true, _, _. cbn. now rewrite orb_false_r.
  - destruct (fst (unenroll_call (platform w) ece overview)) as [reason|].
    + eexists false, _, _. cbn. now rewrite orb_true_r.
    + eexists true, _, _. cbn. now rewrite orb_false_r.
Qed.

Lemma license_revoke_loop_result d (overviews : list CourseOverview) :
  forall acc (w : World),
    forallb (overview_safe d) overviews = true ->
    NoDup (List.map fst (revocation_results acc)
           ++ List.map overview_id overviews) ->
    exists entries w',
      for_each (license_revoke_item d) overviews acc w
      = (inr {| revocation_results := revocation_results acc ++ entries;
                revoke_any_failures :=
                  revoke_any_failures acc || existsb reports_failure entries |},
         w')
      /\ List.map fst entries = List.map overview_id overviews.
Proof.
  induction overviews as [|overview overviews IH]; intros acc w Hsafe Hnd.
  - exists [], w. cbn. rewrite app_nil_r, orb_false_r. now destruct acc.
  - cbn [forallb] in Hsafe. apply andb_true_iff in Hsafe.
    destruct Hsafe as [Ho Hrest].
    destruct (license_revoke_item_result d acc overview w Ho)
      as (ok & message & w1 & Hstep).
    assert (Hfresh : ~ In (overview_id overview)
                       (List.map fst (revocation_results acc))).
    { cbn [List.map] in Hnd. apply NoDup_app in Hnd.
      destruct Hnd as (_ & Hdisj & _). intros Hin.
      apply (Hdisj (overview_id overview)); [now apply list_elem_of_In|].
      apply list_elem_of_In. now left. }
    rewrite (dict_set_fresh _ _ _ Hfresh) in Hstep.
    match type of Hstep with
    | _ = (inr ?a, _) => destruct (IH a w1 Hrest) as (entries & w2 & Hloop & Hkeys)
    end.
    { cbn [revocation_results List.map]. rewrite List.map_app. cbn [List.map fst].
      rewrite <- app_assoc. exact Hnd. }
    exists ((overview_id overview, (ok, message)) :: entries), w2. split.
    + cbn [for_each]. unfold bind. rewrite Hstep, Hloop.
      cbn [revocation_results revoke_any_failures existsb].
      unfold reports_failure at 2. cbn [fst snd].
      now rewrite <- app_assoc, orb_assoc.
    + cbn [List.map fst]. now rewrite Hkeys.
Qed.

(** X14.  When the request is valid, names one customer user, and the
    course overviews found for that user's licensed enrollments are all
    of courses the user has a licensed enrollment in, each overview once,
    the license-revoke view answers with one result per course overview,
    in the order of the overviews, and its status is 422 exactly when one
    of the results reports a failure, 200 otherwise. *)
Theorem license_revoke_reports_every_course
    (request : LicenseRevokeRequest) (w : World) ecu :
  revoke_safe request w = true ->
  the_customer_user request w = Some ecu ->
  NoDup (List.map overview_id (the_overviews ecu w)) ->
  exists results w',
    license_revoke request w
    = (inr {| status := aggregate_status (existsb reports_failure results);
              data := RevocationResults results |}, w')
    /\ List.map fst results = List.map overview_id (the_overviews ecu w).
Proof.
  unfold revoke_safe, the_customer_user, license_revoke.
  destruct (_validate_license_revoke_data request); [discriminate|].
  pose proof (get_customer_user_run (default 0 (revoke_user_id request))
                (default "" (revoke_enterprise_id request)) w) as Hw.
  unfold bind at 1.
  destruct (get_customer_user_or_404 _ _ w) as [[e|ecu'] w1];
    cbn [fst snd] in *; [discriminate|]. subst w1.
  intros Hsafe [= ->] Hnd. unfold bind at 1.
  change (_enrollments_by_course_for_licensed_user ecu w)
    with (@inr Exn _ (enrollments_dict ecu w), w).
  cbv beta iota. unfold bind at 1, reads at 1. fold (the_overviews ecu w).
  destruct (license_revoke_loop_result (enrollments_dict ecu w)
              (the_overviews ecu w)
              {| revocation_results := []; revoke_any_failures := false |}
              w Hsafe Hnd)
    as (entries & w' & Hloop & Hkeys).
  exists entries, w'. unfold bind. rewrite Hloop. split; [reflexivity | exact Hkeys].
Qed.

End Views.

Lemma filter_rejects (c : string) (f : SubsidyFulfillment) :
  subsidy_fulfillment_filter (Some c) f = false
  <-> enrollment_customer f <> Some c /\ entitlement_customer f <> Some c.
Proof.
  unfold subsidy_fulfillment_filter.
  rewrite orb_false_iff, !bool_decide_eq_false. tauto.
Qed.

(** *** Two customers

    Customer A has the learners alice, bob and carol, customer B has
    dave.  The platform is the course-enrollment history table.  The
    enrollment API fails for the course "course-v1:edX+Broken+1"; only
    "course-v1:edX+Audit+1" has an audit mode; carol holds a certificate
    for every course, and a course run counts as completed when the
    learner holds a certificate. *)

Definition demo_customer_of (requester : Z) : option string :=
  if requester =? 10 then Some "A" else if requester =? 20 then Some "B" else None.

Definition demo_update (username course_id : string) (mode : option string)
    (is_active : option bool) (p : list HistoryRow)
  : option string * list HistoryRow :=
  (if String.eqb course_id "course-v1:edX+Broken+1"
   then Some "enrollment API is down" else None, p).

Definition demo_certificate (username course_id : string) (_ : list HistoryRow)
  : option unit :=
  if String.eqb username "carol" then Some tt else None.

Definition demo_status (_ : CourseOverview) (certificate_info : option unit)
    (_ : EnterpriseCourseEnrollment) (_ : list HistoryRow) : bool :=
  match certificate_info with Some _ => true | None => false end.

Definition demo_mode_for_course (course_id mode : string) (_ : list HistoryRow)
  : bool :=
  String.eqb course_id "course-v1:edX+Audit+1" && String.eqb mode "audit".

Definition demo_overviews (course_ids : list (option string))
    (_ : list HistoryRow) : list CourseOverview :=
  flat_map
    (fun c => match c with
              | Some course_id => [{| overview_id := course_id |}]
              | None => []
              end)
    course_ids.

Definition demo_history (p : list HistoryRow) : list HistoryRow := p.

(** Second 50 of 1970 with and without a UTC offset, the 30th of
    February, and anything else, which is not well formatted. *)
Definition demo_parse_datetime (s : string) : Parsed :=
  if String.eqb s "1970-01-01T00:00:50Z" then Datetime (Aware 50)
  else if String.eqb s "1970-01-01T00:00:50" then Datetime (Naive 50)
  else if String.eqb s "1970-02-30T00:00:00Z" then NoSuchDate
  else NotWellFormatted.

(** A string reads as a UUID when it has no space; the prefix
    "urn:uuid:" is dropped, so that two strings denote each UUID. *)
Definition demo_to_uuid (s : string) : option string :=
  let body :=
    if String.prefix "urn:uuid:" s
    then String.substring 9 (String.length s - 9) s
    else s in
  match String.index 0 " " body with
  | Some _ => None
  | None => if String.eqb body "" then None else Some body
  end.

Definition learner (uid : Z) (name customer : string) : EnterpriseCustomerUser :=
  {| user_id := uid; username := name; enterprise_customer := customer |}.

Definition alice := learner 1 "alice" "A".
Definition bob := learner 2 "bob" "A".
Definition carol := learner 3 "carol" "A".
Definition dave := learner 12 "dave" "B".

Definition enrolled (who : EnterpriseCustomerUser) (course : string)
  : option EnterpriseCourseEnrollment :=
  Some {| enterprise_customer_user := who; course_id := course |}.

Definition fulfillment (u ref : string) (revoked : bool)
    (ece : option EnterpriseCourseEnrollment)
    (ent : option EnterpriseCourseEntitlement) : SubsidyFulfillment :=
  {| uuid := u; source_ref := ref; is_revoked := revoked;
     enterprise_course_enrollment := ece;
     enterprise_course_entitlement := ent |}.

Definition demo_world : World (list HistoryRow) :=
  {| learner_credit_rows :=
       [ fulfillment "f1" "tx-1" true (enrolled alice "course-v1:edX+Paid+1") None;
         fulfillment "f2" "tx-2" false (enrolled dave "course-v1:edX+Paid+1")
           (Some {| entitlement_customer_user := alice; course_uuid := "c-1" |});
         fulfillment "f3" "tx-3" false (enrolled dave "course-v1:edX+Audit+1") None ];
     licensed_rows :=
       [ fulfillment "l1" "lic-1" false (enrolled alice "course-v1:edX+Audit+1") None;
         fulfillment "l2" "lic-1" false (enrolled alice "course-v1:edX+Broken+1") None;
         fulfillment "l3" "lic-2" true (enrolled bob "course-v1:edX+Paid+1") None;
         fulfillment "l4" "lic-3" false (enrolled carol "course-v1:edX+Paid+1") None;
         fulfillment "l5" "lic-1" false (enrolled alice "course-v1:edX+Paid+1") None ];
     customer_users := [alice; bob; carol; dave];
     platform := [];
     trace := [] |}.

Definition empty_world : World (list HistoryRow) :=
  {| learner_credit_rows := []; licensed_rows := []; customer_users := [];
     platform := []; trace := [] |}.

Definition admin_of_A : Requester := {| requester_id := 10; is_staff := false |}.

Definition demo_retrieve :=
  retrieve (Platform := list HistoryRow) demo_customer_of demo_to_uuid.
Definition demo_cancel :=
  cancel_enrollment demo_customer_of demo_update demo_to_uuid.
Definition demo_terminate :=
  _terminate_enrollment demo_update demo_certificate demo_status true
    demo_mode_for_course.
Definition demo_expiration_item :=
  expiration_item demo_update demo_certificate demo_status true
    demo_mode_for_course.
Definition demo_expiration :=
  bulk_licensed_enrollments_expiration demo_update demo_certificate demo_status
    true demo_mode_for_course demo_overviews demo_history demo_parse_datetime
    demo_to_uuid.
Definition demo_license_revoke :=
  license_revoke demo_update demo_certificate demo_status true
    demo_mode_for_course demo_overviews demo_to_uuid.

Definition expire_all : ExpirationRequest :=
  {| expired_license_uuids := ["lic-1"; "lic-2"; "lic-3"];
     ignore_enrollments_modified_after := None |}.

Definition revoke_alice : LicenseRevokeRequest :=
  {| revoke_user_id := Some 1; revoke_enterprise_id := Some "A" |}.

(** The three rows of the termination table. *)
Example terminate_completed :
  demo_terminate (enrolled carol "course-v1:edX+Paid+1")
    (Some {| overview_id := "course-v1:edX+Paid+1" |}) demo_world
  = (inr COURSE_COMPLETED, demo_world).
Proof. reflexivity. Qed.

Example terminate_moved_to_audit :
  demo_terminate (enrolled alice "course-v1:edX+Audit+1")
    (Some {| overview_id := "course-v1:edX+Audit+1" |}) demo_world
  = (inr MOVED_TO_AUDIT,
     with_platform []
       [UpdateEnrollment "alice" "course-v1:edX+Audit+1" (Some "audit") None None]
       demo_world).
Proof. reflexivity. Qed.

Example terminate_unenrolled :
  demo_terminate (enrolled alice "course-v1:edX+Paid+1")
    (Some {| overview_id := "course-v1:edX+Paid+1" |}) demo_world
  = (inr UNENROLLED,
     with_platform []
       [UpdateEnrollment "alice" "course-v1:edX+Paid+1" None (Some false) None]
       demo_world).
Proof. reflexivity. Qed.

Example expire_all_response :
  demo_expiration expire_all demo_world
  = (inr {| status := 422; data := NoData |},
     {| learner_credit_rows := learner_credit_rows demo_world;
        licensed_rows :=
          [ fulfillment "l1" "lic-1" true (enrolled alice "course-v1:edX+Audit+1") None;
            fulfillment "l2" "lic-1" false (enrolled alice "course-v1:edX+Broken+1") None;
            fulfillment "l3" "lic-2" true (enrolled bob "course-v1:edX+Paid+1") None;
            fulfillment "l4" "lic-3" false (enrolled carol "course-v1:edX+Paid+1") None;
            fulfillment "l5" "lic-1" true (enrolled alice "course-v1:edX+Paid+1") None ];
        customer_users := customer_users demo_world;
        platform := [];
        trace :=
          [ UpdateEnrollment "alice" "course-v1:edX+Audit+1" (Some "audit") None None;
            Revoke Licensed "l1";
            UpdateEnrollment "alice" "course-v1:edX+Broken+1" None (Some false)
              (Some "enrollment API is down");
            UpdateEnrollment "alice" "course-v1:edX+Paid+1" None (Some false) None;
            Revoke Licensed "l5" ] |}).
Proof. vm_compute. reflexivity. Qed.

Example revoke_alice_response :
  fst (demo_license_revoke revoke_alice demo_world)
  = inr {| status := 422;
           data := RevocationResults
             [ ("course-v1:edX+Audit+1", (true, "moved to audit"));
               ("course-v1:edX+Broken+1",
                (false,
                 "Enrollment termination: unable to unenroll User alice in Enterprise A from Course course-v1:edX+Broken+1  because: enrollment API is down"));
               ("course-v1:edX+Paid+1", (true, "unenrolled")) ] |}.
Proof. vm_compute. reflexivity. Qed.

(** A requester who is associated with no customer: the tenant filter
    then asks for rows whose enrollment or entitlement has no customer,
    and a row without an entitlement passes it. *)
Definition outsider : Requester := {| requester_id := 30; is_staff := false |}.

Example outsider_reads_a_row_of_B :
  demo_customer_of (requester_id outsider) = None
  /\ fst (demo_retrieve outsider "f3" demo_world)
     = inr {| status := 200;
              data := Serialized LearnerCredit
                        (fulfillment "f3" "tx-3" false
                           (enrolled dave "course-v1:edX+Audit+1") None) |}.
Proof. vm_compute. split; reflexivity. Qed.

(** A string that reads as no UUID is not answered 404: the exception is
    django's, which the views do not handle. *)
Example retrieve_of_no_uuid :
  demo_retrieve admin_of_A "no uuid" demo_world
  = (inl DjangoValidationError, demo_world).
Proof. vm_compute. reflexivity. Qed.

(** *** The claims at the two customers *)

Definition row_f1 : SubsidyFulfillment :=
  fulfillment "f1" "tx-1" true (enrolled alice "course-v1:edX+Paid+1") None.

Definition row_f2 : SubsidyFulfillment :=
  fulfillment "f2" "tx-2" false (enrolled dave "course-v1:edX+Paid+1")
    (Some {| entitlement_customer_user := alice; course_uuid := "c-1" |}).

Definition row_l1 : SubsidyFulfillment :=
  fulfillment "l1" "lic-1" false (enrolled alice "course-v1:edX+Audit+1") None.

Definition row_l3 : SubsidyFulfillment :=
  fulfillment "l3" "lic-2" true (enrolled bob "course-v1:edX+Paid+1") None.

Definition demo_index : gmap string CourseOverview :=
  index_overviews
    [ {| overview_id := "course-v1:edX+Audit+1" |};
      {| overview_id := "course-v1:edX+Paid+1" |} ].

Lemma f3_of_another_customer :
  forall f, In f (learner_credit_rows demo_world ++ licensed_rows demo_world) ->
            uuid f = "f3" ->
            enrollment_customer f <> Some "A" /\ entitlement_customer f <> Some "A".
Proof.
  intros f Hin Hu. cbn in Hin.
  repeat (destruct Hin as [<-|Hin]; [try discriminate Hu; split; discriminate|]).
  destruct Hin.
Qed.

Lemma f3_absent_from_empty_world : absent "f3" empty_world.
Proof. intros f []. Qed.

Lemma C9_other_tenant_is_not_found_witness :
  demo_customer_of (requester_id admin_of_A) = Some "A"
  /\ demo_to_uuid "urn:uuid:f3" = Some "f3"
  /\ demo_retrieve admin_of_A "urn:uuid:f3" demo_world
     = (inr not_found_response, demo_world)
  /\ demo_cancel admin_of_A "urn:uuid:f3" demo_world
     = (inr not_found_response, demo_world)
  /\ fst (demo_retrieve admin_of_A "urn:uuid:f3" demo_world)
     = fst (demo_retrieve admin_of_A "urn:uuid:f3" empty_world)
  /\ fst (demo_cancel admin_of_A "urn:uuid:f3" demo_world)
     = fst (demo_cancel admin_of_A "urn:uuid:f3" empty_world).
Proof.
  split; [reflexivity|]. split; [reflexivity|].
  apply (C9_other_tenant_is_not_found demo_customer_of demo_update demo_to_uuid
           admin_of_A "A" "urn:uuid:f3" "f3" demo_world empty_world).
  - reflexivity.
  - reflexivity.
  - reflexivity.
  - exact f3_of_another_customer.
  - exact f3_absent_from_empty_world.
Defined.

(** C9 as stated fails: the enterprise enrollment of fulfillment "f2"
    belongs to customer B, yet a non-staff requester of customer A
    fetches it (200) and cancels it (200), because its enterprise
    entitlement belongs to A and the tenant filter accepts either
    relation; a uuid that no row has answers 404. *)
Lemma C9_counterexample :
  is_staff admin_of_A = false
  /\ demo_customer_of (requester_id admin_of_A) = Some "A"
  /\ In row_f2 (learner_credit_rows demo_world)
  /\ enrollment_customer row_f2 = Some "B"
  /\ fst (demo_retrieve admin_of_A "f2" demo_world)
     = inr {| status := 200; data := Serialized LearnerCredit row_f2 |}
  /\ fst (demo_cancel admin_of_A "f2" demo_world)
     = inr {| status := 200; data := NoData |}
  /\ fst (demo_retrieve admin_of_A "f2" empty_world) = inr not_found_response
  /\ fst (demo_cancel admin_of_A "f2" empty_world) = inr not_found_response.
Proof.
  repeat split; try reflexivity. cbn. right. left. reflexivity.
Qed.

Lemma C3_revoke_unless_completed_witness :
  revokes
    (new_calls demo_world
       (snd (demo_expiration_item None demo_index ∅ false row_l1 demo_world)))
  = ["l1"]
  /\ licensed_rows
       (snd (demo_expiration_item None demo_index ∅ false row_l1 demo_world))
     = List.map (revoke_row "l1") (licensed_rows demo_world).
Proof.
  destruct (C3_revoke_unless_completed demo_update demo_certificate demo_status
              true demo_mode_for_course) as [Hsweep _].
  exact (Hsweep None demo_index ∅ false row_l1
           {| enterprise_customer_user := alice;
              course_id := "course-v1:edX+Audit+1" |}
           demo_world eq_refl eq_refl eq_refl).
Defined.

Lemma C4_revoked_is_left_alone_witness :
  demo_cancel admin_of_A "f1" demo_world
  = (inr {| status := 400; data := Detail "Enrollment is already canceled." |},
     demo_world)
  /\ demo_expiration_item None demo_index ∅ false row_l3 demo_world
     = (inr false, demo_world).
Proof.
  destruct (C4_revoked_is_left_alone demo_customer_of demo_update demo_certificate
              demo_status true demo_mode_for_course demo_overviews demo_history
              demo_parse_datetime demo_to_uuid) as (Hcancel & Hitem & _).
  split.
  - exact (Hcancel admin_of_A "f1" LearnerCredit [row_f1] row_f1 demo_world
             eq_refl eq_refl eq_refl).
  - exact (Hitem None demo_index ∅ false row_l3
             {| enterprise_customer_user := bob;
                course_id := "course-v1:edX+Paid+1" |}
             demo_world eq_refl eq_refl).
Defined.


(** *** Two pairs with one history key *)

Definition collision_history : list HistoryRow :=
  [ {| history_user_id := 1; history_course_id := "2U/CS101/2020";
       history_date := 5 |};
    {| history_user_id := 12; history_course_id := "U/CS101/2020";
       history_date := 100 |} ].

Definition collision_world : World (list HistoryRow) :=
  {| learner_credit_rows := [];
     licensed_rows :=
       [ fulfillment "l8" "lic-8" false (enrolled alice "2U/CS101/2020") None;
         fulfillment "l9" "lic-9" false (enrolled dave "U/CS101/2020") None ];
     customer_users := [alice; dave];
     platform := collision_history;
     trace := [] |}.

Definition expire_both_before_50 : ExpirationRequest :=
  {| expired_license_uuids := ["lic-8"; "lic-9"];
     ignore_enrollments_modified_after := Some "1970-01-01T00:00:50Z" |}.

Definition expire_alice_before_50 : ExpirationRequest :=
  {| expired_license_uuids := ["lic-8"];
     ignore_enrollments_modified_after := Some "1970-01-01T00:00:50Z" |}.

Definition dates_of (user : Z) (course : string) (history : list HistoryRow)
  : list Z :=
  List.map history_date
    (List.filter
       (fun h => (history_user_id h =? user)
                 && String.eqb (history_course_id h) course)
       history).

(** C5 (the code at two pairs that share a key).  User 1 in course
    "2U/CS101/2020" and user 12 in course "U/CS101/2020" both give the key
    "12U/CS101/2020".  The only history entry of the first pair is dated 5,
    before the cutoff 50, but the date looked up for it is 100, the date
    of the other pair: the sweep passes over both enrollments and changes
    nothing.  When the other pair is not part of the sweep, the same
    enrollment with the same history and cutoff is terminated and its
    license revoked. *)
Theorem C5_history_key_collision :
  dates_of 1 "2U/CS101/2020" collision_history = [5]
  /\ the_cutoff demo_parse_datetime expire_both_before_50 = Some (Aware 50)
  /\ history_key 1 "2U/CS101/2020" = history_key 12 "U/CS101/2020"
  /\ the_modified_at demo_history demo_parse_datetime demo_to_uuid
       expire_both_before_50 collision_world
       !! history_key 1 "2U/CS101/2020" = Some 100
  /\ demo_expiration expire_both_before_50 collision_world
     = (inr {| status := 200; data := NoData |}, collision_world)
  /\ trace (snd (demo_expiration expire_alice_before_50 collision_world))
     = [ UpdateEnrollment "alice" "2U/CS101/2020" None (Some false) None;
         Revoke Licensed "l8" ].
Proof. vm_compute. repeat split. Qed.

(** *** The further properties at the two customers *)

Definition support : Requester := {| requester_id := 99; is_staff := true |}.

Definition row_f3 : SubsidyFulfillment :=
  fulfillment "f3" "tx-3" false (enrolled dave "course-v1:edX+Audit+1") None.

Definition dave_audit : EnterpriseCourseEnrollment :=
  {| enterprise_customer_user := dave; course_id := "course-v1:edX+Audit+1" |}.

Lemma cancel_revokes_after_update_witness :
  new_calls demo_world (snd (demo_cancel support "f3" demo_world))
  = [ UpdateEnrollment "dave" "course-v1:edX+Audit+1" None (Some false) None;
      Revoke LearnerCredit "f3" ]
  /\ fst (demo_cancel support "f3" demo_world)
     = inr {| status := Http.HTTP_200_OK; data := NoData |}
  /\ learner_credit_rows (snd (demo_cancel support "f3" demo_world))
     = List.map (revoke_row "f3") (learner_credit_rows demo_world).
Proof.
  exact (cancel_revokes_after_update demo_customer_of demo_update demo_to_uuid
           support "f3" demo_world LearnerCredit [row_f3] row_f3 dave_audit
           eq_refl eq_refl eq_refl eq_refl).
Defined.

Lemma cancel_twice_is_rejected_witness :
  fst (demo_cancel support "f3" demo_world)
  = inr {| status := Http.HTTP_200_OK; data := NoData |}
  /\ demo_cancel support "f3" (snd (demo_cancel support "f3" demo_world))
     = (inr {| status := Http.HTTP_400_BAD_REQUEST;
               data := Detail "Enrollment is already canceled." |},
        snd (demo_cancel support "f3" demo_world)).
Proof.
  exact (cancel_twice_is_rejected demo_customer_of demo_update demo_to_uuid
           support "f3" demo_world LearnerCredit [row_f3] row_f3 dave_audit
           eq_refl eq_refl eq_refl eq_refl eq_refl).
Defined.

(** The history knows alice's enrollment in the audit course only. *)
Definition partial_history_world : World (list HistoryRow) :=
  {| learner_credit_rows := learner_credit_rows demo_world;
     licensed_rows := licensed_rows demo_world;
     customer_users := customer_users demo_world;
     platform :=
       [ {| history_user_id := 1; history_course_id := "course-v1:edX+Audit+1";
            history_date := 10 |};
         {| history_user_id := 1; history_course_id := "course-v1:edX+Audit+1";
            history_date := 7 |} ];
     trace := [] |}.

Definition expire_lic_1_before_50 : ExpirationRequest :=
  {| expired_license_uuids := ["urn:uuid:lic-1"];
     ignore_enrollments_modified_after := Some "1970-01-01T00:00:50Z" |}.

Definition row_l2 : SubsidyFulfillment :=
  fulfillment "l2" "lic-1" false (enrolled alice "course-v1:edX+Broken+1") None.
Definition row_l5 : SubsidyFulfillment :=
  fulfillment "l5" "lic-1" false (enrolled alice "course-v1:edX+Paid+1") None.

Definition expire_lic_1_before_naive_50 : ExpirationRequest :=
  {| expired_license_uuids := ["lic-1"];
     ignore_enrollments_modified_after := Some "1970-01-01T00:00:50" |}.

(** A cutoff without UTC offset: the comparison of the first row that is
    not revoked raises [TypeError], and nothing has been done. *)
Example naive_cutoff_raises_type_error :
  sweep_safe demo_overviews demo_history demo_parse_datetime demo_to_uuid
    expire_lic_1_before_naive_50 partial_history_world = false
  /\ demo_expiration expire_lic_1_before_naive_50 partial_history_world
     = (inl TypeError, partial_history_world).
Proof. vm_compute. split; reflexivity. Qed.

Lemma sweep_aborts_without_rollback_witness :
  exists e,
    demo_expiration expire_lic_1_before_50 partial_history_world
    = (inl e,
       swept demo_update demo_certificate demo_status true demo_mode_for_course
         demo_overviews demo_history demo_parse_datetime demo_to_uuid
         expire_lic_1_before_50 [row_l1] partial_history_world)
    /\ is_enrollment_modification e = false.
Proof.
  apply (sweep_aborts_without_rollback demo_update demo_certificate demo_status
           true demo_mode_for_course demo_overviews demo_history
           demo_parse_datetime demo_to_uuid expire_lic_1_before_50
           partial_history_world [row_l1] row_l2 [row_l5]
           [ {| enterprise_customer_user := alice;
                course_id := "course-v1:edX+Audit+1" |};
             {| enterprise_customer_user := alice;
                course_id := "course-v1:edX+Broken+1" |};
             {| enterprise_customer_user := alice;
                course_id := "course-v1:edX+Paid+1" |} ]);
    vm_compute; reflexivity.
Defined.

Lemma modified_at_is_latest_date_witness :
  exists modified_at,
    _course_enrollment_modified_at_by_user_and_course_id demo_history
      [row_l1] partial_history_world
    = (inr modified_at, partial_history_world)
    /\ forall (k : string) (t : Z),
         modified_at !! k = Some t
         <-> (exists h,
                In h (relevant_history demo_history
                        [ {| enterprise_customer_user := alice;
                             course_id := "course-v1:edX+Audit+1" |} ]
                        partial_history_world)
                /\ history_key (history_user_id h) (history_course_id h) = k
                /\ history_date h = t)
             /\ (forall h,
                   In h (relevant_history demo_history
                           [ {| enterprise_customer_user := alice;
                                course_id := "course-v1:edX+Audit+1" |} ]
                           partial_history_world) ->
                   history_key (history_user_id h) (history_course_id h) = k ->
                   history_date h <= t).
Proof.
  exact (modified_at_is_latest_date demo_history [row_l1] partial_history_world
           [ {| enterprise_customer_user := alice;
                course_id := "course-v1:edX+Audit+1" |} ] eq_refl).
Defined.

Lemma license_revoke_reports_every_course_witness :
  exists results w',
    demo_license_revoke revoke_alice demo_world
    = (inr {| status := aggregate_status (existsb reports_failure results);
              data := RevocationResults results |}, w')
    /\ List.map fst results
       = ["course-v1:edX+Audit+1"; "course-v1:edX+Broken+1";
          "course-v1:edX+Paid+1"].
Proof.
  apply (license_revoke_reports_every_course demo_update demo_certificate
           demo_status true demo_mode_for_course demo_overviews demo_to_uuid
           revoke_alice demo_world alice).
  - vm_compute. reflexivity.
  - vm_compute. reflexivity.
  - apply (bool_decide_unpack _). vm_compute. exact I.
Defined.

Lemma retrieve_reads_visible_rows_witness :
  snd (demo_retrieve admin_of_A "no uuid" demo_world) = demo_world
  /\ demo_retrieve admin_of_A "urn:uuid:f2" demo_world
     = (inr {| status := Http.HTTP_200_OK;
               data := Serialized LearnerCredit row_f2 |}, demo_world)
  /\ demo_retrieve admin_of_A "l1" demo_world
     = (inr {| status := Http.HTTP_200_OK;
               data := Serialized Licensed row_l1 |}, demo_world)
  /\ tenant_filtered demo_customer_of support "f3"
       (learner_credit_rows demo_world) = [row_f3].
Proof.
  destruct (retrieve_reads_visible_rows (Platform := list HistoryRow)
              demo_customer_of demo_to_uuid)
    as (Hread & Hcredit & Hlicensed & Hstaff).
  split; [apply Hread|].
  split; [apply (Hcredit admin_of_A "urn:uuid:f2" "f2"); reflexivity|].
  split; [apply (Hlicensed admin_of_A "l1" "l1"); reflexivity|].
  apply Hstaff; [now left | reflexivity].
Defined.

Definition revoke_nobody : LicenseRevokeRequest :=
  {| revoke_user_id := Some 0; revoke_enterprise_id := Some "A" |}.

Definition revoke_stranger : LicenseRevokeRequest :=
  {| revoke_user_id := Some 99; revoke_enterprise_id := Some "urn:uuid:A" |}.

Definition revoke_at_no_customer : LicenseRevokeRequest :=
  {| revoke_user_id := Some 1; revoke_enterprise_id := Some "customer A" |}.

Definition expire_nothing : ExpirationRequest :=
  {| expired_license_uuids := [];
     ignore_enrollments_modified_after := None |}.

Definition expire_before_yesterday : ExpirationRequest :=
  {| expired_license_uuids := ["lic-1"];
     ignore_enrollments_modified_after := Some "yesterday" |}.

Definition expire_before_february_30 : ExpirationRequest :=
  {| expired_license_uuids := ["lic-1"];
     ignore_enrollments_modified_after := Some "1970-02-30T00:00:00Z" |}.

Definition expire_no_license : ExpirationRequest :=
  {| expired_license_uuids := ["lic-1"; "license 2"];
     ignore_enrollments_modified_after := None |}.

Lemma rejected_requests_change_nothing_witness :
  demo_license_revoke revoke_nobody demo_world
  = (inr {| status := Http.HTTP_400_BAD_REQUEST;
            data := Message "user_id and enterprise_id must be provided." |},
     demo_world)
  /\ demo_license_revoke revoke_at_no_customer demo_world
     = (inl DjangoValidationError, demo_world)
  /\ demo_license_revoke revoke_stranger demo_world = (inl Http404, demo_world)
  /\ demo_expiration expire_nothing demo_world
     = (inr {| status := Http.HTTP_400_BAD_REQUEST;
               data := Message
                 "Parameter expired_license_uuids must be provided" |},
        demo_world)
  /\ demo_expiration expire_before_yesterday demo_world
     = (inr {| status := Http.HTTP_400_BAD_REQUEST;
               data := Message
                 "Parameter ignore_enrollments_modified_after is malformed, please provide a date in ISO-8601 format" |},
        demo_world)
  /\ demo_expiration expire_before_february_30 demo_world
     = (inl ValueError, demo_world)
  /\ demo_expiration expire_no_license demo_world
     = (inl DjangoValidationError, demo_world).
Proof.
  destruct (rejected_requests_change_nothing demo_update demo_certificate
              demo_status true demo_mode_for_course demo_overviews demo_history
              demo_parse_datetime demo_to_uuid)
    as (Hinvalid & Hnocustomer & Hunknown & Hempty & Hmalformed & Himpossible
        & Hnolicense & _).
  split; [apply Hinvalid; reflexivity|].
  split; [apply Hnocustomer; reflexivity|].
  split.
  { apply (Hunknown revoke_stranger demo_world "A"); [reflexivity | reflexivity |].
    intros ecu [<-|[<-|[<-|[<-|[]]]]]; discriminate. }
  split; [apply Hempty; reflexivity|].
  split.
  { apply (Hmalformed expire_before_yesterday demo_world "yesterday");
      [discriminate | reflexivity | discriminate | reflexivity]. }
  split.
  { apply (Himpossible expire_before_february_30 demo_world
             "1970-02-30T00:00:00Z");
      [discriminate | reflexivity | discriminate | reflexivity]. }
  apply (Hnolicense expire_no_license demo_world "license 2");
    [reflexivity | reflexivity | right; now left | reflexivity].
Defined.

End SubsidyViews.

(** ** contains_content_items, for a catalog and for a customer

    [catalog.contains_courses] and [catalog.contains_programs] ask the
    enterprise catalog service; they are section variables that answer a
    boolean.  [requote] stands for [unquote(quote_plus(.))]. *)

Module CatalogContentItems.

Definition nonempty {A} (l : list A) : bool :=
  match l with [] => false | _ :: _ => true end.

Section Catalog.

Context {Catalog : Type}.
Variable contains_courses : Catalog -> list string -> bool.
Variable contains_programs : Catalog -> list string -> bool.
Variable requote : string -> string.

(** [EnterpriseCustomerCatalogViewSet.contains_content_items], for the
    catalog that [get_object] found. *)
Definition contains_content_items (enterprise_customer_catalog : Catalog)
    (course_run_ids program_uuids : list string) : bool :=
  let course_run_ids := List.map requote course_run_ids in
  let contains_content_items := true in
  let contains_content_items :=
    if nonempty course_run_ids
    then contains_courses enterprise_customer_catalog course_run_ids
    else contains_content_items in
  let contains_content_items :=
    if nonempty program_uuids
    then contains_content_items
         && contains_programs enterprise_customer_catalog program_uuids
    else contains_content_items in
  contains_content_items.

End Catalog.

End CatalogContentItems.

Module CustomerContentItems.

Import CatalogContentItems.

Section Customer.

Context {Catalog : Type}.
Variable contains_courses : Catalog -> list string -> bool.
Variable contains_programs : Catalog -> list string -> bool.
Variable requote : string -> string.

(** [EnterpriseCustomerViewSet.contains_content_items], for the catalogs
    of the customer that [get_object] found. *)
Definition contains_content_items (enterprise_customer_catalogs : list Catalog)
    (course_run_ids program_uuids : list string) : bool :=
  let course_run_ids := List.map requote course_run_ids in
  (fix loop (catalogs : list Catalog) : bool :=
     match catalogs with
     | [] => false
     | catalog :: rest =>
         let contains_course_runs :=
           negb (nonempty course_run_ids)
           || contains_courses catalog course_run_ids in
         let contains_program_uuids :=
           negb (nonempty program_uuids)
           || contains_programs catalog program_uuids in
         if contains_course_runs && contains_program_uuids then true
         else loop rest
     end) enterprise_customer_catalogs.

(** X16.  The customer view and the catalog view agree: the customer
    view answers true exactly when the catalog view answers true for one
    of the customer's catalogs.  So the course runs and the programs that
    are asked for have to be in one and the same catalog; a customer
    without a catalog contains nothing; and a catalog more never turns
    the answer from true to false. *)
Theorem customer_contains_iff_some_catalog_contains
    (catalogs : list Catalog) (course_run_ids program_uuids : list string) :
  contains_content_items catalogs course_run_ids program_uuids
  = existsb
      (fun catalog =>
         CatalogContentItems.contains_content_items
           contains_courses contains_programs requote
           catalog course_run_ids program_uuids)
      catalogs
  /\ (contains_content_items catalogs course_run_ids program_uuids = true
      <-> exists catalog,
            In catalog catalogs
            /\ (course_run_ids = []
                \/ contains_courses catalog (List.map requote course_run_ids) = true)
            /\ (program_uuids = []
                \/ contains_programs catalog program_uuids = true))
  /\ contains_content_items [] course_run_ids program_uuids = false
  /\ (forall catalog,
        contains_content_items catalogs course_run_ids program_uuids = true ->
        contains_content_items (catalog :: catalogs) course_run_ids program_uuids
        = true).
Proof.
  assert (Hone : forall catalog,
             CatalogContentItems.contains_content_items
               contains_courses contains_programs requote
               catalog course_run_ids program_uuids
             = (negb (nonempty (List.map requote course_run_ids))
                || contains_courses catalog (List.map requote course_run_ids))
               && (negb (nonempty program_uuids)
                   || contains_programs catalog program_uuids)).
  { intros catalog. unfold CatalogContentItems.contains_content_items. cbv zeta.
    destruct (nonempty (List.map requote course_run_ids)),
      (nonempty program_uuids); cbn [negb orb andb];
      [reflexivity | now rewrite andb_true_r | reflexivity | reflexivity]. }
  assert (Heq : contains_content_items catalogs course_run_ids program_uuids
                = existsb
                    (fun catalog =>
                       CatalogContentItems.contains_content_items
                         contains_courses contains_programs requote
                         catalog course_run_ids program_uuids)
                    catalogs).
  { unfold contains_content_items. cbv zeta.
    induction catalogs as [|catalog rest IH]; [reflexivity|].
    cbn [existsb]. rewrite Hone, <- IH.
    now destruct (_ && _). }
  split; [exact Heq|]. split; [|split].
  - rewrite Heq, existsb_exists. split.
    + intros (catalog & Hin & Hc). exists catalog. split; [exact Hin|].
      rewrite Hone in Hc. apply andb_true_iff in Hc. destruct Hc as [Hr Hp].
      split.
      * destruct course_run_ids; [now left|]. right. exact Hr.
      * destruct program_uuids; [now left|]. right. exact Hp.
    + intros (catalog & Hin & Hr & Hp). exists catalog. split; [exact Hin|].
      rewrite Hone. apply andb_true_iff. split.
      * destruct Hr as [-> | ->]; [reflexivity | apply orb_true_r].
      * destruct Hp as [-> | ->]; [reflexivity | apply orb_true_r].
  - reflexivity.
  - intros catalog Ht. unfold contains_content_items in *. cbv zeta in *.
    rewrite Ht. now destruct (_ && _).
Qed.

End Customer.

End CustomerContentItems.

(** ** EnterpriseCustomerViewSet.unlink_users

    The view from the point where the serializer has accepted the
    request.  [unlink_user] is the manager method of the models module, a
    section variable: it answers what it raised, if anything, and the
    database it leaves.  The world keeps the database, the warnings
    logged and the calls made.  [with transaction.atomic()] restores the
    database when the block is left by an exception; the log is not part
    of the database. *)

Module UnlinkUsers.

(** [DoesNotExist] of either model, or any other exception with its
    text. *)
Inductive Raised : Type :=
| DoesNotExist
| OtherException (text : string).

(** [raise UnlinkUserFromEnterpriseError(msg) from exc] *)
Inductive Exn : Type :=
| UnlinkUserFromEnterpriseError (msg cause : string).

Record Request : Type := {
  user_emails : option (list string);
  is_relinkable : option bool;
}.

Record World (DB : Type) : Type := {
  db : DB;
  log : list string;
  calls : list (string * bool);
}.
Arguments db {DB}.
Arguments log {DB}.
Arguments calls {DB}.

Section View.

Context {DB Customer : Type}.
Variable unlink_user : Customer -> string -> bool -> DB -> option Raised * DB.
Variable customer_str : Customer -> string.

Definition does_not_exist_message (email : string) (c : Customer) : string :=
  "User with email " ++ email ++ " does not exist in enterprise "
  ++ customer_str c ++ ".".

Definition could_not_unlink_message (email : string) (c : Customer) : string :=
  "Could not unlink " ++ email ++ " from " ++ customer_str c.

(** The loop of lines 538-548. *)
Fixpoint unlink_loop (enterprise_customer : Customer) (relinkable : bool)
    (emails_to_unlink : list string) (w : World DB) : option Exn * World DB :=
  match emails_to_unlink with
  | [] => (None, w)
  | email :: rest =>
      let '(raised, db') :=
        unlink_user enterprise_customer email relinkable (db w) in
      let called := calls w ++ [(email, relinkable)] in
      match raised with
      | None =>
          unlink_loop enterprise_customer relinkable rest
            {| db := db'; log := log w; calls := called |}
      | Some DoesNotExist =>
          unlink_loop enterprise_customer relinkable rest
            {| db := db';
               log := log w ++ [does_not_exist_message email enterprise_customer];
               calls := called |}
      | Some (OtherException text) =>
          (Some (UnlinkUserFromEnterpriseError
                   (could_not_unlink_message email enterprise_customer) text),
           {| db := db'; log := log w; calls := called |})
      end
  end.

(** [with transaction.atomic(): body] *)
Definition atomic (body : World DB -> option Exn * World DB) (w : World DB)
  : option Exn * World DB :=
  match body w with
  | (Some e, w') => (Some e, {| db := db w; log := log w'; calls := calls w' |})
  | (None, w') => (None, w')
  end.

Definition unlink_users (enterprise_customer : Customer) (request : Request)
    (w : World DB) : (Exn + Z) * World DB :=
  let emails_to_unlink := default [] (user_emails request) in
  let relinkable := default true (is_relinkable request) in
  match atomic (unlink_loop enterprise_customer relinkable emails_to_unlink) w with
  | (Some e, w') => (inl e, w')
  | (None, w') => (inr Http.HTTP_200_OK, w')
  end.

(** The database after unlinking the emails one after the other. *)
Definition unlinked (c : Customer) (relinkable : bool) (emails : list string)
    (d : DB) : DB :=
  fold_left (fun d email => snd (unlink_user c email relinkable d)) emails d.

Definition attempted (relinkable : bool) (emails : list string)
  : list (string * bool) :=
  List.map (fun email => (email, relinkable)) emails.

Lemma unlink_loop_spec (c : Customer) (relinkable : bool) (emails : list string) :
  forall w : World DB,
    match unlink_loop c relinkable emails w with
    | (None, w') =>
        db w' = unlinked c relinkable emails (db w)
        /\ calls w' = calls w ++ attempted relinkable emails
        /\ (exists warnings, log w' = log w ++ warnings)
    | (Some e, w') =>
        exists done email rest text,
          emails = done ++ email :: rest
          /\ e = UnlinkUserFromEnterpriseError (could_not_unlink_message email c) text
          /\ unlink_user c email relinkable (unlinked c relinkable done (db w))
             = (Some (OtherException text), db w')
          /\ calls w' = calls w ++ attempted relinkable (done ++ [email])
          /\ (exists warnings, log w' = log w ++ warnings)
    end.
Proof.
  induction emails as [|email rest IH]; intros w.
  - cbn. rewrite app_nil_r. repeat split. exists []. now rewrite app_nil_r.
  - cbn [unlink_loop].
    destruct (unlink_user c email relinkable (db w)) as [raised d1] eqn:Hu.
    assert (Hstep : forall lg,
               match unlink_loop c relinkable rest
                       {| db := d1; log := log w ++ lg;
                          calls := calls w ++ [(email, relinkable)] |} with
               | (None, w') =>
                   db w' = unlinked c relinkable (email :: rest) (db w)
                   /\ calls w' = calls w ++ attempted relinkable (email :: rest)
                   /\ (exists warnings, log w' = log w ++ warnings)
               | (Some e, w') =>
                   exists done email0 rest0 text,
                     email :: rest = done ++ email0 :: rest0
                     /\ e = UnlinkUserFromEnterpriseError
                              (could_not_unlink_message email0 c) text
                     /\ unlink_user c email0 relinkable
                          (unlinked c relinkable done (db w))
                        = (Some (OtherException text), db w')
                     /\ calls w' = calls w ++ attempted relinkable (done ++ [email0])
                     /\ (exists warnings, log w' = log w ++ warnings)
               end).
    { intros lg.
      specialize (IH {| db := d1; log := log w ++ lg;
                        calls := calls w ++ [(email, relinkable)] |}).
      destruct (unlink_loop c relinkable rest _) as [[e|] w']; cbn [db log calls] in IH.
      - destruct IH as (done & email0 & rest0 & text & -> & -> & Hcall & Hcalls & (ws & Hlog)).
        exists (email :: done), email0, rest0, text.
        split; [reflexivity|]. split; [reflexivity|].
        split; [cbn; now rewrite Hu|].
        split; [rewrite Hcalls, <- app_assoc; reflexivity|].
        exists (lg ++ ws). now rewrite Hlog, app_assoc.
      - destruct IH as (Hdb & Hcalls & (ws & Hlog)).
        split; [cbn; now rewrite Hu|].
        split; [rewrite Hcalls, <- app_assoc; reflexivity|].
        exists (lg ++ ws). now rewrite Hlog, app_assoc. }
    destruct raised as [[|text]|].
    + apply (Hstep [does_not_exist_message email c]).
    + exists [], email, rest, text. cbn [db log calls app unlinked fold_left].
      split; [reflexivity|]. split; [reflexivity|]. split; [exact Hu|].
      split; [reflexivity|]. exists []. now rewrite app_nil_r.
    + specialize (Hstep []). rewrite app_nil_r in Hstep. exact Hstep.
Qed.

(** X17.  Unlinking is all or nothing.  The emails are tried in the
    order given.  A user that does not exist is logged and passed over.
    When every call returns or raises [DoesNotExist], the answer is 200,
    every email has been tried once and the database is the one the calls
    left one after the other.  When a call raises anything else, the
    emails after it are not tried, the view raises
    [UnlinkUserFromEnterpriseError] with a message naming that email, and
    the database is the one before the request: what the earlier calls
    had unlinked is undone.  The log only grows. *)
Theorem unlink_users_all_or_nothing
    (c : Customer) (request : Request) (w : World DB) :
  let emails := default [] (user_emails request) in
  let relinkable := default true (is_relinkable request) in
  let r := unlink_users c request w in
  (exists warnings, log (snd r) = log w ++ warnings)
  /\ match fst r with
     | inr status =>
         status = Http.HTTP_200_OK
         /\ calls (snd r) = calls w ++ attempted relinkable emails
         /\ db (snd r) = unlinked c relinkable emails (db w)
     | inl e =>
         exists done email rest text,
           emails = done ++ email :: rest
           /\ fst (unlink_user c email relinkable
                     (unlinked c relinkable done (db w)))
              = Some (OtherException text)
           /\ e = UnlinkUserFromEnterpriseError
                    (could_not_unlink_message email c) text
           /\ calls (snd r) = calls w ++ attempted relinkable (done ++ [email])
           /\ db (snd r) = db w
     end.
Proof.
  cbv zeta. unfold unlink_users, atomic.
  pose proof (unlink_loop_spec c (default true (is_relinkable request))
                (default [] (user_emails request)) w) as Hloop.
  destruct (unlink_loop _ _ _ w) as [[e|] w']; cbn [fst snd db log calls].
  - destruct Hloop as (done & email & rest & text & Hsplit & -> & Hcall & Hcalls & Hlog).
    split; [exact Hlog|].
    exists done, email, rest, text. split; [exact Hsplit|].
    split; [now rewrite Hcall|]. repeat split. exact Hcalls.
  - destruct Hloop as (Hdb & Hcalls & Hlog). split; [exact Hlog|].
    repeat split; assumption.
Qed.

End View.

End UnlinkUsers.
